(** * gguf-parser-go: a shallow embedding of the GGUF decoder

    The development follows [file.go] (decoder, typed metadata values,
    tensor size arithmetic, layer regrouping) and the file-type
    inference of the model metadata file.

    Conventions.
    - A Go [uintN]/[intN] is a [Z] kept in range by explicit wrap-around
      ([wrap], [swrap]).
    - A Go call yields a [Result]: a value, a returned [error], or a panic.
    - The byte source is a list of bytes with an explicit cursor. *)

From Stdlib Require Import ZArith Lia List Bool String Ascii Permutation Sorted.
From Stdlib.Strings Require Import Byte.
From stdpp Require Import base option list gmap strings.
Import ListNotations.
Local Open Scope Z_scope.

(** ** Machine integers *)

Definition wrap (w : Z) (x : Z) : Z := x mod 2 ^ w.
Definition swrap (w : Z) (x : Z) : Z := (x + 2 ^ (w - 1)) mod 2 ^ w - 2 ^ (w - 1).

Abbreviation uint8 := (wrap 8).
Abbreviation uint16 := (wrap 16).
Abbreviation uint32 := (wrap 32).
Abbreviation uint64 := (wrap 64).
Abbreviation int8 := (swrap 8).
Abbreviation int16 := (swrap 16).
Abbreviation int32 := (swrap 32).
Abbreviation int64 := (swrap 64).

(** ** Outcomes of a call *)

Inductive PanicValue :=
| PanicInvalidType (t : Z)          (* panic(fmt.Errorf("invalid type: %v", t)) *)
| PanicTypeAssertion                (* x.(T) on a value of another dynamic type *)
| PanicIndexOutOfRange              (* s[i] with i >= len(s) *)
| PanicDivideByZero.

Inductive Error :=
| ErrGGUFFileInvalidFormat
| ErrUnsupportedFormat (magic : Z)  (* "unsupported format: %s" *)
| ErrInvalidType (t : Z)            (* "invalid type: %v" *)
| ErrInvalidValueType (t : Z)       (* "invalid value type: %v" *)
| EOF
| ErrUnexpectedEOF
| ErrSeekNegative
| Wrapped (ctx : string) (e : Error)            (* fmt.Errorf("ctx: %w", e) *)
| WrappedAt (ctx : string) (i : Z) (e : Error). (* fmt.Errorf("ctx %d: %w", i, e) *)

Inductive Result (A : Type) :=
| Ok (a : A)
| Err (e : Error)
| Panicked (p : PanicValue)
| OutOfFuel.
Arguments Ok {A} a.
Arguments Err {A} e.
Arguments Panicked {A} p.
Arguments OutOfFuel {A}.

Definition rbind {A B} (r : Result A) (k : A -> Result B) : Result B :=
  match r with
  | Ok a => k a
  | Err e => Err e
  | Panicked p => Panicked p
  | OutOfFuel => OutOfFuel
  end.

Notation "x <-! r ; k" := (rbind r (fun x => k))
  (at level 100, r at next level, right associativity, only parsing).

(** [for i := lo; i < hi; i++ { s = body i s }], stopping at the first
    error or panic. *)
Fixpoint for_range {S : Type} (n : nat) (i : Z) (body : Z -> S -> Result S) (s : S)
  : Result S :=
  match n with
  | O => Ok s
  | Datatypes.S n' => s' <-! body i s; for_range n' (i + 1) body s'
  end.

Definition for_ {S : Type} (lo hi : Z) (body : Z -> S -> Result S) (s : S) : Result S :=
  for_range (Z.to_nat (hi - lo)) lo body s.

(** [s[i]] on a slice. *)
Definition index {A : Type} (s : list A) (i : Z) : Result A :=
  if (0 <=? i) && (i <? Z.of_nat (length s)) then
    match nth_error s (Z.to_nat i) with
    | Some x => Ok x
    | None => Panicked PanicIndexOutOfRange
    end
  else Panicked PanicIndexOutOfRange.

(** ** Declarations of [ggml.go]

    [file.go] and the model metadata file use the [GGMLType] constants,
    [_GGMLTypeCount] and [GGMLType.Trait] of [ggml.go], which is not part
    of the sources at hand.  They are taken as parameters: the constants
    are pairwise distinct (they label the cases of one [switch]). *)

Record GGMLTypeTrait := {
  BlockSize : Z;   (* number of elements per block, uint64 *)
  TypeSize : Z     (* byte size of one block, uint64 *)
}.

Class GGMLDecls := {
  GGMLTypeF32 : Z; GGMLTypeF16 : Z;
  GGMLTypeQ4_0 : Z; GGMLTypeQ4_1 : Z; GGMLTypeQ4_2 : Z; GGMLTypeQ4_3 : Z;
  GGMLTypeQ5_0 : Z; GGMLTypeQ5_1 : Z; GGMLTypeQ8_0 : Z;
  GGMLTypeQ2_K : Z; GGMLTypeQ3_K : Z; GGMLTypeQ4_K : Z; GGMLTypeQ5_K : Z;
  GGMLTypeQ6_K : Z;
  GGMLTypeIQ2_XXS : Z; GGMLTypeIQ2_XS : Z; GGMLTypeIQ3_XXS : Z;
  GGMLTypeIQ1_S : Z; GGMLTypeIQ4_NL : Z; GGMLTypeIQ3_S : Z; GGMLTypeIQ2_S : Z;
  GGMLTypeIQ4_XS : Z; GGMLTypeIQ1_M : Z; GGMLTypeBF16 : Z;
  _GGMLTypeCount : Z;
  Trait : Z -> option GGMLTypeTrait;
  GGMLType_distinct : NoDup
    [GGMLTypeF32; GGMLTypeF16; GGMLTypeQ4_0; GGMLTypeQ4_1; GGMLTypeQ4_2;
     GGMLTypeQ4_3; GGMLTypeQ5_0; GGMLTypeQ5_1; GGMLTypeQ8_0; GGMLTypeQ2_K;
     GGMLTypeQ3_K; GGMLTypeQ4_K; GGMLTypeQ5_K; GGMLTypeQ6_K; GGMLTypeIQ2_XXS;
     GGMLTypeIQ2_XS; GGMLTypeIQ3_XXS; GGMLTypeIQ1_S; GGMLTypeIQ4_NL;
     GGMLTypeIQ3_S; GGMLTypeIQ2_S; GGMLTypeIQ4_XS; GGMLTypeIQ1_M; GGMLTypeBF16]
}.

(** The constants in the order of the class. *)
Definition ggml_types `{GGMLDecls} : list Z :=
  [GGMLTypeF32; GGMLTypeF16; GGMLTypeQ4_0; GGMLTypeQ4_1; GGMLTypeQ4_2;
   GGMLTypeQ4_3; GGMLTypeQ5_0; GGMLTypeQ5_1; GGMLTypeQ8_0; GGMLTypeQ2_K;
   GGMLTypeQ3_K; GGMLTypeQ4_K; GGMLTypeQ5_K; GGMLTypeQ6_K; GGMLTypeIQ2_XXS;
   GGMLTypeIQ2_XS; GGMLTypeIQ3_XXS; GGMLTypeIQ1_S; GGMLTypeIQ4_NL;
   GGMLTypeIQ3_S; GGMLTypeIQ2_S; GGMLTypeIQ4_XS; GGMLTypeIQ1_M; GGMLTypeBF16].

(** ** Tensor infos *)

Record GGUFTensorInfo := {
  ti_Name : string;
  ti_NDimensions : Z;          (* uint32 *)
  ti_Dimensions : list Z;      (* []uint64 *)
  ti_Type : Z;                 (* GGMLType *)
  ti_Offset : Z;               (* uint64 *)
  ti_StartOffset : Z           (* int64 *)
}.

Definition GGUFTensorInfos := list GGUFTensorInfo.

Module TensorInfo.

(** [func (ti GGUFTensorInfo) Index(names []string)] *)
Definition Index (ti : GGUFTensorInfo) (names : list string)
  : option (gmap string GGUFTensorInfo) * Z :=
  match names with
  | [] => (None, 0)
  | n0 :: _ =>
      if String.eqb n0 (ti_Name ti)
      then (Some {[ ti_Name ti := ti ]}, 1)
      else (None, 0)
  end.

(** [func (ti GGUFTensorInfo) Get(name string)] *)
Definition Get (ti : GGUFTensorInfo) (name : string) : option GGUFTensorInfo :=
  if String.eqb (ti_Name ti) name then Some ti else None.

(** [func (ti GGUFTensorInfo) Search(nameRegex *regexp.Regexp)]; the
    regular expression is taken as its [MatchString]. *)
Definition Search (ti : GGUFTensorInfo) (MatchString : string -> bool)
  : list GGUFTensorInfo :=
  if MatchString (ti_Name ti) then [ti] else [].

(** [func (ti GGUFTensorInfo) Elements() uint64] *)
Definition Elements (ti : GGUFTensorInfo) : Result Z :=
  if ti_NDimensions ti =? 0 then Ok 0
  else
    for_ 0 (ti_NDimensions ti)
      (fun i ret => d <-! index (ti_Dimensions ti) i; Ok (uint64 (ret * d)))
      1.

(** [func (ti GGUFTensorInfo) Count() uint64] *)
Definition Count (ti : GGUFTensorInfo) : Result Z := Ok 1.

Section WithGGML.
Context `{GGMLDecls}.

(** The stride table [nb] of [Bytes]. *)
Definition Bytes_nb (ti : GGUFTensorInfo) (tr : GGMLTypeTrait) : Result (list Z) :=
  let nb := [TypeSize tr] in
  nb0 <-! index nb 0;
  d0 <-! index (ti_Dimensions ti) 0;
  if BlockSize tr =? 0 then Panicked PanicDivideByZero
  else
    let nb := nb ++ [uint64 (nb0 * (d0 / BlockSize tr))] in
    for_ 2 (ti_NDimensions ti)
      (fun i nb =>
         p <-! index nb (i - 1);
         d <-! index (ti_Dimensions ti) (i - 1);
         Ok (nb ++ [uint64 (p * d)]))
      nb.

(** [ret += (ti.Dimensions[i] - 1) * nb[i]] *)
Definition Bytes_step (ti : GGUFTensorInfo) (nb : list Z) (i ret : Z) : Result Z :=
  d <-! index (ti_Dimensions ti) i;
  s <-! index nb i;
  Ok (uint64 (ret + uint64 (uint64 (d - 1) * s))).

(** [func (ti GGUFTensorInfo) Bytes() uint64] *)
Definition Bytes (ti : GGUFTensorInfo) : Result Z :=
  if ti_NDimensions ti =? 0 then Ok 0
  else
    match Trait (ti_Type ti) with
    | None => Panicked (PanicInvalidType (ti_Type ti))
    | Some tr =>
        nb <-! Bytes_nb ti tr;
        if BlockSize tr =? 1 then
          for_ 0 (ti_NDimensions ti) (Bytes_step ti nb) (TypeSize tr)
        else
          d0 <-! index (ti_Dimensions ti) 0;
          nb0 <-! index nb 0;
          for_ 1 (ti_NDimensions ti) (Bytes_step ti nb)
            (uint64 (d0 * nb0) / BlockSize tr)
    end.
End WithGGML.

End TensorInfo.

(** ** Flat tensor lists *)

Module TensorInfos.

(** [for i := range tis { ret += tis[i].M() }] for a leaf method [M]. *)
Fixpoint total (leaf : GGUFTensorInfo -> Result Z) (tis : GGUFTensorInfos) (ret : Z)
  : Result Z :=
  match tis with
  | [] => Ok ret
  | ti :: tis' => x <-! leaf ti; total leaf tis' (uint64 (ret + x))
  end.

(** The exact sum of a leaf method over a list, failing where the
    first leaf fails. *)
Fixpoint sum_of (leaf : GGUFTensorInfo -> Result Z) (tis : GGUFTensorInfos) : Result Z :=
  match tis with
  | [] => Ok 0
  | ti :: tis' => x <-! leaf ti; s <-! sum_of leaf tis'; Ok (x + s)
  end.

(** [func (tis GGUFTensorInfos) Elements() uint64] *)
Definition Elements (tis : GGUFTensorInfos) : Result Z :=
  total TensorInfo.Elements tis 0.

(** [func (tis GGUFTensorInfos) Bytes() uint64] *)
Definition Bytes `{GGMLDecls} (tis : GGUFTensorInfos) : Result Z :=
  total TensorInfo.Bytes tis 0.

(** [func (tis GGUFTensorInfos) Count() uint64] *)
Definition Count (tis : GGUFTensorInfos) : Result Z :=
  Ok (uint64 (Z.of_nat (length tis))).

(** [func (tis GGUFTensorInfos) Get(name string)] *)
Fixpoint Get (tis : GGUFTensorInfos) (name : string) : option GGUFTensorInfo :=
  match tis with
  | [] => None
  | ti :: tis' => if String.eqb (ti_Name ti) name then Some ti else Get tis' name
  end.

(** [func (tis GGUFTensorInfos) Search(nameRegex *regexp.Regexp)] *)
Definition Search (tis : GGUFTensorInfos) (MatchString : string -> bool)
  : list GGUFTensorInfo :=
  List.filter (fun ti => MatchString (ti_Name ti)) tis.

(** The loop of [Index]: [ns] is the set built from [names]; the loop
    leaves as soon as [found == len(ns)]. *)
Fixpoint Index_loop (ns : gset string) (tis : GGUFTensorInfos)
    (infos : gmap string GGUFTensorInfo) (found : Z)
  : gmap string GGUFTensorInfo * Z :=
  match tis with
  | [] => (infos, found)
  | ti :: tis' =>
      let '(infos, found) :=
        if decide (ti_Name ti ∈ ns)
        then (<[ ti_Name ti := ti ]> infos, found + 1)
        else (infos, found) in
      if found =? Z.of_nat (size ns) then (infos, found)
      else Index_loop ns tis' infos found
  end.

(** [func (tis GGUFTensorInfos) Index(names []string)] *)
Definition Index (tis : GGUFTensorInfos) (names : list string)
  : gmap string GGUFTensorInfo * Z :=
  Index_loop (list_to_set names) tis ∅ 0.

End TensorInfos.

(** ** Hierarchical tensor infos

    The values stored behind the interface [IGGUFTensorInfos] by
    [layers]: a [GGUFTensorInfo] leaf, or a pointer to a
    [GGUFNamedTensorInfos] branch. *)

#[warnings="-register-all"]
Inductive IGGUFTensorInfos :=
| ITensorInfo (ti : GGUFTensorInfo)
| INamed (Name : string) (items : list IGGUFTensorInfos).

Definition GGUFLayerTensorInfos := list IGGUFTensorInfos.

Module LayerTensorInfos.

Section Total.
Variable leaf : GGUFTensorInfo -> Result Z.

(** [ltis[i].M()] dispatched on the dynamic type; a branch runs the
    loop [for i := range ltis { ret += ltis[i].M() }] over its items. *)
Fixpoint item_total (v : IGGUFTensorInfos) : Result Z :=
  match v with
  | ITensorInfo ti => leaf ti
  | INamed _ items =>
      (fix loop (l : list IGGUFTensorInfos) (ret : Z) : Result Z :=
         match l with
         | [] => Ok ret
         | x :: l' => e <-! item_total x; loop l' (uint64 (ret + e))
         end) items 0
  end.

Fixpoint total (ltis : GGUFLayerTensorInfos) (ret : Z) : Result Z :=
  match ltis with
  | [] => Ok ret
  | x :: l' => e <-! item_total x; total l' (uint64 (ret + e))
  end.
End Total.

(** [func (ltis GGUFLayerTensorInfos) Elements() uint64] *)
Definition Elements (ltis : GGUFLayerTensorInfos) : Result Z :=
  total TensorInfo.Elements ltis 0.

(** [func (ltis GGUFLayerTensorInfos) Bytes() uint64] *)
Definition Bytes `{GGMLDecls} (ltis : GGUFLayerTensorInfos) : Result Z :=
  total TensorInfo.Bytes ltis 0.

(** [func (ltis GGUFLayerTensorInfos) Count() uint64] *)
Definition Count (ltis : GGUFLayerTensorInfos) : Result Z :=
  total TensorInfo.Count ltis 0.

(** [func (ltis GGUFLayerTensorInfos) Get(name string)]; a branch
    answers through its items. *)
Fixpoint item_Get (v : IGGUFTensorInfos) (name : string) : option GGUFTensorInfo :=
  match v with
  | ITensorInfo ti => if String.eqb (ti_Name ti) name then Some ti else None
  | INamed _ items =>
      (fix loop (l : list IGGUFTensorInfos) : option GGUFTensorInfo :=
         match l with
         | [] => None
         | x :: l' =>
             match item_Get x name with
             | Some ti => Some ti
             | None => loop l'
             end
         end) items
  end.

Fixpoint Get (ltis : GGUFLayerTensorInfos) (name : string) : option GGUFTensorInfo :=
  match ltis with
  | [] => None
  | x :: l' =>
      match item_Get x name with
      | Some ti => Some ti
      | None => Get l' name
      end
  end.

(** [func (ltis GGUFLayerTensorInfos) Search(nameRegex *regexp.Regexp)] *)
Fixpoint item_Search (MatchString : string -> bool) (v : IGGUFTensorInfos)
  : list GGUFTensorInfo :=
  match v with
  | ITensorInfo ti => if MatchString (ti_Name ti) then [ti] else []
  | INamed _ items => flat_map (item_Search MatchString) items
  end.

Definition Search (ltis : GGUFLayerTensorInfos) (MatchString : string -> bool)
  : list GGUFTensorInfo :=
  flat_map (item_Search MatchString) ltis.

(** [func (ltis GGUFLayerTensorInfos) Index(names []string)]; a branch
    answers through the promoted method, that is this same function on
    its items. *)
Fixpoint item_Index (ns : gset string) (v : IGGUFTensorInfos)
    (infos : gmap string GGUFTensorInfo) (found : Z)
  : gmap string GGUFTensorInfo * Z :=
  match v with
  | ITensorInfo ti =>
      if decide (ti_Name ti ∈ ns)
      then (<[ ti_Name ti := ti ]> infos, found + 1)
      else (infos, found)
  | INamed _ items =>
      let inf :=
        (fix loop (l : list IGGUFTensorInfos)
             (infos : gmap string GGUFTensorInfo) (found : Z) :=
           match l with
           | [] => infos
           | x :: l' =>
               let '(infos, found) := item_Index ns x infos found in
               if found =? Z.of_nat (size ns) then infos
               else loop l' infos found
           end) items ∅ 0 in
      (inf ∪ infos, found + Z.of_nat (size inf))
  end.

Fixpoint Index_loop (ns : gset string) (ltis : GGUFLayerTensorInfos)
    (infos : gmap string GGUFTensorInfo) (found : Z)
  : gmap string GGUFTensorInfo * Z :=
  match ltis with
  | [] => (infos, found)
  | x :: l' =>
      let '(infos, found) := item_Index ns x infos found in
      if found =? Z.of_nat (size ns) then (infos, found)
      else Index_loop ns l' infos found
  end.

Definition Index (ltis : GGUFLayerTensorInfos) (names : list string)
  : gmap string GGUFTensorInfo * Z :=
  Index_loop (list_to_set names) ltis ∅ 0.

(** [func (ltis GGUFLayerTensorInfos) Cut(names []string)]: the entries
    whose name (of the tensor, or of the branch) is among [names], the
    other entries, and whether any entry was cut. *)
Definition Cut (ltis : GGUFLayerTensorInfos) (names : list string)
  : GGUFLayerTensorInfos * GGUFLayerTensorInfos * bool :=
  let ns : gset string := list_to_set names in
  let key (v : IGGUFTensorInfos) : string :=
    match v with
    | ITensorInfo ti => ti_Name ti
    | INamed n _ => n
    end in
  let before := filter (fun v => key v ∈ ns) ltis in
  let after := filter (fun v => key v ∉ ns) ltis in
  (before, after, 0 <? Z.of_nat (length before)).

(** The tensors of a tree, in tree order. *)
Fixpoint leaves_item (v : IGGUFTensorInfos) : list GGUFTensorInfo :=
  match v with
  | ITensorInfo ti => [ti]
  | INamed _ items => flat_map leaves_item items
  end.

Definition leaves (ltis : GGUFLayerTensorInfos) : list GGUFTensorInfo :=
  flat_map leaves_item ltis.

End LayerTensorInfos.

(** ** The layer hierarchy builder *)

(** [strings.Split(s, sep)] for a one-byte separator. *)
Fixpoint Split (s : string) (sep : ascii) : list string :=
  match s with
  | EmptyString => [EmptyString]
  | String c s' =>
      if Ascii.eqb c sep then EmptyString :: Split s' sep
      else match Split s' sep with
           | h :: t => String c h :: t
           | [] => [String c EmptyString]
           end
  end.

(** [strings.Join(elems, sep)] *)
Fixpoint Join (elems : list string) (sep : string) : string :=
  match elems with
  | [] => EmptyString
  | [e] => e
  | e :: rest => (e ++ sep ++ Join rest sep)%string
  end.

Module Layers.

(** A branch is allocated once per key [p], as
    [&GGUFNamedTensorInfos{Name: p}], and the pointer is kept in [pm]
    under [p] and in the tree.  The embedding takes the name of a branch
    for its address: [pm] maps a key to the address stored under it, and
    a write through the pointer [l] reaches every branch of the tree
    that [l] denotes. *)
Record State := {
  ret : GGUFLayerTensorInfos;
  pm : gmap string string
}.

(** [l.GGUFLayerTensorInfos = append(l.GGUFLayerTensorInfos, x)] seen
    from the value [v]. *)
Fixpoint append_at (l : string) (x : IGGUFTensorInfos) (v : IGGUFTensorInfos)
  : IGGUFTensorInfos :=
  match v with
  | ITensorInfo _ => v
  | INamed n items =>
      let items' := map (append_at l x) items in
      INamed n (if String.eqb n l then items' ++ [x] else items')
  end.

Definition store (l : string) (x : IGGUFTensorInfos) (st : State) : State :=
  {| ret := map (append_at l x) (ret st); pm := pm st |}.

(** The type assertion on [pm[p]] that yields the branch pointer. *)
Definition load (st : State) (p : string) : Result string :=
  match pm st !! p with
  | Some l => Ok l
  | None => Panicked PanicTypeAssertion
  end.

(** One iteration of the loop of [layers]. *)
Definition step (st : State) (ti : GGUFTensorInfo) : Result State :=
  let ps := Split (ti_Name ti) "." in
  let n := Z.of_nat (length ps) in
  let ps0 := nth 0 ps EmptyString in
  let ps1 := nth 1 ps EmptyString in
  let ps2 := nth 2 ps EmptyString in
  if (2 <=? n) && String.eqb ps0 "blk" then
    let p := Join [ps0; ps1] "." in
    let st :=
      match pm st !! p with
      | None => {| ret := ret st ++ [INamed p []]; pm := <[ p := p ]> (pm st) |}
      | Some _ => st
      end in
    l <-! load st p;
    Ok (store l (ITensorInfo ti) st)
  else if (3 <=? n) && (String.eqb ps0 "decoder" || String.eqb ps0 "encoder") then
    let p := ps0 in
    let st :=
      match pm st !! p with
      | None => {| ret := ret st ++ [INamed p []]; pm := <[ p := p ]> (pm st) |}
      | Some _ => st
      end in
    xl <-! load st p;
    if negb (String.eqb ps1 "block") then
      Ok (store xl (ITensorInfo ti) st)
    else
      let p := Join [ps0; ps1; ps2] "." in
      let st :=
        match pm st !! p with
        | None => {| ret := ret (store xl (INamed p []) st); pm := <[ p := p ]> (pm st) |}
        | Some _ => st
        end in
      l <-! load st p;
      Ok (store l (ITensorInfo ti) st)
  else
    Ok {| ret := ret st ++ [ITensorInfo ti]; pm := pm st |}.

Fixpoint run (st : State) (tis : GGUFTensorInfos) : Result State :=
  match tis with
  | [] => Ok st
  | ti :: tis' => st' <-! step st ti; run st' tis'
  end.

(** Number of branches of [v] that the address [l] denotes. *)
Fixpoint branches_at (l : string) (v : IGGUFTensorInfos) : nat :=
  match v with
  | ITensorInfo _ => 0%nat
  | INamed n items =>
      ((if String.eqb n l then 1 else 0) + list_sum (map (branches_at l) items))%nat
  end.

(** Every address kept in [pm] is the key it is kept under and denotes
    one branch of the tree; no branch exists under another name. *)
Definition well_formed (st : State) : Prop :=
  (forall p l, pm st !! p = Some l -> l = p)
  /\ (forall q, list_sum (map (branches_at q) (ret st))
                = match pm st !! q with Some _ => 1%nat | None => 0%nat end).

(** [func (gf *GGUFFile) layers() GGUFLayerTensorInfos] *)
Definition layers (tis : GGUFTensorInfos) : Result GGUFLayerTensorInfos :=
  st <-! run {| ret := []; pm := ∅ |} tis;
  Ok (ret st).

(** [func (gf *GGUFFile) Layers(ignores ...string) GGUFLayerTensorInfos] *)
Definition Layers (tis : GGUFTensorInfos) (ignores : list string)
  : Result GGUFLayerTensorInfos :=
  ls <-! layers tis;
  if negb (Z.of_nat (length ignores) =? 0) then
    let '(_, ls, _) := LayerTensorInfos.Cut ls ignores in Ok ls
  else Ok ls.

End Layers.

(** ** Metadata values *)

Definition GGUFMetadataValueTypeUint8 : Z := 0.
Definition GGUFMetadataValueTypeInt8 : Z := 1.
Definition GGUFMetadataValueTypeUint16 : Z := 2.
Definition GGUFMetadataValueTypeInt16 : Z := 3.
Definition GGUFMetadataValueTypeUint32 : Z := 4.
Definition GGUFMetadataValueTypeInt32 : Z := 5.
Definition GGUFMetadataValueTypeFloat32 : Z := 6.
Definition GGUFMetadataValueTypeBool : Z := 7.
Definition GGUFMetadataValueTypeString : Z := 8.
Definition GGUFMetadataValueTypeArray : Z := 9.
Definition GGUFMetadataValueTypeUint64 : Z := 10.
Definition GGUFMetadataValueTypeInt64 : Z := 11.
Definition GGUFMetadataValueTypeFloat64 : Z := 12.
Definition _GGUFMetadataValueTypeCount : Z := 13.

(** [GGUFMetadataKVArrayValue], over the type of its items. *)
Record GGUFMetadataKVArrayValue_ (A : Type) := {
  av_Type : Z;            (* GGUFMetadataValueType *)
  av_Len : Z;             (* uint64 *)
  av_Array : list A;      (* []any, nil when skipping *)
  av_StartOffset : Z;     (* int64 *)
  av_Size : Z             (* int64 *)
}.
Arguments av_Type {A} _.
Arguments av_Len {A} _.
Arguments av_Array {A} _.
Arguments av_StartOffset {A} _.
Arguments av_Size {A} _.

(** A Go [any] holding a decoded metadata value: the constructor is the
    dynamic type.  A float is kept as its IEEE bit pattern. *)
#[warnings="-register-all"]
Inductive any :=
| ANil
| AUint8 (v : Z)
| AInt8 (v : Z)
| AUint16 (v : Z)
| AInt16 (v : Z)
| AUint32 (v : Z)
| AInt32 (v : Z)
| AFloat32 (bits : Z)
| ABool (b : bool)
| AString (s : string)
| AArray (av : GGUFMetadataKVArrayValue_ any)
| AUint64 (v : Z)
| AInt64 (v : Z)
| AFloat64 (bits : Z).

Definition GGUFMetadataKVArrayValue := GGUFMetadataKVArrayValue_ any.

Record GGUFMetadataKV := {
  kv_Key : string;
  kv_ValueType : Z;
  kv_Value : any
}.

Definition GGUFMetadataKVs := list GGUFMetadataKV.

(** The target type [T] of the generic accessors: the conversions [T(x)]
    from an integer and from the two float widths. *)
Class Numeric (T : Type) := {
  cast_int : Z -> T;
  cast_float32 : Z -> T;
  cast_float64 : Z -> T
}.

(** An unsigned integer target of [w] bits; the float-to-integer
    conversions are those of the Go compiler and are left open. *)
Definition Numeric_uint (w : Z) (f32 f64 : Z -> Z) : Numeric Z :=
  {| cast_int := wrap w; cast_float32 := f32; cast_float64 := f64 |}.

Module MetadataKV.

(** [func (kv GGUFMetadataKV) ValueUint32() uint32] *)
Definition ValueUint32 (kv : GGUFMetadataKV) : Result Z :=
  if negb (kv_ValueType kv =? GGUFMetadataValueTypeUint32)
  then Panicked (PanicInvalidType (kv_ValueType kv))
  else match kv_Value kv with
       | AUint32 v => Ok v
       | _ => Panicked PanicTypeAssertion
       end.

(** [func (kv GGUFMetadataKV) ValueString() string] *)
Definition ValueString (kv : GGUFMetadataKV) : Result string :=
  if negb (kv_ValueType kv =? GGUFMetadataValueTypeString)
  then Panicked (PanicInvalidType (kv_ValueType kv))
  else match kv_Value kv with
       | AString s => Ok s
       | _ => Panicked PanicTypeAssertion
       end.

(** [func (kv GGUFMetadataKV) ValueUint8() uint8] *)
Definition ValueUint8 (kv : GGUFMetadataKV) : Result Z :=
  if negb (kv_ValueType kv =? GGUFMetadataValueTypeUint8)
  then Panicked (PanicInvalidType (kv_ValueType kv))
  else match kv_Value kv with
       | AUint8 v => Ok v
       | _ => Panicked PanicTypeAssertion
       end.

(** [func (kv GGUFMetadataKV) ValueInt8() int8] *)
Definition ValueInt8 (kv : GGUFMetadataKV) : Result Z :=
  if negb (kv_ValueType kv =? GGUFMetadataValueTypeInt8)
  then Panicked (PanicInvalidType (kv_ValueType kv))
  else match kv_Value kv with
       | AInt8 v => Ok v
       | _ => Panicked PanicTypeAssertion
       end.

(** [func (kv GGUFMetadataKV) ValueUint16() uint16] *)
Definition ValueUint16 (kv : GGUFMetadataKV) : Result Z :=
  if negb (kv_ValueType kv =? GGUFMetadataValueTypeUint16)
  then Panicked (PanicInvalidType (kv_ValueType kv))
  else match kv_Value kv with
       | AUint16 v => Ok v
       | _ => Panicked PanicTypeAssertion
       end.

(** [func (kv GGUFMetadataKV) ValueInt16() int16] *)
Definition ValueInt16 (kv : GGUFMetadataKV) : Result Z :=
  if negb (kv_ValueType kv =? GGUFMetadataValueTypeInt16)
  then Panicked (PanicInvalidType (kv_ValueType kv))
  else match kv_Value kv with
       | AInt16 v => Ok v
       | _ => Panicked PanicTypeAssertion
       end.

(** [func (kv GGUFMetadataKV) ValueInt32() int32] *)
Definition ValueInt32 (kv : GGUFMetadataKV) : Result Z :=
  if negb (kv_ValueType kv =? GGUFMetadataValueTypeInt32)
  then Panicked (PanicInvalidType (kv_ValueType kv))
  else match kv_Value kv with
       | AInt32 v => Ok v
       | _ => Panicked PanicTypeAssertion
       end.

(** [func (kv GGUFMetadataKV) ValueFloat32() float32] *)
Definition ValueFloat32 (kv : GGUFMetadataKV) : Result Z :=
  if negb (kv_ValueType kv =? GGUFMetadataValueTypeFloat32)
  then Panicked (PanicInvalidType (kv_ValueType kv))
  else match kv_Value kv with
       | AFloat32 v => Ok v
       | _ => Panicked PanicTypeAssertion
       end.

(** [func (kv GGUFMetadataKV) ValueBool() bool] *)
Definition ValueBool (kv : GGUFMetadataKV) : Result bool :=
  if negb (kv_ValueType kv =? GGUFMetadataValueTypeBool)
  then Panicked (PanicInvalidType (kv_ValueType kv))
  else match kv_Value kv with
       | ABool v => Ok v
       | _ => Panicked PanicTypeAssertion
       end.

(** [func (kv GGUFMetadataKV) ValueArray() GGUFMetadataKVArrayValue] *)
Definition ValueArray (kv : GGUFMetadataKV) : Result GGUFMetadataKVArrayValue :=
  if negb (kv_ValueType kv =? GGUFMetadataValueTypeArray)
  then Panicked (PanicInvalidType (kv_ValueType kv))
  else match kv_Value kv with
       | AArray v => Ok v
       | _ => Panicked PanicTypeAssertion
       end.

(** [func (kv GGUFMetadataKV) ValueUint64() uint64] *)
Definition ValueUint64 (kv : GGUFMetadataKV) : Result Z :=
  if negb (kv_ValueType kv =? GGUFMetadataValueTypeUint64)
  then Panicked (PanicInvalidType (kv_ValueType kv))
  else match kv_Value kv with
       | AUint64 v => Ok v
       | _ => Panicked PanicTypeAssertion
       end.

(** [func (kv GGUFMetadataKV) ValueInt64() int64] *)
Definition ValueInt64 (kv : GGUFMetadataKV) : Result Z :=
  if negb (kv_ValueType kv =? GGUFMetadataValueTypeInt64)
  then Panicked (PanicInvalidType (kv_ValueType kv))
  else match kv_Value kv with
       | AInt64 v => Ok v
       | _ => Panicked PanicTypeAssertion
       end.

(** [func (kv GGUFMetadataKV) ValueFloat64() float64] *)
Definition ValueFloat64 (kv : GGUFMetadataKV) : Result Z :=
  if negb (kv_ValueType kv =? GGUFMetadataValueTypeFloat64)
  then Panicked (PanicInvalidType (kv_ValueType kv))
  else match kv_Value kv with
       | AFloat64 v => Ok v
       | _ => Panicked PanicTypeAssertion
       end.

(** [func ValueNumeric[T constraints.Integer | constraints.Float](kv GGUFMetadataKV) T];
    each case asserts the dynamic type written in the source. *)
Definition ValueNumeric {T : Type} `{Numeric T} (kv : GGUFMetadataKV) : Result T :=
  let vt := kv_ValueType kv in
  if vt =? GGUFMetadataValueTypeUint8 then
    match kv_Value kv with AUint8 v => Ok (cast_int v) | _ => Panicked PanicTypeAssertion end
  else if vt =? GGUFMetadataValueTypeInt8 then
    match kv_Value kv with AInt8 v => Ok (cast_int v) | _ => Panicked PanicTypeAssertion end
  else if vt =? GGUFMetadataValueTypeUint16 then
    match kv_Value kv with AInt16 v => Ok (cast_int v) | _ => Panicked PanicTypeAssertion end
  else if vt =? GGUFMetadataValueTypeInt16 then
    match kv_Value kv with AInt16 v => Ok (cast_int v) | _ => Panicked PanicTypeAssertion end
  else if vt =? GGUFMetadataValueTypeUint32 then
    match kv_Value kv with AUint32 v => Ok (cast_int v) | _ => Panicked PanicTypeAssertion end
  else if vt =? GGUFMetadataValueTypeInt32 then
    match kv_Value kv with AInt32 v => Ok (cast_int v) | _ => Panicked PanicTypeAssertion end
  else if vt =? GGUFMetadataValueTypeFloat32 then
    match kv_Value kv with AFloat32 v => Ok (cast_float32 v) | _ => Panicked PanicTypeAssertion end
  else if vt =? GGUFMetadataValueTypeUint64 then
    match kv_Value kv with AUint64 v => Ok (cast_int v) | _ => Panicked PanicTypeAssertion end
  else if vt =? GGUFMetadataValueTypeInt64 then
    match kv_Value kv with AInt64 v => Ok (cast_int v) | _ => Panicked PanicTypeAssertion end
  else if vt =? GGUFMetadataValueTypeFloat64 then
    match kv_Value kv with AFloat64 v => Ok (cast_float64 v) | _ => Panicked PanicTypeAssertion end
  else Panicked (PanicInvalidType vt).

(** [func (kvs GGUFMetadataKVs) Get(key string)] *)
Fixpoint Get (kvs : GGUFMetadataKVs) (key : string) : option GGUFMetadataKV :=
  match kvs with
  | [] => None
  | kv :: kvs' => if String.eqb (kv_Key kv) key then Some kv else Get kvs' key
  end.

(** [func (kvs GGUFMetadataKVs) Search(keyRegex *regexp.Regexp)]; the
    regular expression is taken as its [MatchString]. *)
Definition Search (kvs : GGUFMetadataKVs) (MatchString : string -> bool) : GGUFMetadataKVs :=
  List.filter (fun kv => MatchString (kv_Key kv)) kvs.

(** The loop of [Index]: [ks] is the set built from [keys]; the loop
    leaves as soon as [found == len(ks)]. *)
Fixpoint Index_loop (ks : gset string) (kvs : GGUFMetadataKVs)
    (values : gmap string GGUFMetadataKV) (found : Z)
  : gmap string GGUFMetadataKV * Z :=
  match kvs with
  | [] => (values, found)
  | kv :: kvs' =>
      let '(values, found) :=
        if decide (kv_Key kv ∈ ks)
        then (<[ kv_Key kv := kv ]> values, found + 1)
        else (values, found) in
      if found =? Z.of_nat (size ks) then (values, found)
      else Index_loop ks kvs' values found
  end.

(** [func (kvs GGUFMetadataKVs) Index(keys []string)] *)
Definition Index (kvs : GGUFMetadataKVs) (keys : list string)
  : gmap string GGUFMetadataKV * Z :=
  Index_loop (list_to_set keys) kvs ∅ 0.

(** The value the decoder stores for a tag: the dynamic type produced
    by the [Read*] method that [ReadValue] selects. *)
Definition stored (vt : Z) (x : any) : Prop :=
  match x with
  | ANil => False
  | AUint8 _ => vt = GGUFMetadataValueTypeUint8
  | AInt8 _ => vt = GGUFMetadataValueTypeInt8
  | AUint16 _ => vt = GGUFMetadataValueTypeUint16
  | AInt16 _ => vt = GGUFMetadataValueTypeInt16
  | AUint32 _ => vt = GGUFMetadataValueTypeUint32
  | AInt32 _ => vt = GGUFMetadataValueTypeInt32
  | AFloat32 _ => vt = GGUFMetadataValueTypeFloat32
  | ABool _ => vt = GGUFMetadataValueTypeBool
  | AString _ => vt = GGUFMetadataValueTypeString
  | AArray _ => vt = GGUFMetadataValueTypeArray
  | AUint64 _ => vt = GGUFMetadataValueTypeUint64
  | AInt64 _ => vt = GGUFMetadataValueTypeInt64
  | AFloat64 _ => vt = GGUFMetadataValueTypeFloat64
  end.

Definition numeric_tag (vt : Z) : bool :=
  (vt =? GGUFMetadataValueTypeUint8) || (vt =? GGUFMetadataValueTypeInt8)
  || (vt =? GGUFMetadataValueTypeUint16) || (vt =? GGUFMetadataValueTypeInt16)
  || (vt =? GGUFMetadataValueTypeUint32) || (vt =? GGUFMetadataValueTypeInt32)
  || (vt =? GGUFMetadataValueTypeFloat32) || (vt =? GGUFMetadataValueTypeUint64)
  || (vt =? GGUFMetadataValueTypeInt64) || (vt =? GGUFMetadataValueTypeFloat64).

(** The cast [T(x)] of a stored numeric value. *)
Definition cast_any {T : Type} `{Numeric T} (x : any) : option T :=
  match x with
  | AUint8 v | AInt8 v | AUint16 v | AInt16 v | AUint32 v | AInt32 v
  | AUint64 v | AInt64 v => Some (cast_int v)
  | AFloat32 b => Some (cast_float32 b)
  | AFloat64 b => Some (cast_float64 b)
  | _ => None
  end.

End MetadataKV.

Module ArrayValue.

(** [v := make([]T, av.Len); for i := uint64(0); i < av.Len; i++ { v[i] = conv(av.Array[i]) }] *)
Definition collect {T : Type} (av : GGUFMetadataKVArrayValue) (conv : any -> Result T)
  : Result (list T) :=
  for_ 0 (av_Len av)
    (fun i v => x <-! index (av_Array av) i; t <-! conv x; Ok (v ++ [t]))
    [].

(** [func (av GGUFMetadataKVArrayValue) ValuesUint8() []uint8] *)
Definition ValuesUint8 (av : GGUFMetadataKVArrayValue) : Result (list Z) :=
  if negb (av_Type av =? GGUFMetadataValueTypeUint8)
  then Panicked (PanicInvalidType (av_Type av))
  else collect av (fun x => match x with
                            | AUint8 v => Ok v
                            | _ => Panicked PanicTypeAssertion
                            end).

(** [func (av GGUFMetadataKVArrayValue) ValuesInt8() []int8] *)
Definition ValuesInt8 (av : GGUFMetadataKVArrayValue) : Result (list Z) :=
  if negb (av_Type av =? GGUFMetadataValueTypeInt8)
  then Panicked (PanicInvalidType (av_Type av))
  else collect av (fun x => match x with
                            | AInt8 v => Ok v
                            | _ => Panicked PanicTypeAssertion
                            end).

(** [func (av GGUFMetadataKVArrayValue) ValuesUint16() []uint16] *)
Definition ValuesUint16 (av : GGUFMetadataKVArrayValue) : Result (list Z) :=
  if negb (av_Type av =? GGUFMetadataValueTypeUint16)
  then Panicked (PanicInvalidType (av_Type av))
  else collect av (fun x => match x with
                            | AUint16 v => Ok v
                            | _ => Panicked PanicTypeAssertion
                            end).

(** [func (av GGUFMetadataKVArrayValue) ValuesInt16() []int16] *)
Definition ValuesInt16 (av : GGUFMetadataKVArrayValue) : Result (list Z) :=
  if negb (av_Type av =? GGUFMetadataValueTypeInt16)
  then Panicked (PanicInvalidType (av_Type av))
  else collect av (fun x => match x with
                            | AInt16 v => Ok v
                            | _ => Panicked PanicTypeAssertion
                            end).

(** [func (av GGUFMetadataKVArrayValue) ValuesUint32() []uint32] *)
Definition ValuesUint32 (av : GGUFMetadataKVArrayValue) : Result (list Z) :=
  if negb (av_Type av =? GGUFMetadataValueTypeUint32)
  then Panicked (PanicInvalidType (av_Type av))
  else collect av (fun x => match x with
                            | AUint32 v => Ok v
                            | _ => Panicked PanicTypeAssertion
                            end).

(** [func (av GGUFMetadataKVArrayValue) ValuesInt32() []int32] *)
Definition ValuesInt32 (av : GGUFMetadataKVArrayValue) : Result (list Z) :=
  if negb (av_Type av =? GGUFMetadataValueTypeInt32)
  then Panicked (PanicInvalidType (av_Type av))
  else collect av (fun x => match x with
                            | AInt32 v => Ok v
                            | _ => Panicked PanicTypeAssertion
                            end).

(** [func (av GGUFMetadataKVArrayValue) ValuesFloat32() []float32] *)
Definition ValuesFloat32 (av : GGUFMetadataKVArrayValue) : Result (list Z) :=
  if negb (av_Type av =? GGUFMetadataValueTypeFloat32)
  then Panicked (PanicInvalidType (av_Type av))
  else collect av (fun x => match x with
                            | AFloat32 v => Ok v
                            | _ => Panicked PanicTypeAssertion
                            end).

(** [func (av GGUFMetadataKVArrayValue) ValuesBool() []bool] *)
Definition ValuesBool (av : GGUFMetadataKVArrayValue) : Result (list bool) :=
  if negb (av_Type av =? GGUFMetadataValueTypeBool)
  then Panicked (PanicInvalidType (av_Type av))
  else collect av (fun x => match x with
                            | ABool v => Ok v
                            | _ => Panicked PanicTypeAssertion
                            end).

(** [func (av GGUFMetadataKVArrayValue) ValuesString() []string] *)
Definition ValuesString (av : GGUFMetadataKVArrayValue) : Result (list string) :=
  if negb (av_Type av =? GGUFMetadataValueTypeString)
  then Panicked (PanicInvalidType (av_Type av))
  else collect av (fun x => match x with
                            | AString v => Ok v
                            | _ => Panicked PanicTypeAssertion
                            end).

(** [func (av GGUFMetadataKVArrayValue) ValuesArray() []GGUFMetadataKVArrayValue] *)
Definition ValuesArray (av : GGUFMetadataKVArrayValue) : Result (list GGUFMetadataKVArrayValue) :=
  if negb (av_Type av =? GGUFMetadataValueTypeArray)
  then Panicked (PanicInvalidType (av_Type av))
  else collect av (fun x => match x with
                            | AArray v => Ok v
                            | _ => Panicked PanicTypeAssertion
                            end).

(** [func (av GGUFMetadataKVArrayValue) ValuesUint64() []uint64] *)
Definition ValuesUint64 (av : GGUFMetadataKVArrayValue) : Result (list Z) :=
  if negb (av_Type av =? GGUFMetadataValueTypeUint64)
  then Panicked (PanicInvalidType (av_Type av))
  else collect av (fun x => match x with
                            | AUint64 v => Ok v
                            | _ => Panicked PanicTypeAssertion
                            end).

(** [func (av GGUFMetadataKVArrayValue) ValuesInt64() []int64] *)
Definition ValuesInt64 (av : GGUFMetadataKVArrayValue) : Result (list Z) :=
  if negb (av_Type av =? GGUFMetadataValueTypeInt64)
  then Panicked (PanicInvalidType (av_Type av))
  else collect av (fun x => match x with
                            | AInt64 v => Ok v
                            | _ => Panicked PanicTypeAssertion
                            end).

(** [func (av GGUFMetadataKVArrayValue) ValuesFloat64() []float64] *)
Definition ValuesFloat64 (av : GGUFMetadataKVArrayValue) : Result (list Z) :=
  if negb (av_Type av =? GGUFMetadataValueTypeFloat64)
  then Panicked (PanicInvalidType (av_Type av))
  else collect av (fun x => match x with
                            | AFloat64 v => Ok v
                            | _ => Panicked PanicTypeAssertion
                            end).

(** [func ValuesNumeric[T constraints.Integer | constraints.Float](av GGUFMetadataKVArrayValue) []T];
    the [switch] on the item type sits in the loop, and the item is
    indexed inside the case taken. *)
Definition ValuesNumeric {T : Type} `{Numeric T} (av : GGUFMetadataKVArrayValue)
  : Result (list T) :=
  let ty := av_Type av in
  let item (i : Z) : Result any := index (av_Array av) i in
  for_ 0 (av_Len av)
    (fun i v =>
       t <-! (if ty =? GGUFMetadataValueTypeUint8 then
                x <-! item i;
                match x with AUint8 v => Ok (cast_int v) | _ => Panicked PanicTypeAssertion end
              else if ty =? GGUFMetadataValueTypeInt8 then
                x <-! item i;
                match x with AInt8 v => Ok (cast_int v) | _ => Panicked PanicTypeAssertion end
              else if ty =? GGUFMetadataValueTypeUint16 then
                x <-! item i;
                match x with AUint16 v => Ok (cast_int v) | _ => Panicked PanicTypeAssertion end
              else if ty =? GGUFMetadataValueTypeInt16 then
                x <-! item i;
                match x with AInt16 v => Ok (cast_int v) | _ => Panicked PanicTypeAssertion end
              else if ty =? GGUFMetadataValueTypeUint32 then
                x <-! item i;
                match x with AUint32 v => Ok (cast_int v) | _ => Panicked PanicTypeAssertion end
              else if ty =? GGUFMetadataValueTypeInt32 then
                x <-! item i;
                match x with AInt32 v => Ok (cast_int v) | _ => Panicked PanicTypeAssertion end
              else if ty =? GGUFMetadataValueTypeFloat32 then
                x <-! item i;
                match x with AFloat32 v => Ok (cast_float32 v) | _ => Panicked PanicTypeAssertion end
              else if ty =? GGUFMetadataValueTypeUint64 then
                x <-! item i;
                match x with AUint64 v => Ok (cast_int v) | _ => Panicked PanicTypeAssertion end
              else if ty =? GGUFMetadataValueTypeInt64 then
                x <-! item i;
                match x with AInt64 v => Ok (cast_int v) | _ => Panicked PanicTypeAssertion end
              else if ty =? GGUFMetadataValueTypeFloat64 then
                x <-! item i;
                match x with AFloat64 v => Ok (cast_float64 v) | _ => Panicked PanicTypeAssertion end
              else Panicked (PanicInvalidType ty));
       Ok (v ++ [t]))
    [].

End ArrayValue.

(** ** The byte source

    [io.ReadSeeker] over a file of known content: the content and a
    cursor.  [ParseGGUFFile] hands in an [*os.File] or, for memory maps
    and remote files, an [*io.SectionReader]; the two differ on a read
    into an empty buffer at the end of the content, which the section
    reader answers with [io.EOF]. *)

Inductive ByteOrder := LittleEndian | BigEndian.

Record ReadSeeker := {
  content : list byte;
  section_reader : bool
}.

(** A computation on the cursor. *)
Definition M (A : Type) : Type := Z -> Result (A * Z).

Definition mret {A} (a : A) : M A := fun pos => Ok (a, pos).
Definition mbind {A B} (m : M A) (k : A -> M B) : M B :=
  fun pos => match m pos with
             | Ok (a, pos') => k a pos'
             | Err e => Err e
             | Panicked p => Panicked p
             | OutOfFuel => OutOfFuel
             end.
Definition mfail {A} (e : Error) : M A := fun _ => Err e.
Definition mpanic {A} (p : PanicValue) : M A := fun _ => Panicked p.

Notation "x <- m ;; k" := (mbind m (fun x => k))
  (at level 100, m at next level, right associativity, only parsing).

(** [fmt.Errorf("ctx: %w", err)] on the error path. *)
Definition wrapping {A} (ctx : string) (m : M A) : M A :=
  fun pos => match m pos with
             | Err e => Err (Wrapped ctx e)
             | r => r
             end.

Definition wrapping_at {A} (ctx : string) (i : Z) (m : M A) : M A :=
  fun pos => match m pos with
             | Err e => Err (WrappedAt ctx i e)
             | r => r
             end.

(** [for i := lo; i < hi; i++] around a body that moves the cursor. *)
Definition forM {A} (lo hi : Z) (body : Z -> A -> M A) (a : A) : M A :=
  fun pos => for_ lo hi (fun i s => body i (fst s) (snd s)) (a, pos).

Definition file_size (f : ReadSeeker) : Z := Z.of_nat (length (content f)).

(** The bytes [b[pos : pos+n]] of the content. *)
Definition slice (f : ReadSeeker) (pos n : Z) : list byte :=
  firstn (Z.to_nat n) (skipn (Z.to_nat pos) (content f)).

(** [io.ReadFull(f, buf)] with [len(buf) = n > 0], as [binary.Read] uses it. *)
Definition ReadFull (f : ReadSeeker) (n : Z) : M (list byte) :=
  fun pos =>
    if file_size f <=? pos then Err EOF
    else if file_size f <? pos + n then Err ErrUnexpectedEOF
    else Ok (slice f pos n, pos + n).

(** [f.Read(b)] with [len(b) = n]: the bytes read, at most [n]. *)
Definition Read (f : ReadSeeker) (n : Z) : M (list byte) :=
  fun pos =>
    if (n =? 0) && negb (section_reader f && (file_size f <=? pos)) then Ok ([], pos)
    else if file_size f <=? pos then Err EOF
    else let k := Z.min n (file_size f - pos) in
         Ok (slice f pos k, pos + k).

(** [f.Seek(off, io.SeekCurrent)] *)
Definition Seek (f : ReadSeeker) (off : Z) : M Z :=
  fun pos =>
    let np := pos + off in
    if (np <? 0) || (2 ^ 63 <=? np) then Err ErrSeekNegative
    else Ok (np, np).

(** A computation is [fine] when, from a cursor at or after the start
    of the file, it neither runs out of fuel nor leaves the cursor
    negative, and [good] when moreover it never moves the cursor back. *)
Definition good {A} (m : M A) : Prop :=
  forall pos, m pos <> OutOfFuel /\ forall a p', m pos = Ok (a, p') -> pos <= p'.

Definition fine {A} (m : M A) : Prop :=
  forall pos, 0 <= pos ->
    m pos <> OutOfFuel /\ forall a p', m pos = Ok (a, p') -> 0 <= p'.

(** Fixed-width integers in the two byte orders. *)
Definition byte_val (b : byte) : Z := Z.of_N (Byte.to_N b).

Fixpoint le_val (bs : list byte) : Z :=
  match bs with
  | [] => 0
  | b :: bs' => byte_val b + 256 * le_val bs'
  end.

Definition decode (bo : ByteOrder) (bs : list byte) : Z :=
  match bo with
  | LittleEndian => le_val bs
  | BigEndian => le_val (rev bs)
  end.

(** [binary.Read(f, bo, &v)] for an unsigned [v] of [n] bytes. *)
Definition binary_Read (f : ReadSeeker) (bo : ByteOrder) (n : Z) : M Z :=
  bs <- ReadFull f n;; mret (decode bo bs).

(** ** [bytes.TrimSpace]

    White space is the six ASCII space bytes and the UTF-8 encodings of
    the other code points of [unicode.IsSpace] (U+0085, U+00A0, U+1680,
    U+2000 to U+200A, U+2028, U+2029, U+202F, U+205F, U+3000); a byte
    that does not decode is not white space.  The result is the input
    without its leading and then its trailing white-space runes. *)

Definition asciiSpace (c : Z) : bool :=
  (c =? 9) || (c =? 10) || (c =? 11) || (c =? 12) || (c =? 13) || (c =? 32).

Definition space_rune2 (c d : Z) : bool :=
  (c =? 194) && ((d =? 133) || (d =? 160)).

Definition space_rune3 (c d e : Z) : bool :=
  ((c =? 225) && (d =? 154) && (e =? 128))
  || ((c =? 226) && (d =? 128)
      && (((128 <=? e) && (e <=? 138)) || (e =? 168) || (e =? 169) || (e =? 175)))
  || ((c =? 226) && (d =? 129) && (e =? 159))
  || ((c =? 227) && (d =? 128) && (e =? 128)).

(** Width of the white-space rune at the head of [bs], 0 when none. *)
Definition space_width (bs : list byte) : nat :=
  match bs with
  | c :: rest =>
      if asciiSpace (byte_val c) then 1%nat
      else match rest with
           | d :: rest' =>
               if space_rune2 (byte_val c) (byte_val d) then 2%nat
               else match rest' with
                    | e :: _ =>
                        if space_rune3 (byte_val c) (byte_val d) (byte_val e)
                        then 3%nat else 0%nat
                    | [] => 0%nat
                    end
           | [] => 0%nat
           end
  | [] => 0%nat
  end.

(** The same for the rune at the end of a slice, given back to front. *)
Definition space_width_last (rbs : list byte) : nat :=
  match rbs with
  | c :: rest =>
      if asciiSpace (byte_val c) then 1%nat
      else match rest with
           | d :: rest' =>
               if space_rune2 (byte_val d) (byte_val c) then 2%nat
               else match rest' with
                    | e :: _ =>
                        if space_rune3 (byte_val e) (byte_val d) (byte_val c)
                        then 3%nat else 0%nat
                    | [] => 0%nat
                    end
           | [] => 0%nat
           end
  | [] => 0%nat
  end.

Fixpoint trim_with (width : list byte -> nat) (fuel : nat) (bs : list byte) : list byte :=
  match fuel with
  | O => bs
  | S fuel' =>
      match width bs with
      | O => bs
      | w => trim_with width fuel' (skipn w bs)
      end
  end.

Definition TrimSpace (bs : list byte) : list byte :=
  let l := trim_with space_width (length bs) bs in
  rev (trim_with space_width_last (length l) (rev l)).

(** Modelled from the spec: [bytex.GetBytes] of [util/bytex], which is not
    part of the sources at hand; the length-prefixed string read takes a
    buffer of exactly the announced length, here zero-filled. *)
Definition GetBytes (l : Z) : list byte := repeat x00 (Z.to_nat l).

(** ** The primitive reader *)

Definition GGUFVersionV1 : Z := 1.
Definition GGUFVersionV2 : Z := 2.
Definition GGUFVersionV3 : Z := 3.

Record _GGUFReadOptions := {
  SkipLargeMetadata : bool
}.

Record _GGUFReader := {
  rd_v : Z;                    (* GGUFVersion *)
  rd_o : _GGUFReadOptions;
  rd_f : ReadSeeker;
  rd_bo : ByteOrder
}.

Module Reader.

Section WithReader.
Variable rd : _GGUFReader.

Definition ReadUint8 : M Z :=
  wrapping "read uint8" (binary_Read (rd_f rd) (rd_bo rd) 1).

Definition ReadInt8 : M Z :=
  wrapping "read int8" (v <- binary_Read (rd_f rd) (rd_bo rd) 1;; mret (int8 v)).

Definition ReadUint16 : M Z :=
  wrapping "read uint16" (binary_Read (rd_f rd) (rd_bo rd) 2).

Definition ReadInt16 : M Z :=
  wrapping "read int16" (v <- binary_Read (rd_f rd) (rd_bo rd) 2;; mret (int16 v)).

Definition ReadUint32 : M Z :=
  wrapping "read uint32" (binary_Read (rd_f rd) (rd_bo rd) 4).

Definition ReadUint64FromUint32 : M Z := ReadUint32.

Definition ReadInt32 : M Z :=
  wrapping "read int32" (v <- binary_Read (rd_f rd) (rd_bo rd) 4;; mret (int32 v)).

Definition ReadFloat32 : M Z :=
  wrapping "read float32" (binary_Read (rd_f rd) (rd_bo rd) 4).

Definition ReadBool : M bool :=
  b <- wrapping "read bool" ReadUint8;; mret (negb (b =? 0)).

Definition ReadUint64 : M Z :=
  wrapping "read uint64" (binary_Read (rd_f rd) (rd_bo rd) 8).

Definition ReadInt64 : M Z :=
  wrapping "read int64" (v <- binary_Read (rd_f rd) (rd_bo rd) 8;; mret (int64 v)).

Definition ReadFloat64 : M Z :=
  wrapping "read float64" (binary_Read (rd_f rd) (rd_bo rd) 8).

(** A count or length: 32 bits up to version 1, 64 bits afterwards. *)
Definition ReadLength : M Z :=
  if rd_v rd <=? GGUFVersionV1 then ReadUint64FromUint32 else ReadUint64.

Definition ReadString : M string :=
  l <- wrapping "read string length" ReadLength;;
  let b := GetBytes l in
  got <- wrapping "read string" (Read (rd_f rd) (Z.of_nat (length b)));;
  let b := (got ++ skipn (length got) b)%list in
  mret (string_of_list_byte (TrimSpace b)).

Definition SkipReadingString : M unit :=
  l <- wrapping "read string length" ReadLength;;
  _ <- wrapping "seek string" (Seek (rd_f rd) (int64 l));;
  mret tt.

(** [ReadArray], with the method it calls for an item passed in. *)
Definition ReadArray_with (ReadValue : Z -> M any) : M GGUFMetadataKVArrayValue :=
  StartOffset <- wrapping "read array start" (Seek (rd_f rd) 0);;
  Type_ <- wrapping "read array item type" (binary_Read (rd_f rd) (rd_bo rd) 4);;
  Len <- wrapping "read array length" ReadLength;;
  itemStart <- wrapping "seek array item start" (Seek (rd_f rd) 0);;
  if negb (SkipLargeMetadata (rd_o rd)) then
    Array <- forM 0 Len
               (fun i arr =>
                  x <- wrapping_at "read array item" i (ReadValue Type_);;
                  mret (arr ++ [x]))
               [];;
    itemEnd <- wrapping "seek array item end" (Seek (rd_f rd) 0);;
    mret {| av_Type := Type_; av_Len := Len; av_Array := Array;
            av_StartOffset := StartOffset; av_Size := itemEnd - itemStart |}
  else
    _ <- (if (Type_ =? GGUFMetadataValueTypeUint8)
             || (Type_ =? GGUFMetadataValueTypeInt8)
             || (Type_ =? GGUFMetadataValueTypeBool) then
            wrapping "seek array end" (Seek (rd_f rd) (int64 Len))
          else if (Type_ =? GGUFMetadataValueTypeUint16)
                  || (Type_ =? GGUFMetadataValueTypeInt16) then
            wrapping "seek array end" (Seek (rd_f rd) (int64 (int64 Len * 2)))
          else if (Type_ =? GGUFMetadataValueTypeUint32)
                  || (Type_ =? GGUFMetadataValueTypeInt32)
                  || (Type_ =? GGUFMetadataValueTypeFloat32) then
            wrapping "seek array end" (Seek (rd_f rd) (int64 (int64 Len * 4)))
          else if (Type_ =? GGUFMetadataValueTypeUint64)
                  || (Type_ =? GGUFMetadataValueTypeInt64)
                  || (Type_ =? GGUFMetadataValueTypeFloat64) then
            wrapping "seek array end" (Seek (rd_f rd) (int64 (int64 Len * 8)))
          else if Type_ =? GGUFMetadataValueTypeString then
            _ <- forM 0 Len
                   (fun i _ => wrapping_at "seek array[string]" i SkipReadingString)
                   tt;;
            mret 0
          else mpanic (PanicInvalidType Type_));;
    itemEnd <- wrapping "seek array item end" (Seek (rd_f rd) 0);;
    mret {| av_Type := Type_; av_Len := Len; av_Array := [];
            av_StartOffset := StartOffset; av_Size := itemEnd - itemStart |}.

(** [ReadValue]; [fuel] bounds the nesting of arrays in arrays. *)
Fixpoint ReadValue (fuel : nat) (vt : Z) : M any :=
  match fuel with
  | O => fun _ => OutOfFuel
  | S fuel' =>
      if _GGUFMetadataValueTypeCount <=? vt then mfail (ErrInvalidType vt)
      else if vt =? GGUFMetadataValueTypeUint8 then v <- ReadUint8;; mret (AUint8 v)
      else if vt =? GGUFMetadataValueTypeInt8 then v <- ReadInt8;; mret (AInt8 v)
      else if vt =? GGUFMetadataValueTypeUint16 then v <- ReadUint16;; mret (AUint16 v)
      else if vt =? GGUFMetadataValueTypeInt16 then v <- ReadInt16;; mret (AInt16 v)
      else if vt =? GGUFMetadataValueTypeUint32 then v <- ReadUint32;; mret (AUint32 v)
      else if vt =? GGUFMetadataValueTypeInt32 then v <- ReadInt32;; mret (AInt32 v)
      else if vt =? GGUFMetadataValueTypeFloat32 then v <- ReadFloat32;; mret (AFloat32 v)
      else if vt =? GGUFMetadataValueTypeBool then v <- ReadBool;; mret (ABool v)
      else if vt =? GGUFMetadataValueTypeString then v <- ReadString;; mret (AString v)
      else if vt =? GGUFMetadataValueTypeArray then
        v <- ReadArray_with (ReadValue fuel');; mret (AArray v)
      else if vt =? GGUFMetadataValueTypeUint64 then v <- ReadUint64;; mret (AUint64 v)
      else if vt =? GGUFMetadataValueTypeInt64 then v <- ReadInt64;; mret (AInt64 v)
      else if vt =? GGUFMetadataValueTypeFloat64 then v <- ReadFloat64;; mret (AFloat64 v)
      else mpanic (PanicInvalidType vt)
  end.

(** [func (rd _GGUFReader) ReadArray()] *)
Definition ReadArray (fuel : nat) : M GGUFMetadataKVArrayValue :=
  ReadArray_with (ReadValue fuel).

(** Arrays nest at most once per eight bytes of content. *)
Definition depth : nat := S (length (content (rd_f rd))).

(** [func (rd _GGUFMetadataReader) Read()] *)
Definition MetadataReader_Read : M GGUFMetadataKV :=
  Key <- wrapping "read key" ReadString;;
  vt <- wrapping "read value type" ReadUint32;;
  if _GGUFMetadataValueTypeCount <=? vt then mfail (ErrInvalidValueType vt)
  else
    Value <- wrapping ("read " ++ Key ++ " value") (ReadValue depth vt);;
    mret {| kv_Key := Key; kv_ValueType := vt; kv_Value := Value |}.

(** [func (rd _GGUFTensorInfoReader) Read()] *)
Definition TensorInfoReader_Read `{GGMLDecls} : M GGUFTensorInfo :=
  StartOffset <- wrapping "seek tensor info start" (Seek (rd_f rd) 0);;
  Name <- wrapping "read name" ReadString;;
  NDimensions <- wrapping "read n dimensions" ReadUint32;;
  Dimensions <- forM 0 NDimensions
                  (fun i dims =>
                     d <- wrapping_at "read dimension" i ReadLength;;
                     mret (dims ++ [d]))
                  [];;
  v <- wrapping "read type" ReadUint32;;
  if _GGMLTypeCount <=? v then mfail (ErrInvalidType v)
  else
    Offset <- wrapping "read offset" ReadUint64;;
    mret {| ti_Name := Name; ti_NDimensions := NDimensions;
            ti_Dimensions := Dimensions; ti_Type := v; ti_Offset := Offset;
            ti_StartOffset := StartOffset |}.

End WithReader.
End Reader.

(** ** The file decoder *)

Definition GGUFMagicGGML : Z := 0x67676d6c.
Definition GGUFMagicGGMF : Z := 0x67676d66.
Definition GGUFMagicGGJT : Z := 0x67676a74.
Definition GGUFMagicGGUFLe : Z := 0x46554747.
Definition GGUFMagicGGUFBe : Z := 0x47475546.

Record GGUFHeader := {
  Magic : Z;
  Version : Z;
  TensorCount : Z;
  MetadataKVCount : Z;
  MetadataKV : GGUFMetadataKVs
}.

(** [GGUFFile]; the quotient [ModelBitsPerWeight] is a [float64] derived
    from [ModelSize] and [ModelParameters] and is not carried. *)
Record GGUFFile := {
  Header : GGUFHeader;
  TensorInfos : GGUFTensorInfos;
  Padding : Z;                   (* int64 *)
  TensorDataStartOffset : Z;     (* int64 *)
  ModelSize : Z;                 (* uint64 *)
  ModelParameters : Z            (* uint64 *)
}.

Definition lift {A} (r : Result A) : M A :=
  fun pos => match r with
             | Ok a => Ok (a, pos)
             | Err e => Err e
             | Panicked p => Panicked p
             | OutOfFuel => OutOfFuel
             end.

(** The value of a finished computation. *)
Definition result_of {A} (r : Result (A * Z)) : Result A :=
  match r with
  | Ok (a, _) => Ok a
  | Err e => Err e
  | Panicked p => Panicked p
  | OutOfFuel => OutOfFuel
  end.

Module Parse.

(** The alignment block: 32 unless [general.alignment] is present. *)
Definition alignment (kvs : GGUFMetadataKVs) : Result Z :=
  match MetadataKV.Get kvs "general.alignment" with
  | Some v => MetadataKV.ValueUint32 v
  | None => Ok 32
  end.

(** [int64(ag) - (pds % int64(ag))] *)
Definition padding (ag pds : Z) : Result Z :=
  if ag =? 0 then Panicked PanicDivideByZero
  else Ok (int64 (ag - Z.rem pds ag)).

Section WithGGML.
Context `{GGMLDecls}.

(** [parseGGUFFile] from the version field on, the byte order chosen. *)
Definition after_magic (magic : Z) (bo : ByteOrder)
    (s : Z) (f : ReadSeeker) (o : _GGUFReadOptions) : M GGUFFile :=
  version <- wrapping "read version" (binary_Read f bo 4);;
  let rd := {| rd_v := version; rd_o := o; rd_f := f; rd_bo := bo |} in
  tensorCount <- wrapping "read tensor count" (Reader.ReadLength rd);;
  metadataKVCount <- wrapping "read metadata kv count" (Reader.ReadLength rd);;
  kvs <- forM 0 metadataKVCount
           (fun i kvs =>
              kv <- wrapping_at "read metadata kv" i (Reader.MetadataReader_Read rd);;
              mret (kvs ++ [kv]))
           [];;
  tis <- forM 0 tensorCount
           (fun i tis =>
              ti <- wrapping_at "read tensor info" i (Reader.TensorInfoReader_Read rd);;
              mret (tis ++ [ti]))
           [];;
  pds <- wrapping "seek padding start" (Seek f 0);;
  ag <- lift (alignment kvs);;
  pad <- lift (padding ag pds);;
  let start := int64 (pds + pad) in
  params <- lift (TensorInfos.Elements tis);;
  mret {| Header := {| Magic := magic; Version := version;
                       TensorCount := tensorCount;
                       MetadataKVCount := metadataKVCount;
                       MetadataKV := kvs |};
          TensorInfos := tis;
          Padding := pad;
          TensorDataStartOffset := start;
          ModelSize := uint64 (s - start);
          ModelParameters := params |}.

(** The [switch] on the magic: the byte order to go on with. *)
Definition classify (magic : Z) : Result ByteOrder :=
  if (magic =? GGUFMagicGGML) || (magic =? GGUFMagicGGMF) || (magic =? GGUFMagicGGJT)
  then Err (ErrUnsupportedFormat magic)
  else if magic =? GGUFMagicGGUFLe then Ok LittleEndian
  else if magic =? GGUFMagicGGUFBe then Ok BigEndian
  else Err ErrGGUFFileInvalidFormat.

(** [func parseGGUFFile(s int64, f io.ReadSeeker, o _GGUFReadOptions)],
    on a source positioned at its start. *)
Definition parseGGUFFile (s : Z) (f : ReadSeeker) (o : _GGUFReadOptions)
  : Result GGUFFile :=
  result_of
    ((magic <- wrapping "read magic" (binary_Read f LittleEndian 4);;
      bo <- lift (classify magic);;
      after_magic magic bo s f o) 0).
End WithGGML.

End Parse.

(** ** File-type inference *)

Definition GGUFFileTypeAllF32 : Z := 0.
Definition GGUFFileTypeMostlyF16 : Z := 1.
Definition GGUFFileTypeMostlyQ4_0 : Z := 2.
Definition GGUFFileTypeMostlyQ4_1 : Z := 3.
Definition GGUFFileTypeMostlyQ4_1_F16 : Z := 4.
Definition GGUFFileTypeMostlyQ4_2 : Z := 5.
Definition GGUFFileTypeMostlyQ4_3 : Z := 6.
Definition GGUFFileTypeMostlyQ8_0 : Z := 7.
Definition GGUFFileTypeMostlyQ5_0 : Z := 8.
Definition GGUFFileTypeMostlyQ5_1 : Z := 9.
Definition GGUFFileTypeMostlyQ2_K : Z := 10.
Definition GGUFFileTypeMostlyQ3_K : Z := 11.   (* Q3_K/Q3_K_S *)
Definition GGUFFileTypeMostlyQ4_K : Z := 12.   (* Q4_K/Q3_K_M *)
Definition GGUFFileTypeMostlyQ5_K : Z := 13.   (* Q5_K/Q3_K_L *)
Definition GGUFFileTypeMostlyQ6_K : Z := 14.   (* Q6_K/Q4_K_S *)
Definition GGUFFileTypeMostlyIQ2_XXS : Z := 15. (* IQ2_XXS/Q4_K_M *)
Definition GGUFFileTypeMostlyIQ2_XS : Z := 16.  (* IQ2_XS/Q5_K_S *)
Definition GGUFFileTypeMostlyIQ3_XXS : Z := 17. (* IQ3_XXS/Q5_K_M *)
Definition GGUFFileTypeMostlyIQ1_S : Z := 18.   (* IQ1_S/Q6_K *)
Definition GGUFFileTypeMostlyIQ4_NL : Z := 19.
Definition GGUFFileTypeMostlyIQ3_S : Z := 20.
Definition GGUFFileTypeMostlyIQ2_S : Z := 21.
Definition GGUFFileTypeMostlyIQ4_XS : Z := 22.
Definition GGUFFileTypeMostlyIQ1_M : Z := 23.
Definition GGUFFileTypeMostlyBF16 : Z := 24.
Definition _GGUFFileTypeCount : Z := 25.

Module FileType.

(** The counting loop: [cm[t]++] for the tensors named [blk...]. *)
Fixpoint count (tis : GGUFTensorInfos) (cm : gmap Z Z) : gmap Z Z :=
  match tis with
  | [] => cm
  | ti :: tis' =>
      count tis'
        (if String.prefix "blk" (ti_Name ti)
         then <[ ti_Type ti := default 0 (cm !! ti_Type ti) + 1 ]> cm
         else cm)
  end.

(** [cm[t]] *)
Definition occurrences (cm : gmap Z Z) (t : Z) : Z := default 0 (cm !! t).

(** What [sort.Slice] with [cm[ts[i]] > cm[ts[j]]] may leave in [ts]:
    the keys of [cm] in some order in which no later key occurs more
    often than an earlier one.  The order of the keys before sorting is
    that of a map iteration, so keys that occur equally often come out
    in any order. *)
Definition ranked (cm : gmap Z Z) (ts : list Z) : Prop :=
  Permutation ts (map fst (map_to_list cm))
  /\ StronglySorted (fun a b => occurrences cm b <= occurrences cm a) ts.

(** One such order, for running the definitions. *)
Fixpoint insert_ranked (cm : gmap Z Z) (t : Z) (ts : list Z) : list Z :=
  match ts with
  | [] => [t]
  | u :: ts' =>
      if occurrences cm u <? occurrences cm t then t :: ts
      else u :: insert_ranked cm t ts'
  end.

Definition rank (cm : gmap Z Z) : list Z :=
  fold_right (insert_ranked cm) [] (map fst (map_to_list cm)).

Section WithGGML.
Context `{GGMLDecls}.

(** [func (t GGUFFileType) GGMLType() GGMLType] *)
Definition GGMLType (t : Z) : Z :=
  if t =? GGUFFileTypeAllF32 then GGMLTypeF32
  else if t =? GGUFFileTypeMostlyF16 then GGMLTypeF16
  else if t =? GGUFFileTypeMostlyQ4_0 then GGMLTypeQ4_0
  else if t =? GGUFFileTypeMostlyQ4_1 then GGMLTypeQ4_1
  else if t =? GGUFFileTypeMostlyQ4_2 then GGMLTypeQ4_2
  else if t =? GGUFFileTypeMostlyQ4_3 then GGMLTypeQ4_3
  else if t =? GGUFFileTypeMostlyQ8_0 then GGMLTypeQ8_0
  else if t =? GGUFFileTypeMostlyQ5_0 then GGMLTypeQ5_0
  else if t =? GGUFFileTypeMostlyQ5_1 then GGMLTypeQ5_1
  else if t =? GGUFFileTypeMostlyQ2_K then GGMLTypeQ2_K
  else if t =? GGUFFileTypeMostlyQ3_K then GGMLTypeQ3_K
  else if t =? GGUFFileTypeMostlyQ4_K then GGMLTypeQ4_K
  else if t =? GGUFFileTypeMostlyQ5_K then GGMLTypeQ5_K
  else if t =? GGUFFileTypeMostlyQ6_K then GGMLTypeQ6_K
  else if t =? GGUFFileTypeMostlyIQ2_XXS then GGMLTypeIQ2_XXS
  else if t =? GGUFFileTypeMostlyIQ2_XS then GGMLTypeIQ2_XS
  else if t =? GGUFFileTypeMostlyIQ3_XXS then GGMLTypeIQ3_XXS
  else if t =? GGUFFileTypeMostlyIQ1_S then GGMLTypeIQ1_S
  else if t =? GGUFFileTypeMostlyIQ4_NL then GGMLTypeIQ4_NL
  else if t =? GGUFFileTypeMostlyIQ3_S then GGMLTypeIQ3_S
  else if t =? GGUFFileTypeMostlyIQ2_S then GGMLTypeIQ2_S
  else if t =? GGUFFileTypeMostlyIQ4_XS then GGMLTypeIQ4_XS
  else if t =? GGUFFileTypeMostlyIQ1_M then GGMLTypeIQ1_M
  else if t =? GGUFFileTypeMostlyBF16 then GGMLTypeBF16
  else _GGMLTypeCount.

(** [guessFileType] from [if len(ts) == 0] on. *)
Definition from_ranking (ts : list Z) : Result Z :=
  if Z.of_nat (length ts) =? 0 then Ok _GGUFFileTypeCount
  else
    ts0 <-! index ts 0;
    if ts0 =? GGMLTypeF32 then Ok GGUFFileTypeAllF32
    else if ts0 =? GGMLTypeF16 then Ok GGUFFileTypeMostlyF16
    else if ts0 =? GGMLTypeQ4_0 then Ok GGUFFileTypeMostlyQ4_0
    else if ts0 =? GGMLTypeQ4_1 then Ok GGUFFileTypeMostlyQ4_1
    else if ts0 =? GGMLTypeQ4_2 then Ok GGUFFileTypeMostlyQ4_2
    else if ts0 =? GGMLTypeQ4_3 then Ok GGUFFileTypeMostlyQ4_3
    else if ts0 =? GGMLTypeQ5_0 then Ok GGUFFileTypeMostlyQ5_0
    else if ts0 =? GGMLTypeQ5_1 then Ok GGUFFileTypeMostlyQ5_1
    else if ts0 =? GGMLTypeQ8_0 then Ok GGUFFileTypeMostlyQ8_0
    else if ts0 =? GGMLTypeQ2_K then Ok GGUFFileTypeMostlyQ2_K
    else if ts0 =? GGMLTypeQ3_K then
      ts1 <-! index ts 1;
      if ts1 =? GGMLTypeQ4_K then Ok GGUFFileTypeMostlyQ4_K        (* Legacy, Q3_K_M. *)
      else if ts1 =? GGMLTypeQ5_K then Ok GGUFFileTypeMostlyQ5_K   (* Legacy, Q3_K_L. *)
      else Ok GGUFFileTypeMostlyQ3_K                               (* Legacy. Q3_K_S *)
    else if ts0 =? GGMLTypeQ4_K then
      if 2 <? Z.of_nat (length ts) then
        ts2 <-! index ts 2;
        if ts2 =? GGMLTypeQ6_K then Ok GGUFFileTypeMostlyIQ2_XXS   (* Legacy, Q4_K_M. *)
        else Ok GGUFFileTypeMostlyQ6_K                             (* Legacy. Q4_K_S *)
      else Ok GGUFFileTypeMostlyQ6_K
    else if ts0 =? GGMLTypeQ5_K then
      if 2 <? Z.of_nat (length ts) then
        ts2 <-! index ts 2;
        if ts2 =? GGMLTypeQ6_K then Ok GGUFFileTypeMostlyIQ3_XXS   (* Legacy, Q5_K_M. *)
        else Ok GGUFFileTypeMostlyIQ2_XS                           (* Legacy. Q5_K_S *)
      else Ok GGUFFileTypeMostlyIQ2_XS
    else if ts0 =? GGMLTypeQ6_K then Ok GGUFFileTypeMostlyIQ1_S     (* Legacy. Q6_K *)
    else if ts0 =? GGMLTypeIQ2_XXS then Ok GGUFFileTypeMostlyIQ2_XXS
    else if ts0 =? GGMLTypeIQ2_XS then Ok GGUFFileTypeMostlyIQ2_XS
    else if ts0 =? GGMLTypeIQ3_XXS then Ok GGUFFileTypeMostlyIQ3_XXS
    else if ts0 =? GGMLTypeIQ1_S then Ok GGUFFileTypeMostlyIQ1_S
    else if ts0 =? GGMLTypeIQ4_NL then Ok GGUFFileTypeMostlyIQ4_NL
    else if ts0 =? GGMLTypeIQ3_S then Ok GGUFFileTypeMostlyIQ3_S
    else if ts0 =? GGMLTypeIQ2_S then Ok GGUFFileTypeMostlyIQ2_S
    else if ts0 =? GGMLTypeIQ4_XS then Ok GGUFFileTypeMostlyIQ4_XS
    else if ts0 =? GGMLTypeIQ1_M then Ok GGUFFileTypeMostlyIQ1_M
    else if ts0 =? GGMLTypeBF16 then Ok GGUFFileTypeMostlyBF16
    else Ok _GGUFFileTypeCount.

(** [func (gf *GGUFFile) guessFileType() GGUFFileType] for the ranking
    [ts] that the sort produced. *)
Definition guessFileType_ranked (tis : GGUFTensorInfos) (ts : list Z) : Result Z :=
  if Z.of_nat (length tis) =? 0 then Ok _GGUFFileTypeCount
  else from_ranking ts.

(** [r] is a possible outcome of [guessFileType]. *)
Definition guessFileType_outcome (tis : GGUFTensorInfos) (r : Result Z) : Prop :=
  exists ts, ranked (count tis ∅) ts /\ r = guessFileType_ranked tis ts.

(** [guessFileType] with the ranking [rank]. *)
Definition guessFileType (tis : GGUFTensorInfos) : Result Z :=
  guessFileType_ranked tis (rank (count tis ∅)).
End WithGGML.

End FileType.

(** ** An instance of the [ggml.go] declarations

    The numbering of the [ggml_type] enumeration and a few of its traits,
    to run the definitions on concrete inputs. *)

Definition example_Trait (t : Z) : option GGMLTypeTrait :=
  if t =? 0 then Some {| BlockSize := 1; TypeSize := 4 |}            (* F32 *)
  else if t =? 1 then Some {| BlockSize := 1; TypeSize := 2 |}       (* F16 *)
  else if t =? 2 then Some {| BlockSize := 32; TypeSize := 18 |}     (* Q4_0 *)
  else if t =? 12 then Some {| BlockSize := 256; TypeSize := 144 |}  (* Q4_K *)
  else if t =? 14 then Some {| BlockSize := 256; TypeSize := 210 |}  (* Q6_K *)
  else None.

Definition example_distinct : NoDup
    [0; 1; 2; 3; 4; 5; 6; 7; 8; 10; 11; 12; 13; 14; 16; 17; 18; 19; 20; 21; 22; 23; 29; 30] :=
  ltac:(compute_done).

#[local] Instance example_ggml : GGMLDecls := {|
  GGMLTypeF32 := 0; GGMLTypeF16 := 1;
  GGMLTypeQ4_0 := 2; GGMLTypeQ4_1 := 3; GGMLTypeQ4_2 := 4; GGMLTypeQ4_3 := 5;
  GGMLTypeQ5_0 := 6; GGMLTypeQ5_1 := 7; GGMLTypeQ8_0 := 8;
  GGMLTypeQ2_K := 10; GGMLTypeQ3_K := 11; GGMLTypeQ4_K := 12; GGMLTypeQ5_K := 13;
  GGMLTypeQ6_K := 14;
  GGMLTypeIQ2_XXS := 16; GGMLTypeIQ2_XS := 17; GGMLTypeIQ3_XXS := 18;
  GGMLTypeIQ1_S := 19; GGMLTypeIQ4_NL := 20; GGMLTypeIQ3_S := 21; GGMLTypeIQ2_S := 22;
  GGMLTypeIQ4_XS := 23; GGMLTypeIQ1_M := 29; GGMLTypeBF16 := 30;
  _GGMLTypeCount := 31;
  Trait := example_Trait;
  GGMLType_distinct := example_distinct
|}.

(** ** Writing the format

    The inverse direction of the primitive reader, to build inputs. *)

Definition byte_of_Z (z : Z) : byte :=
  match Byte.of_N (Z.to_N (z mod 256)) with
  | Some b => b
  | None => x00
  end.

Fixpoint put_le (n : nat) (v : Z) : list byte :=
  match n with
  | O => []
  | S n' => byte_of_Z v :: put_le n' (v / 256)
  end.

Definition put (bo : ByteOrder) (n : nat) (v : Z) : list byte :=
  match bo with
  | LittleEndian => put_le n v
  | BigEndian => rev (put_le n v)
  end.

(** A count or length field as version [v] lays it out. *)
Definition put_length (v : Z) (bo : ByteOrder) (n : Z) : list byte :=
  if v <=? GGUFVersionV1 then put bo 4 n else put bo 8 n.

Definition put_string (v : Z) (bo : ByteOrder) (s : string) : list byte :=
  put_length v bo (Z.of_nat (String.length s)) ++ list_byte_of_string s.

(** Byte width of a value of a fixed-width type. *)
Definition fixed_width (vt : Z) : option Z :=
  if (vt =? GGUFMetadataValueTypeUint8) || (vt =? GGUFMetadataValueTypeInt8)
     || (vt =? GGUFMetadataValueTypeBool) then Some 1
  else if (vt =? GGUFMetadataValueTypeUint16) || (vt =? GGUFMetadataValueTypeInt16)
  then Some 2
  else if (vt =? GGUFMetadataValueTypeUint32) || (vt =? GGUFMetadataValueTypeInt32)
          || (vt =? GGUFMetadataValueTypeFloat32) then Some 4
  else if (vt =? GGUFMetadataValueTypeUint64) || (vt =? GGUFMetadataValueTypeInt64)
          || (vt =? GGUFMetadataValueTypeFloat64) then Some 8
  else None.

(** A length that the length field of version [v] can hold. *)
Definition fits_length (v : Z) (n : Z) : Prop :=
  0 <= n < (if v <=? GGUFVersionV1 then 2 ^ 32 else 2 ^ 64).





Definition file_of (bs : list byte) : ReadSeeker :=
  {| content := bs; section_reader := false |}.

(** ** Inputs used below *)

(** One block tensor of type Q3_K. *)
Definition tensors_Q3_K_only `{GGMLDecls} : GGUFTensorInfos :=
  [{| ti_Name := "blk.0.attn_q.weight"; ti_NDimensions := 2;
      ti_Dimensions := [4096; 4096]; ti_Type := GGMLTypeQ3_K;
      ti_Offset := 0; ti_StartOffset := 0 |}].

(** Five block tensors: four of type Q4_K and one of type Q6_K. *)
Definition tensors_Q4_K_80_Q6_K_20 `{GGMLDecls} : GGUFTensorInfos :=
  map (fun nt : string * Z =>
         {| ti_Name := fst nt; ti_NDimensions := 2; ti_Dimensions := [256; 4];
            ti_Type := snd nt; ti_Offset := 0; ti_StartOffset := 0 |})
      [("blk.0.attn_q.weight", GGMLTypeQ4_K); ("blk.0.attn_k.weight", GGMLTypeQ4_K);
       ("blk.0.attn_v.weight", GGMLTypeQ6_K); ("blk.0.attn_output.weight", GGMLTypeQ4_K);
       ("blk.0.ffn_up.weight", GGMLTypeQ4_K)].

(** A version 3 file with no metadata and one tensor info
    ([tensor_a], F32, shape [[4]]), whose tensor infos end at offset 64,
    followed by the 16 bytes of the tensor. *)
Definition file_infos_end_aligned : list byte :=
  put LittleEndian 4 GGUFMagicGGUFLe ++ put LittleEndian 4 3
  ++ put LittleEndian 8 1 ++ put LittleEndian 8 0
  ++ put_string 3 LittleEndian "tensor_a" ++ put LittleEndian 4 1 ++ put LittleEndian 8 4
  ++ put LittleEndian 4 0 ++ put LittleEndian 8 0
  ++ repeat x00 16.

(** A version 3 file with no tensors whose only metadata entry is
    [general.alignment], stored with the tag [uint64] and the value 32,
    padded to offset 64. *)
Definition file_alignment_uint64 : list byte :=
  put LittleEndian 4 GGUFMagicGGUFLe ++ put LittleEndian 4 3
  ++ put LittleEndian 8 0 ++ put LittleEndian 8 1
  ++ put_string 3 LittleEndian "general.alignment"
  ++ put LittleEndian 4 GGUFMetadataValueTypeUint64 ++ put LittleEndian 8 32
  ++ repeat x00 3.

(** An array value of version 3 holding one array that holds one
    [uint8]: 25 bytes. *)
Definition bytes_array_of_array : list byte :=
  put LittleEndian 4 GGUFMetadataValueTypeArray ++ put LittleEndian 8 1
  ++ put LittleEndian 4 GGUFMetadataValueTypeUint8 ++ put LittleEndian 8 1 ++ [x07].

Definition reader_v3 (bs : list byte) (skip : bool) : _GGUFReader :=
  {| rd_v := GGUFVersionV3; rd_o := {| SkipLargeMetadata := skip |};
     rd_f := file_of bs; rd_bo := LittleEndian |}.

(** ** Definitions used by the further properties *)

Definition tensors_two_groups : GGUFTensorInfos :=
  [ {| ti_Name := "blk.0.attn_q.weight"; ti_NDimensions := 1;
       ti_Dimensions := [4]; ti_Type := 0; ti_Offset := 0; ti_StartOffset := 0 |};
    {| ti_Name := "output.weight"; ti_NDimensions := 1;
       ti_Dimensions := [4]; ti_Type := 0; ti_Offset := 16; ti_StartOffset := 40 |} ].

Definition metadata_two_keys : GGUFMetadataKVs :=
  [ {| kv_Key := "general.architecture"; kv_ValueType := GGUFMetadataValueTypeString;
       kv_Value := AString "llama" |};
    {| kv_Key := "general.alignment"; kv_ValueType := GGUFMetadataValueTypeUint32;
       kv_Value := AUint32 32 |} ].

(** The entry [nb[k+1]] of the stride table of [Bytes], for a first
    stride [q] and the dimensions [tl] after the first. *)
Definition stride_at (q : Z) (tl : list Z) (k : nat) : Z :=
  uint64 (q * fold_right Z.mul 1 (firstn k tl)).

Definition array_uint16_materialized : GGUFMetadataKVArrayValue :=
  {| av_Type := GGUFMetadataValueTypeUint16; av_Len := 2;
     av_Array := [AUint16 7; AUint16 9]; av_StartOffset := 0; av_Size := 4 |}.




(** The bytes of a tensor info: name, number of dimensions, dimensions,
    element type, offset. *)
Definition put_tensor_info (v : Z) (bo : ByteOrder) (ti : GGUFTensorInfo) : list byte :=
  put_string v bo (ti_Name ti) ++ put bo 4 (ti_NDimensions ti)
  ++ concat (map (put_length v bo) (ti_Dimensions ti))
  ++ put bo 4 (ti_Type ti) ++ put bo 8 (ti_Offset ti).

Definition tensor_output_weight : GGUFTensorInfo :=
  {| ti_Name := "output.weight"; ti_NDimensions := 2; ti_Dimensions := [4096; 32];
     ti_Type := 12; ti_Offset := 64; ti_StartOffset := 1 |}.

(** The name under which [Cut] looks at an entry of a tree. *)
Definition item_name (v : IGGUFTensorInfos) : string :=
  match v with
  | ITensorInfo ti => ti_Name ti
  | INamed n _ => n
  end.

(** The name of the top-level entry under which [layers] files a tensor
    of the given name, read off the [switch] of [layers]: the branch
    [blk.N], the branch [decoder] or [encoder], or the tensor itself. *)
Definition top_key (name : string) : string :=
  let ps := Split name "." in
  let n := Z.of_nat (length ps) in
  let ps0 := nth 0 ps EmptyString in
  let ps1 := nth 1 ps EmptyString in
  if (2 <=? n) && String.eqb ps0 "blk" then Join [ps0; ps1] "."
  else if (3 <=? n) && (String.eqb ps0 "decoder" || String.eqb ps0 "encoder") then ps0
  else name.

(** An entry of the tree is [grouped] when its tensors and its branches
    all belong under its name. *)
Definition grouped (v : IGGUFTensorInfos) : Prop :=
  (forall ti, In ti (LayerTensorInfos.leaves_item v) -> top_key (ti_Name ti) = item_name v)
  /\ (forall q, (0 < Layers.branches_at q v)%nat -> top_key q = item_name v).

Fixpoint no_dot (s : string) : Prop :=
  match s with
  | EmptyString => True
  | String c s' => c <> "."%char /\ no_dot s'
  end.

(** ** Model metadata *)

(** [GGUFModelMetadata]; the quotient [BitsPerWeight] is a [float64] and
    is not carried. *)
Record GGUFModelMetadata := {
  gm_Architecture : string;
  gm_QuantizationVersion : Z;   (* uint32 *)
  gm_Alignment : Z;             (* uint32 *)
  gm_Name : string;
  gm_Author : string;
  gm_URL : string;
  gm_Description : string;
  gm_License : string;
  gm_FileType : Z;              (* GGUFFileType *)
  gm_LittleEndian : bool;
  gm_Size : Z;
  gm_Parameters : Z
}.

Module ModelMetadata.

Definition keys : list string :=
  ["general.architecture"; "general.quantization_version"; "general.alignment";
   "general.name"; "general.author"; "general.url"; "general.description";
   "general.license"; "general.file_type"]%string.

Section WithGGML.
Context `{GGMLDecls}.
(* The conversions [uint32(x)] of the two float widths. *)
Variables f32 f64 : Z -> Z.

(** [if v, ok := m[key]; ok { field = v.ValueString() }], for the lookup
    [m[key]] given as a function. *)
Definition string_field (m : string -> option GGUFMetadataKV) (key : string)
  : Result string :=
  match m key with
  | Some v => MetadataKV.ValueString v
  | None => Ok EmptyString
  end.

(** [if v, ok := m[key]; ok { field = ValueNumeric[uint32](v) }], the
    field holding [dflt] before. *)
Definition uint32_field (m : string -> option GGUFMetadataKV) (key : string) (dflt : Z)
  : Result Z :=
  match m key with
  | Some v => MetadataKV.ValueNumeric (H := Numeric_uint 32 f32 f64) v
  | None => Ok dflt
  end.

(** The body of [Model] after the call of [Index], over the lookup in
    the map [m] that [Index] returned. *)
Definition Model_with (m : string -> option GGUFMetadataKV) (gf : GGUFFile) (ts : list Z)
  : Result GGUFModelMetadata :=
  Architecture <-! string_field m "general.architecture";
  QuantizationVersion <-! uint32_field m "general.quantization_version" 0;
  Alignment <-! uint32_field m "general.alignment" 32;
  Name <-! string_field m "general.name";
  Author <-! string_field m "general.author";
  URL <-! string_field m "general.url";
  Description <-! string_field m "general.description";
  License <-! string_field m "general.license";
  FileType <-! uint32_field m "general.file_type" _GGUFFileTypeCount;
  FileType <-! (if _GGUFFileTypeCount <=? FileType
                then FileType.guessFileType_ranked (TensorInfos gf) ts
                else Ok FileType);
  Ok {| gm_Architecture := Architecture;
        gm_QuantizationVersion := QuantizationVersion;
        gm_Alignment := Alignment;
        gm_Name := Name;
        gm_Author := Author;
        gm_URL := URL;
        gm_Description := Description;
        gm_License := License;
        gm_FileType := FileType;
        gm_LittleEndian := (Version (Header gf) <? GGUFVersionV3)
                           || (Magic (Header gf) =? GGUFMagicGGUFLe);
        gm_Size := ModelSize gf;
        gm_Parameters := ModelParameters gf |}.

(** [func (gf *GGUFFile) Model() (gm GGUFModelMetadata)], for the ranking
    [ts] that the sort of [guessFileType] produced. *)
Definition Model_ranked (gf : GGUFFile) (ts : list Z) : Result GGUFModelMetadata :=
  let '(m, _) := MetadataKV.Index (MetadataKV (Header gf)) keys in
  Model_with (fun key => m !! key) gf ts.

(** [Model] with the ranking [rank]. *)
Definition Model (gf : GGUFFile) : Result GGUFModelMetadata :=
  Model_ranked gf (FileType.rank (FileType.count (TensorInfos gf) ∅)).
End WithGGML.

End ModelMetadata.

Definition decoded_file (kvs : GGUFMetadataKVs) (tis : GGUFTensorInfos) : GGUFFile :=
  {| Header := {| Magic := GGUFMagicGGUFLe; Version := GGUFVersionV3;
                  TensorCount := Z.of_nat (length tis);
                  MetadataKVCount := Z.of_nat (length kvs);
                  MetadataKV := kvs |};
     TensorInfos := tis;
     Padding := 32; TensorDataStartOffset := 96; ModelSize := 32;
     ModelParameters := 8 |}.

Definition metadata_tokenizer_only : GGUFMetadataKVs :=
  [ {| kv_Key := "tokenizer.ggml.model"; kv_ValueType := GGUFMetadataValueTypeString;
       kv_Value := AString "gpt2" |} ].

Definition metadata_file_type_only : GGUFMetadataKVs :=
  [ {| kv_Key := "tokenizer.ggml.model"; kv_ValueType := GGUFMetadataValueTypeString;
       kv_Value := AString "gpt2" |};
    {| kv_Key := "general.file_type"; kv_ValueType := GGUFMetadataValueTypeUint32;
       kv_Value := AUint32 7 |} ].

(** A computation on the cursor stays [within] the file when a run that
    starts at or before the end of the file ends there too. *)
Definition within {A} (f : ReadSeeker) (m : M A) : Prop :=
  forall pos a p', m pos = Ok (a, p') -> pos <= file_size f -> p' <= file_size f.

(** * Properties *)

(** ** Machine integers and loops *)

Lemma wrap_small w x : 0 <= x < 2 ^ w -> wrap w x = x.
Proof. intros Hx. unfold wrap. now apply Z.mod_small. Qed.

Lemma wrap_range w x : 0 <= w -> 0 <= wrap w x < 2 ^ w.
Proof. intros Hw. unfold wrap. apply Z.mod_pos_bound. now apply Z.pow_pos_nonneg. Qed.

Lemma wrap_add_l w x y : wrap w (wrap w x + y) = wrap w (x + y).
Proof. unfold wrap. now rewrite Zplus_mod_idemp_l. Qed.

Lemma wrap_mul_l w x y : wrap w (wrap w x * y) = wrap w (x * y).
Proof. unfold wrap. now rewrite Zmult_mod_idemp_l. Qed.

Lemma index_nth {A} (s : list A) (i : nat) (x : A) :
  nth_error s i = Some x -> index s (Z.of_nat i) = Ok x.
Proof.
  intros Hx. unfold index.
  assert (i < length s)%nat by (apply nth_error_Some; congruence).
  replace (0 <=? Z.of_nat i) with true by (symmetry; apply Z.leb_le; lia).
  replace (Z.of_nat i <? Z.of_nat (length s)) with true by (symmetry; apply Z.ltb_lt; lia).
  cbn. now rewrite Nat2Z.id, Hx.
Qed.

Lemma index_out {A} (s : list A) (i : Z) :
  Z.of_nat (length s) <= i -> index s i = Panicked PanicIndexOutOfRange.
Proof.
  intros Hi. unfold index.
  replace (i <? Z.of_nat (length s)) with false by (symmetry; apply Z.ltb_ge; lia).
  now rewrite andb_false_r.
Qed.

Lemma for__done {S} (lo hi : Z) (body : Z -> S -> Result S) (s : S) :
  hi <= lo -> for_ lo hi body s = Ok s.
Proof.
  intros Hle. unfold for_. now replace (Z.to_nat (hi - lo)) with 0%nat by lia.
Qed.

Lemma for__step {S} (lo hi : Z) (body : Z -> S -> Result S) (s : S) :
  lo < hi ->
  for_ lo hi body s = rbind (body lo s) (fun s' => for_ (lo + 1) hi body s').
Proof.
  intros Hlt. unfold for_.
  replace (Z.to_nat (hi - lo)) with (Datatypes.S (Z.to_nat (hi - (lo + 1)))) by lia.
  reflexivity.
Qed.

Lemma index_0 {A} (x : A) (s : list A) : index (x :: s) 0 = Ok x.
Proof. apply (index_nth (x :: s) 0 x). reflexivity. Qed.

Lemma index_1 {A} (x y : A) (s : list A) : index (x :: y :: s) 1 = Ok y.
Proof. exact (index_nth (x :: y :: s) 1 y eq_refl). Qed.

Lemma index_2 {A} (x y z : A) (s : list A) : index (x :: y :: z :: s) 2 = Ok z.
Proof. exact (index_nth (x :: y :: z :: s) 2 z eq_refl). Qed.

(** ** C10: [Index] on a leaf looks at the first name only *)

Lemma flat_Index_singleton (ti : GGUFTensorInfo) (ns : list string) :
  TensorInfos.Index [ti] ns =
    if decide (ti_Name ti ∈ ns) then ({[ ti_Name ti := ti ]}, 1) else (∅, 0).
Proof.
  unfold TensorInfos.Index. cbn.
  destruct (decide (ti_Name ti ∈ ns)) as [Hin | Hout].
  - rewrite decide_True by now apply elem_of_list_to_set.
    rewrite insert_empty. now destruct (0 + 1 =? _).
  - rewrite decide_False by now rewrite elem_of_list_to_set.
    now destruct (0 =? _).
Qed.

Lemma tree_Index_singleton (ti : GGUFTensorInfo) (ns : list string) :
  LayerTensorInfos.Index [ITensorInfo ti] ns =
    if decide (ti_Name ti ∈ ns) then ({[ ti_Name ti := ti ]}, 1) else (∅, 0).
Proof.
  unfold LayerTensorInfos.Index. cbn.
  destruct (decide (ti_Name ti ∈ ns)) as [Hin | Hout].
  - rewrite decide_True by now apply elem_of_list_to_set.
    rewrite insert_empty. now destruct (0 + 1 =? _).
  - rewrite decide_False by now rewrite elem_of_list_to_set.
    now destruct (0 =? _).
Qed.

(** C10.  On a leaf [ti], [Index ns] is the one-entry map from the name of
    [ti] to [ti] with [found = 1] exactly when [ns] starts with that name;
    in every other case it is the nil map with [found = 0].  The flat list
    and the tree holding just [ti] find the name anywhere in [ns]. *)
Theorem leaf_Index_first_name_only (ti : GGUFTensorInfo) (ns : list string) :
  TensorInfo.Index ti ns =
    (if decide (head ns = Some (ti_Name ti))
     then (Some {[ ti_Name ti := ti ]}, 1) else (None, 0))
  /\ TensorInfos.Index [ti] ns =
       (if decide (ti_Name ti ∈ ns) then ({[ ti_Name ti := ti ]}, 1) else (∅, 0))
  /\ LayerTensorInfos.Index [ITensorInfo ti] ns =
       (if decide (ti_Name ti ∈ ns) then ({[ ti_Name ti := ti ]}, 1) else (∅, 0)).
Proof.
  split; [| split; [apply flat_Index_singleton | apply tree_Index_singleton]].
  unfold TensorInfo.Index. destruct ns as [| n0 ns']; cbn.
  - now rewrite decide_False by discriminate.
  - destruct (String.eqb_spec n0 (ti_Name ti)) as [-> | Hne].
    + now rewrite decide_True.
    + rewrite decide_False; [reflexivity | congruence].
Qed.

(** A name in second position: missed by the leaf, found by the list. *)
Example leaf_Index_second_position :
  let ti := {| ti_Name := "output.weight"; ti_NDimensions := 1; ti_Dimensions := [4];
               ti_Type := 0; ti_Offset := 0; ti_StartOffset := 0 |} in
  TensorInfo.Index ti ["token_embd.weight"; "output.weight"] = (None, 0)
  /\ snd (TensorInfos.Index [ti] ["token_embd.weight"; "output.weight"]) = 1.
Proof. split; [reflexivity | now vm_compute]. Qed.

(** ** C7: element and byte counts of one tensor *)

Lemma for_range_Elements (dims pre : list Z) (acc : Z) :
  for_range (length dims) (Z.of_nat (length pre))
    (fun i ret => d <-! index (pre ++ dims) i; Ok (uint64 (ret * d))) (uint64 acc)
  = Ok (uint64 (acc * fold_right Z.mul 1 dims)).
Proof.
  revert pre acc. induction dims as [| d dims IH]; intros pre acc; cbn.
  - now rewrite Z.mul_1_r.
  - rewrite (index_nth _ _ d) by (rewrite nth_error_app2, Nat.sub_diag; [reflexivity | lia]).
    cbn. rewrite wrap_mul_l.
    replace (Z.of_nat (length pre) + 1) with (Z.of_nat (length (pre ++ [d])))
      by (rewrite length_app; cbn; lia).
    replace (pre ++ d :: dims) with ((pre ++ [d]) ++ dims) by now rewrite <- app_assoc.
    rewrite IH. f_equal. f_equal. ring.
Qed.

Lemma Elements_product (ti : GGUFTensorInfo) :
  Z.of_nat (length (ti_Dimensions ti)) = ti_NDimensions ti ->
  ti_NDimensions ti <> 0 ->
  TensorInfo.Elements ti = Ok (uint64 (fold_right Z.mul 1 (ti_Dimensions ti))).
Proof.
  intros Hlen Hnz. unfold TensorInfo.Elements, for_.
  rewrite (proj2 (Z.eqb_neq _ _) Hnz), <- Hlen, Z.sub_0_r, Nat2Z.id.
  pose proof (for_range_Elements (ti_Dimensions ti) [] 1) as E.
  change (Z.of_nat (length (@nil Z))) with 0 in E. change ([] ++ ti_Dimensions ti) with (ti_Dimensions ti) in E.
  rewrite (wrap_small 64 1) in E by lia.
  rewrite E. now rewrite Z.mul_1_l.
Qed.

Lemma Bytes_dense_scalar `{GGMLDecls} (ti : GGUFTensorInfo) (tr : GGMLTypeTrait) :
  Trait (ti_Type ti) = Some tr ->
  BlockSize tr = 1 ->
  0 <= TypeSize tr < 2 ^ 64 ->
  ti_NDimensions ti = 1 ->
  ti_Dimensions ti = [1] ->
  TensorInfo.Bytes ti = Ok (TypeSize tr).
Proof.
  intros Htr Hbs Hts Hn Hd.
  unfold TensorInfo.Bytes, TensorInfo.Bytes_nb, TensorInfo.Bytes_step.
  rewrite Hn, Htr, Hd, Hbs.
  rewrite !index_0. cbn [rbind].
  change (1 =? 0) with false. change (1 =? 1) with true. cbv iota.
  rewrite (for__done 2 1) by lia. cbn [rbind].
  rewrite (for__step 0 1) by lia. cbn [app]. rewrite !index_0. cbn [rbind].
  rewrite for__done by lia.
  change (uint64 (1 - 1)) with 0. rewrite Z.mul_0_l.
  change (uint64 0) with 0. rewrite Z.add_0_r. now rewrite wrap_small.
Qed.

(** C7.  For a tensor info whose dimension list has the declared length,
    [Elements] is 0 for dimension count 0 and otherwise the product of the
    dimension sizes, in [uint64] arithmetic (so the product itself as long
    as it fits); for an element type of block size 1 and shape [[1]],
    [Bytes] is the byte size of one block of the type. *)
Theorem tensor_Elements_and_dense_Bytes `{GGMLDecls} (ti : GGUFTensorInfo) :
  Z.of_nat (length (ti_Dimensions ti)) = ti_NDimensions ti ->
  (ti_NDimensions ti = 0 -> TensorInfo.Elements ti = Ok 0)
  /\ (ti_NDimensions ti <> 0 ->
       TensorInfo.Elements ti = Ok (uint64 (fold_right Z.mul 1 (ti_Dimensions ti)))
       /\ (0 <= fold_right Z.mul 1 (ti_Dimensions ti) < 2 ^ 64 ->
           TensorInfo.Elements ti = Ok (fold_right Z.mul 1 (ti_Dimensions ti))))
  /\ (forall tr, Trait (ti_Type ti) = Some tr -> BlockSize tr = 1 ->
                 0 <= TypeSize tr < 2 ^ 64 -> ti_Dimensions ti = [1] ->
                 TensorInfo.Bytes ti = Ok (TypeSize tr)).
Proof.
  intros Hlen. repeat split.
  - intros Hz. unfold TensorInfo.Elements. now rewrite Hz.
  - now apply Elements_product.
  - intros Hfit. rewrite Elements_product by assumption. now rewrite wrap_small.
  - intros tr Htr Hbs Hts Hd. apply (Bytes_dense_scalar ti tr); try assumption.
    rewrite <- Hlen, Hd. reflexivity.
Qed.

Lemma tensor_Elements_and_dense_Bytes_witness :
  TensorInfo.Elements
    {| ti_Name := "blk.0.attn_q.weight"; ti_NDimensions := 2; ti_Dimensions := [4096; 32];
       ti_Type := 12; ti_Offset := 0; ti_StartOffset := 0 |} = Ok 131072
  /\ TensorInfo.Bytes (H := example_ggml)
       {| ti_Name := "rope_freqs.weight"; ti_NDimensions := 1; ti_Dimensions := [1];
          ti_Type := 0; ti_Offset := 0; ti_StartOffset := 0 |} = Ok 4.
Proof.
  split.
  - refine (proj2 (proj1 (proj2 (tensor_Elements_and_dense_Bytes (H := example_ggml)
              {| ti_Name := "blk.0.attn_q.weight"; ti_NDimensions := 2;
                 ti_Dimensions := [4096; 32]; ti_Type := 12; ti_Offset := 0;
                 ti_StartOffset := 0 |} eq_refl)) _) _); cbn; lia.
  - refine (proj2 (proj2 (tensor_Elements_and_dense_Bytes (H := example_ggml)
              {| ti_Name := "rope_freqs.weight"; ti_NDimensions := 1; ti_Dimensions := [1];
                 ti_Type := 0; ti_Offset := 0; ti_StartOffset := 0 |} eq_refl))
              {| BlockSize := 1; TypeSize := 4 |} eq_refl eq_refl _ eq_refl).
    cbn. lia.
Defined.

(** A product that leaves [uint64]: the count wraps around. *)
Example Elements_wraps :
  TensorInfo.Elements
    {| ti_Name := "t"; ti_NDimensions := 2; ti_Dimensions := [2 ^ 32; 2 ^ 32];
       ti_Type := 0; ti_Offset := 0; ti_StartOffset := 0 |} = Ok 0.
Proof. reflexivity. Qed.

(** ** C5: the generic numeric accessor *)

(** X1.  On a stored entry of a numeric tag other than uint16,
    [ValueNumeric] returns the cast of the stored value to the target
    type. *)
Lemma ValueNumeric_other_tags {T : Type} `{Numeric T} (kv : GGUFMetadataKV) :
  MetadataKV.numeric_tag (kv_ValueType kv) = true ->
  kv_ValueType kv <> GGUFMetadataValueTypeUint16 ->
  MetadataKV.stored (kv_ValueType kv) (kv_Value kv) ->
  exists t, MetadataKV.cast_any (kv_Value kv) = Some t /\ MetadataKV.ValueNumeric kv = Ok t.
Proof.
  destruct kv as [k vt x]. cbn. intros Htag Hne Hst.
  destruct x; cbn in Hst; try contradiction; subst vt; try discriminate Htag;
    try (now contradiction Hne); eexists; split; reflexivity.
Qed.

Lemma ValueNumeric_other_tags_witness :
  exists t,
    MetadataKV.cast_any (H := Numeric_uint 32 (fun b => b) (fun b => b)) (AUint64 32)
    = Some t
    /\ MetadataKV.ValueNumeric (H := Numeric_uint 32 (fun b => b) (fun b => b))
         {| kv_Key := "general.alignment"; kv_ValueType := GGUFMetadataValueTypeUint64;
            kv_Value := AUint64 32 |} = Ok t.
Proof.
  apply (ValueNumeric_other_tags (H := Numeric_uint 32 (fun b => b) (fun b => b))
           {| kv_Key := "general.alignment"; kv_ValueType := GGUFMetadataValueTypeUint64;
              kv_Value := AUint64 32 |}).
  - reflexivity.
  - discriminate.
  - reflexivity.
Defined.

(** C5 fails on the code for the tag [uint16]: the case asserts the
    dynamic type [int16], which a stored [uint16] does not have, and the
    accessor panics whatever the target type. *)
Theorem ValueNumeric_uint16_panics {T : Type} `{Numeric T} (key : string) (v : Z) :
  MetadataKV.stored GGUFMetadataValueTypeUint16 (AUint16 v)
  /\ MetadataKV.ValueNumeric (T := T)
       {| kv_Key := key; kv_ValueType := GGUFMetadataValueTypeUint16;
          kv_Value := AUint16 v |} = Panicked PanicTypeAssertion.
Proof. split; reflexivity. Qed.

(** ** C2 and C3: file-type inference *)

Lemma ggml_types_nth_neq `{GGMLDecls} (i j : nat) :
  (i < 24)%nat -> (j < 24)%nat -> i <> j -> nth i ggml_types 0 <> nth j ggml_types 0.
Proof.
  intros Hi Hj Hij E. apply Hij.
  exact (proj1 (NoDup_nth ggml_types 0)
           (proj1 (NoDup_ListNoDup _) GGMLType_distinct) i j Hi Hj E).
Qed.

Ltac ggml_index x l :=
  lazymatch l with
  | x :: _ => constr:(O)
  | _ :: ?t => let n := ggml_index x t in constr:(Datatypes.S n)
  end.

(** Decide the comparisons of two constants of [ggml.go] in the goal. *)
Ltac ggml_compare :=
  repeat first
    [ rewrite Z.eqb_refl
    | match goal with
      | |- context [?a =? ?b] =>
          let l := eval cbv [ggml_types] in ggml_types in
          let i := ggml_index a l in
          let j := ggml_index b l in
          rewrite (proj2 (Z.eqb_neq a b)
                     (ggml_types_nth_neq i j ltac:(lia) ltac:(lia) ltac:(lia)))
      end ].

Lemma from_ranking_Q3_K_alone `{GGMLDecls} :
  FileType.from_ranking [GGMLTypeQ3_K] = Panicked PanicIndexOutOfRange.
Proof.
  unfold FileType.from_ranking. rewrite index_0. cbn [length Z.of_nat rbind].
  change (Z.of_nat 1 =? 0) with false. cbv iota.
  ggml_compare. now rewrite index_out by (cbn; lia).
Qed.

Lemma from_ranking_Q4_K_Q6_K `{GGMLDecls} :
  FileType.from_ranking [GGMLTypeQ4_K; GGMLTypeQ6_K] = Ok GGUFFileTypeMostlyQ6_K.
Proof.
  unfold FileType.from_ranking. rewrite index_0. cbn [length rbind].
  change (Z.of_nat 2 =? 0) with false. change (2 <? Z.of_nat 2) with false. cbv iota.
  now ggml_compare.
Qed.

(** The legacy Q4_K_M tag: Q4_K first and Q6_K third. *)
Lemma from_ranking_Q4_K_third_Q6_K `{GGMLDecls} (t1 : Z) (ts : list Z) :
  FileType.from_ranking (GGMLTypeQ4_K :: t1 :: GGMLTypeQ6_K :: ts)
  = Ok GGUFFileTypeMostlyIQ2_XXS.
Proof.
  unfold FileType.from_ranking. rewrite index_0, index_2. cbn [rbind].
  replace (Z.of_nat (length (GGMLTypeQ4_K :: t1 :: GGMLTypeQ6_K :: ts)) =? 0) with false
    by (symmetry; apply Z.eqb_neq; cbn [length]; lia).
  replace (2 <? Z.of_nat (length (GGMLTypeQ4_K :: t1 :: GGMLTypeQ6_K :: ts))) with true
    by (symmetry; apply Z.ltb_lt; cbn [length]; lia).
  now ggml_compare.
Qed.

(** Outside the Q3_K case with a single ranked type, the [switch] yields
    a tag or the sentinel. *)
Lemma from_ranking_total `{GGMLDecls} (ts : list Z) :
  (head ts <> Some GGMLTypeQ3_K) \/ (2 <= length ts)%nat ->
  exists t, FileType.from_ranking ts = Ok t /\ 0 <= t <= _GGUFFileTypeCount.
Proof.
  intros Hts. unfold FileType.from_ranking.
  destruct ts as [| t0 ts']; [eexists; split; [reflexivity | cbv; split; discriminate] |].
  replace (Z.of_nat (length (t0 :: ts')) =? 0) with false
    by (symmetry; apply Z.eqb_neq; cbn [length]; lia).
  rewrite index_0. cbn [rbind].
  assert (Hi2 : (2 <? Z.of_nat (length (t0 :: ts'))) = true ->
                exists t2, index (t0 :: ts') 2 = Ok t2).
  { intros Hl. apply Z.ltb_lt in Hl. destruct ts' as [| t1 [| t2 ts'']]; cbn in Hl; try lia.
    exists t2. apply index_2. }
  repeat match goal with
         | |- context [if ?a =? ?b then _ else _] => destruct (Z.eqb_spec a b)
         end;
    try (eexists; split; [reflexivity | cbv; split; discriminate]).
  - destruct Hts as [Hhd | Hlen]; [cbn in Hhd; congruence |].
    destruct ts' as [| t1 ts'']; [cbn in Hlen; lia |].
    rewrite index_1. cbn [rbind].
    repeat match goal with
           | |- context [if ?a =? ?b then _ else _] => destruct (Z.eqb_spec a b)
           end; eexists; split; try reflexivity; cbv; split; discriminate.
  - destruct (2 <? _) eqn:Hl; [| eexists; split; [reflexivity | cbv; split; discriminate]].
    destruct (Hi2 eq_refl) as [t2 ->]. cbn [rbind].
    destruct (Z.eqb_spec t2 GGMLTypeQ6_K); eexists; split; try reflexivity;
      cbv; split; discriminate.
  - destruct (2 <? _) eqn:Hl; [| eexists; split; [reflexivity | cbv; split; discriminate]].
    destruct (Hi2 eq_refl) as [t2 ->]. cbn [rbind].
    destruct (Z.eqb_spec t2 GGMLTypeQ6_K); eexists; split; try reflexivity;
      cbv; split; discriminate.
Qed.

(** The ranking used for running the definitions is one of those the
    sort may produce. *)
Lemma insert_ranked_perm (cm : gmap Z Z) (t : Z) (ts : list Z) :
  Permutation (FileType.insert_ranked cm t ts) (t :: ts).
Proof.
  induction ts as [| u ts IH]; cbn; [reflexivity |].
  destruct (_ <? _); [reflexivity |].
  rewrite IH. apply perm_swap.
Qed.

Lemma insert_ranked_sorted (cm : gmap Z Z) (t : Z) (ts : list Z) :
  StronglySorted (fun a b => FileType.occurrences cm b <= FileType.occurrences cm a) ts ->
  StronglySorted (fun a b => FileType.occurrences cm b <= FileType.occurrences cm a)
    (FileType.insert_ranked cm t ts).
Proof.
  induction 1 as [| u ts Hs IH Hu]; cbn.
  - repeat constructor.
  - destruct (Z.ltb_spec (FileType.occurrences cm u) (FileType.occurrences cm t)).
    + constructor; [now constructor |].
      constructor; [lia |].
      eapply List.Forall_impl; [| exact Hu]. cbn. intros; lia.
    + constructor; [assumption |].
      eapply Permutation_Forall; [symmetry; apply insert_ranked_perm |].
      now constructor.
Qed.

Lemma rank_ranked (cm : gmap Z Z) : FileType.ranked cm (FileType.rank cm).
Proof.
  unfold FileType.ranked, FileType.rank.
  induction (map fst (map_to_list cm)) as [| t ts [IHp IHs]]; cbn.
  - split; constructor.
  - split.
    + rewrite insert_ranked_perm. now constructor.
    + now apply insert_ranked_sorted.
Qed.

Lemma ranked_singleton (k v : Z) (ts : list Z) :
  FileType.ranked {[ k := v ]} ts -> ts = [k].
Proof.
  intros [Hp _]. rewrite map_to_list_singleton in Hp. cbn in Hp.
  now apply Permutation_length_1_inv, Permutation_sym.
Qed.

Lemma ranked_two (ka kb a b : Z) (ts : list Z) :
  ka <> kb -> b < a ->
  FileType.ranked (<[ ka := a ]> {[ kb := b ]}) ts -> ts = [ka; kb].
Proof.
  intros Hne Hlt [Hp Hs].
  assert (Hoa : FileType.occurrences (<[ ka := a ]> {[ kb := b ]}) ka = a).
  { unfold FileType.occurrences. now rewrite lookup_insert_eq. }
  assert (Hob : FileType.occurrences (<[ ka := a ]> {[ kb := b ]}) kb = b).
  { unfold FileType.occurrences.
    now rewrite lookup_insert_ne, lookup_singleton_eq by assumption. }
  rewrite map_to_list_insert in Hp by now apply lookup_singleton_ne.
  rewrite map_to_list_singleton in Hp. cbn in Hp.
  apply Permutation_sym, Permutation_length_2_inv in Hp as [-> | ->]; [reflexivity |].
  exfalso. apply StronglySorted_inv in Hs as [_ Hall].
  apply Forall_inv in Hall. lia.
Qed.

Lemma count_Q3_K_only `{GGMLDecls} :
  FileType.count tensors_Q3_K_only ∅ = {[ GGMLTypeQ3_K := 1 ]}.
Proof. cbn. now rewrite lookup_empty, insert_empty. Qed.

(** C2 fails on the code: with the block tensors all of type Q3_K the
    ranked list has one entry, the Q3_K case reads its second entry
    unguarded, and the inference panics, whatever the order of the sort. *)
Theorem guessFileType_Q3_K_alone_panics `{GGMLDecls} :
  FileType.guessFileType tensors_Q3_K_only = Panicked PanicIndexOutOfRange
  /\ (forall r, FileType.guessFileType_outcome tensors_Q3_K_only r ->
                r = Panicked PanicIndexOutOfRange).
Proof.
  assert (Hall : forall ts, FileType.ranked (FileType.count tensors_Q3_K_only ∅) ts ->
                           FileType.guessFileType_ranked tensors_Q3_K_only ts
                           = Panicked PanicIndexOutOfRange).
  { intros ts Hts. rewrite count_Q3_K_only in Hts. apply ranked_singleton in Hts as ->.
    unfold FileType.guessFileType_ranked. cbn [tensors_Q3_K_only length].
    change (Z.of_nat 1 =? 0) with false. cbv iota. apply from_ranking_Q3_K_alone. }
  split.
  - apply Hall, rank_ranked.
  - intros r (ts & Hts & ->). now apply Hall.
Qed.

(** With exactly the two types Q4_K and Q6_K among the block tensors,
    Q4_K the more frequent, every ranking is [Q4_K; Q6_K] and the result
    is the tag of the case without a third type. *)
Lemma outcome_Q4_K_over_Q6_K `{GGMLDecls} (tis : GGUFTensorInfos) (a b : Z) (ts : list Z) :
  FileType.count tis ∅ = <[ GGMLTypeQ4_K := a ]> {[ GGMLTypeQ6_K := b ]} ->
  b < a ->
  FileType.ranked (FileType.count tis ∅) ts ->
  FileType.guessFileType_ranked tis ts = Ok GGUFFileTypeMostlyQ6_K.
Proof.
  intros Hcm Hlt Hts. rewrite Hcm in Hts.
  apply ranked_two in Hts as ->; [| | assumption].
  - unfold FileType.guessFileType_ranked.
    destruct tis as [| ti tis'].
    + cbn in Hcm. symmetry in Hcm. now apply insert_non_empty in Hcm.
    + replace (Z.of_nat (length (ti :: tis')) =? 0) with false
        by (symmetry; apply Z.eqb_neq; cbn [length]; lia).
      apply from_ranking_Q4_K_Q6_K.
  - exact (ggml_types_nth_neq 11 13 ltac:(lia) ltac:(lia) ltac:(lia)).
Qed.

(** C3, amended.  With exactly the two types Q4_K and Q6_K among the
    block tensors, Q4_K the more frequent, the inference returns the tag
    [GGUFFileTypeMostlyQ6_K] (the legacy Q4_K_S): the legacy Q4_K_M tag
    [GGUFFileTypeMostlyIQ2_XXS] needs a third ranked type equal to Q6_K. *)
Theorem guessFileType_Q4_K_over_Q6_K `{GGMLDecls} (tis : GGUFTensorInfos) (a b : Z) :
  FileType.count tis ∅ = <[ GGMLTypeQ4_K := a ]> {[ GGMLTypeQ6_K := b ]} ->
  b < a ->
  FileType.guessFileType tis = Ok GGUFFileTypeMostlyQ6_K
  /\ (forall r, FileType.guessFileType_outcome tis r -> r = Ok GGUFFileTypeMostlyQ6_K)
  /\ GGUFFileTypeMostlyQ6_K <> GGUFFileTypeMostlyIQ2_XXS.
Proof.
  intros Hcm Hlt. split; [| split].
  - eapply outcome_Q4_K_over_Q6_K; eauto using rank_ranked.
  - intros r (ts & Hts & ->). eapply outcome_Q4_K_over_Q6_K; eauto.
  - discriminate.
Qed.

Lemma count_Q4_K_80_Q6_K_20 :
  FileType.count (tensors_Q4_K_80_Q6_K_20 (H := example_ggml)) ∅
  = <[ 12 := 4 ]> {[ 14 := 1 ]}.
Proof. now vm_compute. Qed.

Lemma guessFileType_Q4_K_over_Q6_K_witness :
  FileType.guessFileType (H := example_ggml) tensors_Q4_K_80_Q6_K_20
  = Ok GGUFFileTypeMostlyQ6_K.
Proof.
  refine (proj1 (guessFileType_Q4_K_over_Q6_K (H := example_ggml)
                   tensors_Q4_K_80_Q6_K_20 4 1 _ _)).
  - now vm_compute.
  - lia.
Defined.

(** C3 as stated fails: four Q4_K and one Q6_K block tensors do not give
    the legacy Q4_K_M tag, under any order of the sort. *)
Lemma guessFileType_80_20_not_Q4_K_M :
  FileType.guessFileType (H := example_ggml) tensors_Q4_K_80_Q6_K_20
    <> Ok GGUFFileTypeMostlyIQ2_XXS
  /\ ~ FileType.guessFileType_outcome (H := example_ggml) tensors_Q4_K_80_Q6_K_20
        (Ok GGUFFileTypeMostlyIQ2_XXS).
Proof.
  split.
  - now vm_compute.
  - intros (ts & Hts & E).
    rewrite (outcome_Q4_K_over_Q6_K (H := example_ggml) _ 4 1 ts
               count_Q4_K_80_Q6_K_20 ltac:(lia) Hts) in E.
    discriminate E.
Qed.

(** ** C1 and C8: alignment and padding *)

Lemma swrap_small w x : 0 < w -> - 2 ^ (w - 1) <= x < 2 ^ (w - 1) -> swrap w x = x.
Proof.
  intros Hw Hx. unfold swrap.
  assert (E : 2 ^ w = 2 * 2 ^ (w - 1)).
  { replace w with (Z.succ (w - 1)) at 1 by lia. apply Z.pow_succ_r. lia. }
  rewrite Z.mod_small by lia. lia.
Qed.

(** What the padding step computes for an alignment [ag > 0] at the
    offset [pds]: the start is aligned, lies after [pds], and is a full
    block away exactly when [pds] is aligned already. *)
Lemma padding_range (ag pds : Z) :
  0 < ag < 2 ^ 32 -> 0 <= pds < 2 ^ 62 ->
  exists pad, Parse.padding ag pds = Ok pad
    /\ pad = ag - pds mod ag
    /\ 0 < pad <= ag
    /\ (pds + pad) mod ag = 0
    /\ (pad < ag <-> pds mod ag <> 0).
Proof.
  intros Hag Hpds. unfold Parse.padding.
  rewrite (proj2 (Z.eqb_neq ag 0)) by lia.
  rewrite Z.rem_mod_nonneg by lia.
  pose proof (Z.mod_pos_bound pds ag ltac:(lia)) as Hm.
  rewrite swrap_small by (cbn; lia).
  eexists; split; [reflexivity |]. repeat split; try lia.
  replace (pds + (ag - pds mod ag)) with (pds - pds mod ag + 1 * ag) by ring.
  rewrite Z.mod_add by lia.
  rewrite Zminus_mod_idemp_r, Z.sub_diag. now apply Z.mod_0_l; lia.
Qed.

Lemma padding_aligned (ag pds : Z) :
  0 < ag < 2 ^ 32 -> 0 <= pds < 2 ^ 62 -> pds mod ag = 0 ->
  Parse.padding ag pds = Ok ag.
Proof.
  intros Hag Hpds Hal.
  destruct (padding_range ag pds Hag Hpds) as (pad & -> & -> & _).
  now rewrite Hal, Z.sub_0_r.
Qed.

Lemma alignment_absent (kvs : GGUFMetadataKVs) :
  MetadataKV.Get kvs "general.alignment" = None -> Parse.alignment kvs = Ok 32.
Proof. intros E. unfold Parse.alignment. now rewrite E. Qed.

Lemma alignment_other_tag (kvs : GGUFMetadataKVs) (kv : GGUFMetadataKV) :
  MetadataKV.Get kvs "general.alignment" = Some kv ->
  kv_ValueType kv <> GGUFMetadataValueTypeUint32 ->
  Parse.alignment kvs = Panicked (PanicInvalidType (kv_ValueType kv)).
Proof.
  intros E Hne. unfold Parse.alignment, MetadataKV.ValueUint32. rewrite E.
  now rewrite (proj2 (Z.eqb_neq _ _) Hne).
Qed.

(** C1 fails on the code where the tensor infos end on a multiple of the
    alignment: the file below has them end at offset 64 with the default
    alignment 32, and the decoder reports a padding of 32 and a tensor
    data start of 96, a full alignment block after offset 64 and beyond
    the end of the 80-byte file. *)
Theorem parseGGUFFile_pads_full_block_when_aligned :
  exists gf,
    Parse.parseGGUFFile (H := example_ggml) 80 (file_of file_infos_end_aligned)
      {| SkipLargeMetadata := false |} = Ok gf
    /\ map ti_StartOffset (TensorInfos gf) = [24]
    /\ Padding gf = 32
    /\ TensorDataStartOffset gf = 64 + 32
    /\ ModelSize gf = 2 ^ 64 - 16.
Proof. eexists. split; [now vm_compute | repeat split]. Qed.

(** C8 fails on the code: [general.alignment] stored with the tag
    [uint64] makes the decoder panic on the type check of [ValueUint32],
    while the generic accessor reads the same entry as 32. *)
Theorem parseGGUFFile_alignment_uint64_panics :
  Parse.parseGGUFFile (H := example_ggml) 64 (file_of file_alignment_uint64)
    {| SkipLargeMetadata := false |}
  = Panicked (PanicInvalidType GGUFMetadataValueTypeUint64)
  /\ MetadataKV.ValueNumeric (H := Numeric_uint 32 (fun _ => 0) (fun _ => 0))
       {| kv_Key := "general.alignment"; kv_ValueType := GGUFMetadataValueTypeUint64;
          kv_Value := AUint64 32 |} = Ok 32.
Proof. split; now vm_compute. Qed.

(** ** C4: arrays in the two decoding modes *)

(** C4 fails on the code for an array of arrays: with materialization
    the value decodes (type 9, length 1, span 13, cursor at 25); with
    [SkipLargeMetadata] the item type falls into the default case of the
    skip [switch] and the decoder panics. *)
Theorem ReadArray_of_arrays_skip_panics :
  (exists av,
      Reader.ReadArray (reader_v3 bytes_array_of_array false)
        (Reader.depth (reader_v3 bytes_array_of_array false)) 0 = Ok (av, 25)
      /\ av_StartOffset av = 0 /\ av_Type av = GGUFMetadataValueTypeArray
      /\ av_Len av = 1 /\ av_Size av = 13)
  /\ Reader.ReadArray (reader_v3 bytes_array_of_array true)
       (Reader.depth (reader_v3 bytes_array_of_array true)) 0
     = Panicked (PanicInvalidType GGUFMetadataValueTypeArray).
Proof.
  split.
  - eexists. split; [now vm_compute | repeat split].
  - now vm_compute.
Qed.

(** ** C9: the magic *)

Lemma read_magic (f : ReadSeeker) :
  wrapping "read magic" (binary_Read f LittleEndian 4) 0 =
    if file_size f <=? 0 then Err (Wrapped "read magic" EOF)
    else if file_size f <? 4 then Err (Wrapped "read magic" ErrUnexpectedEOF)
    else Ok (le_val (firstn 4 (content f)), 4).
Proof.
  unfold wrapping, binary_Read, mbind, ReadFull, mret, slice.
  destruct (file_size f <=? 0); [reflexivity |].
  change (0 + 4) with 4. destruct (file_size f <? 4); reflexivity.
Qed.

(** The version of a decoded file is the field after the magic, read in
    the byte order the magic selected. *)
Lemma after_magic_header `{GGMLDecls} (magic : Z) (bo : ByteOrder) (s : Z)
    (f : ReadSeeker) (o : _GGUFReadOptions) (gf : GGUFFile) (pos : Z) :
  Parse.after_magic magic bo s f o 4 = Ok (gf, pos) ->
  Magic (Header gf) = magic /\ Version (Header gf) = decode bo (slice f 4 4).
Proof.
  unfold Parse.after_magic, mbind at 1, wrapping at 1, binary_Read, mbind at 1, ReadFull, mret.
  destruct (file_size f <=? 4); [discriminate |].
  destruct (file_size f <? 4 + 4); [discriminate |].
  set (version := decode bo (slice f 4 4)).
  unfold mbind.
  repeat match goal with
         | |- match ?m with Ok _ => _ | Err _ => _ | Panicked _ => _ | OutOfFuel => _ end = _ -> _ =>
             destruct m as [[? ?] | | |]; try discriminate
         end.
  unfold mret. intros [= <- _]. now split.
Qed.

Lemma parseGGUFFile_unfold `{GGMLDecls} (s : Z) (f : ReadSeeker) (o : _GGUFReadOptions) :
  Parse.parseGGUFFile s f o =
    if file_size f <=? 0 then Err (Wrapped "read magic" EOF)
    else if file_size f <? 4 then Err (Wrapped "read magic" ErrUnexpectedEOF)
    else
      let magic := le_val (firstn 4 (content f)) in
      match Parse.classify magic with
      | Ok bo => result_of (Parse.after_magic magic bo s f o 4)
      | Err e => Err e
      | Panicked p => Panicked p
      | OutOfFuel => OutOfFuel
      end.
Proof.
  unfold Parse.parseGGUFFile, mbind at 1. rewrite read_magic.
  destruct (file_size f <=? 0); [reflexivity |].
  destruct (file_size f <? 4); [reflexivity |].
  cbv zeta. unfold mbind, lift. now destruct (Parse.classify _).
Qed.

(** C9.  The decoder stops on a missing or short magic with a read error,
    on the magics GGML, GGMF and GGJT with the unsupported-format error,
    and on any other magic than the two GGUF ones with the invalid-format
    error; on the little-endian GGUF magic it goes on reading
    little-endian and on the big-endian one big-endian, so that a decoded
    file carries one of the two GGUF magics and the version field read in
    the matching byte order. *)
Theorem parseGGUFFile_magic_classification `{GGMLDecls}
    (s : Z) (f : ReadSeeker) (o : _GGUFReadOptions) :
  let r := Parse.parseGGUFFile s f o in
  let magic := le_val (firstn 4 (content f)) in
  (if file_size f <=? 0 then r = Err (Wrapped "read magic" EOF)
   else if file_size f <? 4 then r = Err (Wrapped "read magic" ErrUnexpectedEOF)
   else if (magic =? GGUFMagicGGML) || (magic =? GGUFMagicGGMF) || (magic =? GGUFMagicGGJT)
        then r = Err (ErrUnsupportedFormat magic)
   else if magic =? GGUFMagicGGUFLe
        then r = result_of (Parse.after_magic magic LittleEndian s f o 4)
   else if magic =? GGUFMagicGGUFBe
        then r = result_of (Parse.after_magic magic BigEndian s f o 4)
   else r = Err ErrGGUFFileInvalidFormat)
  /\ (forall gf, r = Ok gf ->
        (Magic (Header gf) = GGUFMagicGGUFLe
         /\ Version (Header gf) = decode LittleEndian (slice f 4 4))
        \/ (Magic (Header gf) = GGUFMagicGGUFBe
            /\ Version (Header gf) = decode BigEndian (slice f 4 4))).
Proof.
  cbv zeta. rewrite parseGGUFFile_unfold.
  set (magic := le_val (firstn 4 (content f))).
  destruct (file_size f <=? 0); [split; [reflexivity | intros gf Hgf; cbn in Hgf; discriminate Hgf] |].
  destruct (file_size f <? 4); [split; [reflexivity | intros gf Hgf; cbn in Hgf; discriminate Hgf] |].
  cbv zeta. fold magic. unfold Parse.classify.
  destruct ((magic =? GGUFMagicGGML) || (magic =? GGUFMagicGGMF) || (magic =? GGUFMagicGGJT));
    [split; [reflexivity | intros gf Hgf; cbn in Hgf; discriminate Hgf] |].
  destruct (Z.eqb_spec magic GGUFMagicGGUFLe) as [Hle | _].
  - split; [reflexivity |]. intros gf Hgf. left.
    destruct (Parse.after_magic magic LittleEndian s f o 4) as [[gf' pos] | | |] eqn:E;
      try discriminate Hgf.
    injection Hgf as ->. apply after_magic_header in E as [-> ->]. now split.
  - destruct (Z.eqb_spec magic GGUFMagicGGUFBe) as [Hbe | _].
    + split; [reflexivity |]. intros gf Hgf. right.
      destruct (Parse.after_magic magic BigEndian s f o 4) as [[gf' pos] | | |] eqn:E;
        try discriminate Hgf.
      injection Hgf as ->. apply after_magic_header in E as [-> ->]. now split.
    + split; [reflexivity | intros gf Hgf; cbn in Hgf; discriminate Hgf].
Qed.

(** The two GGUF magics as file bytes, and a big-endian header. *)
Example magic_bytes :
  le_val [x47; x47; x55; x46] = GGUFMagicGGUFLe
  /\ le_val [x46; x55; x47; x47] = GGUFMagicGGUFBe
  /\ (exists gf,
        Parse.parseGGUFFile (H := example_ggml) 24
          (file_of ([x46; x55; x47; x47] ++ [x00; x00; x00; x03]
                    ++ put BigEndian 8 0 ++ put BigEndian 8 0))
          {| SkipLargeMetadata := false |} = Ok gf
        /\ Version (Header gf) = 3 /\ Padding gf = 8).
Proof.
  split; [reflexivity | split; [reflexivity |]].
  eexists. split; [now vm_compute | split; reflexivity].
Qed.

(** ** C6: regrouping keeps the tensors and their totals *)

Lemma IGGUFTensorInfos_nested_ind (P : IGGUFTensorInfos -> Prop) :
  (forall ti, P (ITensorInfo ti)) ->
  (forall n items, Forall P items -> P (INamed n items)) ->
  forall v, P v.
Proof.
  intros Hleaf Hnamed.
  fix IH 1. intros [ti | n items]; [apply Hleaf |].
  apply Hnamed. induction items as [| x items IHitems]; constructor; [apply IH | exact IHitems].
Qed.

Section SumOf.
Variable leaf : GGUFTensorInfo -> Result Z.

Lemma sum_of_app (l1 l2 : GGUFTensorInfos) :
  TensorInfos.sum_of leaf (l1 ++ l2) =
    (s1 <-! TensorInfos.sum_of leaf l1; s2 <-! TensorInfos.sum_of leaf l2; Ok (s1 + s2)).
Proof.
  induction l1 as [| ti l1 IH]; cbn.
  - now destruct (TensorInfos.sum_of leaf l2).
  - destruct (leaf ti); cbn; try reflexivity. rewrite IH.
    destruct (TensorInfos.sum_of leaf l1); cbn; try reflexivity.
    destruct (TensorInfos.sum_of leaf l2); cbn; try reflexivity.
    f_equal. ring.
Qed.

Lemma sum_of_perm_Ok (l l' : GGUFTensorInfos) (n : Z) :
  Permutation l l' ->
  TensorInfos.sum_of leaf l = Ok n -> TensorInfos.sum_of leaf l' = Ok n.
Proof.
  intros Hp. revert n.
  induction Hp as [| x l l' Hp IH | x y l | l l' l'' _ IH1 _ IH2]; intros n; cbn.
  - trivial.
  - destruct (leaf x); cbn; try discriminate.
    destruct (TensorInfos.sum_of leaf l) eqn:E; cbn; try discriminate.
    now rewrite (IH _ eq_refl).
  - destruct (leaf x), (leaf y); cbn; try discriminate.
    destruct (TensorInfos.sum_of leaf l); cbn; try discriminate.
    intros [= <-]. f_equal. ring.
  - auto.
Qed.

Lemma flat_total_sum (tis : GGUFTensorInfos) (acc : Z) :
  TensorInfos.total leaf tis (uint64 acc) =
    (s <-! TensorInfos.sum_of leaf tis; Ok (uint64 (acc + s))).
Proof.
  revert acc. induction tis as [| ti tis IH]; intros acc; cbn.
  - now rewrite Z.add_0_r.
  - destruct (leaf ti) as [x | | |]; cbn; try reflexivity.
    rewrite wrap_add_l, IH.
    destruct (TensorInfos.sum_of leaf tis); cbn; try reflexivity.
    now rewrite Z.add_assoc.
Qed.

Lemma tree_total_sum (ltis : GGUFLayerTensorInfos) :
  Forall (fun v => forall acc,
            (e <-! LayerTensorInfos.item_total leaf v; Ok (uint64 (acc + e)))
            = (s <-! TensorInfos.sum_of leaf (LayerTensorInfos.leaves_item v);
               Ok (uint64 (acc + s)))) ltis ->
  forall acc,
    LayerTensorInfos.total leaf ltis (uint64 acc) =
      (s <-! TensorInfos.sum_of leaf (LayerTensorInfos.leaves ltis);
       Ok (uint64 (acc + s))).
Proof.
  induction 1 as [| v ltis Hv _ IH]; intros acc; cbn.
  - now rewrite Z.add_0_r.
  - unfold LayerTensorInfos.leaves in *. cbn. rewrite sum_of_app.
    specialize (Hv (uint64 acc)).
    destruct (LayerTensorInfos.item_total leaf v) as [e | | |]; cbn in Hv |- *;
      destruct (TensorInfos.sum_of leaf (LayerTensorInfos.leaves_item v)) as [s1 | | |];
      cbn in Hv |- *; try discriminate Hv; try exact Hv.
    injection Hv as Hv. rewrite Hv, wrap_add_l, IH.
    destruct (TensorInfos.sum_of leaf (flat_map _ ltis)); cbn; try reflexivity.
    now rewrite Z.add_assoc.
Qed.

Lemma item_total_sum (v : IGGUFTensorInfos) (acc : Z) :
  (e <-! LayerTensorInfos.item_total leaf v; Ok (uint64 (acc + e)))
  = (s <-! TensorInfos.sum_of leaf (LayerTensorInfos.leaves_item v);
     Ok (uint64 (acc + s))).
Proof.
  revert acc. induction v as [ti | n items IH] using IGGUFTensorInfos_nested_ind;
    intros acc; cbn.
  - destruct (leaf ti); cbn; try reflexivity. now rewrite Z.add_0_r.
  - change ((fix loop (l : list IGGUFTensorInfos) (ret : Z) {struct l} : Result Z :=
               match l with
               | [] => Ok ret
               | x :: l' =>
                   rbind (LayerTensorInfos.item_total leaf x)
                     (fun e => loop l' (uint64 (ret + e)))
               end) items 0)
      with (LayerTensorInfos.total leaf items (uint64 0)).
    rewrite (tree_total_sum items IH 0).
    unfold LayerTensorInfos.leaves.
    destruct (TensorInfos.sum_of leaf (flat_map _ items)); cbn; try reflexivity.
    now rewrite Z.add_0_l, Z.add_comm, wrap_add_l, Z.add_comm.
Qed.

(** A total over the tree is the total over its tensors in tree order. *)
Lemma tree_total_leaves (ltis : GGUFLayerTensorInfos) :
  LayerTensorInfos.total leaf ltis 0 =
    TensorInfos.total leaf (LayerTensorInfos.leaves ltis) 0.
Proof.
  assert (Hitems : Forall (fun v => forall acc,
            (e <-! LayerTensorInfos.item_total leaf v; Ok (uint64 (acc + e)))
            = (s <-! TensorInfos.sum_of leaf (LayerTensorInfos.leaves_item v);
               Ok (uint64 (acc + s)))) ltis).
  { apply List.Forall_forall. intros v _. apply item_total_sum. }
  pose proof (tree_total_sum ltis Hitems 0) as E1.
  pose proof (flat_total_sum (LayerTensorInfos.leaves ltis) 0) as E2.
  change (uint64 0) with 0 in E1, E2. now rewrite E1, E2.
Qed.

(** Totals over two arrangements of the same tensors agree. *)
Lemma flat_total_perm (l l' : GGUFTensorInfos) (n : Z) :
  Permutation l l' ->
  TensorInfos.total leaf l 0 = Ok n <-> TensorInfos.total leaf l' 0 = Ok n.
Proof.
  intros Hp.
  pose proof (flat_total_sum l 0) as E1. pose proof (flat_total_sum l' 0) as E2.
  change (uint64 0) with 0 in E1, E2. rewrite E1, E2.
  assert (Hdir : forall a b, Permutation a b ->
            (s <-! TensorInfos.sum_of leaf a; Ok (uint64 (0 + s))) = Ok n ->
            (s <-! TensorInfos.sum_of leaf b; Ok (uint64 (0 + s))) = Ok n).
  { intros a b Hab. destruct (TensorInfos.sum_of leaf a) as [s | | |] eqn:E;
      cbn; try discriminate.
    now rewrite (sum_of_perm_Ok a b s Hab E). }
  split; apply Hdir; [assumption | now symmetry].
Qed.
End SumOf.

Section Regrouping.
Import Layers LayerTensorInfos.

Lemma list_sum_cons (a : nat) (l : list nat) :
  list_sum (a :: l) = (a + list_sum l)%nat.
Proof. reflexivity. Qed.

Lemma concat_repeat_add {A} (x : list A) (a b : nat) :
  concat (repeat x (a + b)) = concat (repeat x a) ++ concat (repeat x b).
Proof. now rewrite repeat_app, concat_app. Qed.

(** A write through [l] adds the leaves of [x] once per branch that
    [l] denotes. *)
Lemma leaves_append_at (l : string) (x : IGGUFTensorInfos) (v : IGGUFTensorInfos) :
  Permutation (leaves_item (append_at l x v))
    (leaves_item v ++ concat (repeat (leaves_item x) (branches_at l v))).
Proof.
  induction v as [ti | n items IH] using IGGUFTensorInfos_nested_ind.
  - cbn. reflexivity.
  - assert (Hitems : Permutation (flat_map leaves_item (map (append_at l x) items))
              (flat_map leaves_item items
               ++ concat (repeat (leaves_item x) (list_sum (map (branches_at l) items))))).
    { induction IH as [| v items Hv _ IHitems]; cbn; [reflexivity |].
      rewrite Hv, IHitems, concat_repeat_add.
      rewrite <- !app_assoc. apply Permutation_app_head.
      rewrite !app_assoc. apply Permutation_app_tail, Permutation_app_comm. }
    cbn [append_at leaves_item branches_at].
    destruct (String.eqb n l); rewrite concat_repeat_add; cbn [repeat concat].
    + rewrite flat_map_app. cbn [flat_map]. rewrite !app_nil_r, Hitems.
      rewrite <- !app_assoc. apply Permutation_app_head, Permutation_app_comm.
    + exact Hitems.
Qed.

Lemma leaves_store (l : string) (x : IGGUFTensorInfos) (ltis : GGUFLayerTensorInfos) :
  Permutation (leaves (map (append_at l x) ltis))
    (leaves ltis
     ++ concat (repeat (leaves_item x) (list_sum (map (branches_at l) ltis)))).
Proof.
  unfold leaves. induction ltis as [| v ltis IH]; cbn; [reflexivity |].
  rewrite leaves_append_at, IH, concat_repeat_add.
  rewrite <- !app_assoc. apply Permutation_app_head.
  rewrite !app_assoc. apply Permutation_app_tail, Permutation_app_comm.
Qed.

(** ... and the branches of [x] likewise. *)
Lemma branches_append_at (q l : string) (x v : IGGUFTensorInfos) :
  branches_at q (append_at l x v)
  = (branches_at q v + branches_at l v * branches_at q x)%nat.
Proof.
  induction v as [ti | n items IH] using IGGUFTensorInfos_nested_ind.
  - reflexivity.
  - assert (Hitems : list_sum (map (branches_at q) (map (append_at l x) items))
              = (list_sum (map (branches_at q) items)
                 + list_sum (map (branches_at l) items) * branches_at q x)%nat).
    { induction IH as [| v items Hv _ IHitems]; [reflexivity |].
      cbn [map]. rewrite !list_sum_cons, Hv, IHitems. lia. }
    cbn [append_at branches_at].
    destruct (String.eqb n l).
    + rewrite map_app, list_sum_app, Hitems. cbn [map]. rewrite list_sum_cons. cbn [list_sum fold_right]. lia.
    + rewrite Hitems. lia.
Qed.

Lemma branches_store (q l : string) (x : IGGUFTensorInfos) (ltis : GGUFLayerTensorInfos) :
  list_sum (map (branches_at q) (map (append_at l x) ltis))
  = (list_sum (map (branches_at q) ltis)
     + list_sum (map (branches_at l) ltis) * branches_at q x)%nat.
Proof.
  induction ltis as [| v ltis IH]; [reflexivity |].
  cbn [map]. rewrite !list_sum_cons, branches_append_at, IH. lia.
Qed.

Lemma branches_at_fresh (q p : string) :
  branches_at q (INamed p []) = if String.eqb p q then 1%nat else 0%nat.
Proof. cbn. destruct (String.eqb p q); reflexivity. Qed.

(** Storing a tensor through a key of [pm] places it once. *)
Lemma store_tensor (st : State) (p : string) (ti : GGUFTensorInfo) :
  well_formed st -> pm st !! p = Some p ->
  well_formed (store p (ITensorInfo ti) st)
  /\ Permutation (leaves (ret (store p (ITensorInfo ti) st))) (leaves (ret st) ++ [ti]).
Proof.
  intros [Hkeys Hone] Hp. split; [split |]; cbn.
  - exact Hkeys.
  - intros q. rewrite branches_store. cbn. rewrite Nat.mul_0_r, Nat.add_0_r. apply Hone.
  - rewrite leaves_store. specialize (Hone p). rewrite Hp in Hone. rewrite Hone.
    cbn. reflexivity.
Qed.

(** Allocating the branch of a key at the top level, if it is new. *)
Lemma ensure_top (st : State) (p : string) :
  well_formed st ->
  let st1 := match pm st !! p with
             | None => {| ret := ret st ++ [INamed p []]; pm := <[ p := p ]> (pm st) |}
             | Some _ => st
             end in
  well_formed st1 /\ pm st1 !! p = Some p /\ leaves (ret st1) = leaves (ret st).
Proof.
  intros [Hkeys Hone]. destruct (pm st !! p) as [l |] eqn:Hp; cbn zeta.
  - split; [now split |]. split; [| reflexivity]. now rewrite Hp, (Hkeys p l Hp).
  - split; [split |]; cbn.
    + intros p' l. rewrite lookup_insert. case_decide; [| apply Hkeys].
      now intros [= <-].
    + intros q. rewrite map_app, list_sum_app. cbn [map list_sum].
      rewrite branches_at_fresh, Hone, lookup_insert.
      destruct (String.eqb_spec p q) as [-> | Hne].
      * rewrite decide_True by reflexivity. now rewrite Hp.
      * rewrite decide_False by assumption. destruct (pm st !! q); reflexivity.
    + split; [apply lookup_insert_eq |].
      unfold leaves. rewrite flat_map_app. cbn. now rewrite app_nil_r.
Qed.

(** Allocating the branch of a key below the branch [xl], if it is new. *)
Lemma ensure_nested (st : State) (xl p : string) :
  well_formed st -> pm st !! xl = Some xl ->
  let st2 := match pm st !! p with
             | None => {| ret := ret (store xl (INamed p []) st);
                          pm := <[ p := p ]> (pm st) |}
             | Some _ => st
             end in
  well_formed st2 /\ pm st2 !! p = Some p
  /\ Permutation (leaves (ret st2)) (leaves (ret st)).
Proof.
  intros [Hkeys Hone] Hxl. destruct (pm st !! p) as [l |] eqn:Hp; cbn zeta.
  - split; [now split |]. split; [| reflexivity]. now rewrite Hp, (Hkeys p l Hp).
  - split; [split |]; cbn.
    + intros p' l. rewrite lookup_insert. case_decide; [| apply Hkeys].
      now intros [= <-].
    + intros q. rewrite branches_store, branches_at_fresh, lookup_insert.
      pose proof (Hone xl) as Hx. rewrite Hxl in Hx. rewrite Hx, Hone.
      destruct (String.eqb_spec p q) as [-> | Hne].
      * rewrite decide_True by reflexivity. now rewrite Hp.
      * rewrite decide_False by assumption. destruct (pm st !! q); lia.
    + split; [apply lookup_insert_eq |].
      rewrite leaves_store. cbn. clear.
      induction (list_sum _); cbn; [now rewrite app_nil_r | assumption].
Qed.

Lemma load_key (st : State) (p : string) :
  pm st !! p = Some p -> load st p = Ok p.
Proof. intros Hp. unfold load. now rewrite Hp. Qed.

(** One iteration: no panic, the invariant, and one more tensor. *)
Lemma step_spec (st : State) (ti : GGUFTensorInfo) :
  well_formed st ->
  exists st', step st ti = Ok st' /\ well_formed st'
              /\ Permutation (leaves (ret st')) (leaves (ret st) ++ [ti]).
Proof.
  intros Hwf. unfold step.
  set (ps := Split (ti_Name ti) "."). cbv zeta.
  destruct ((2 <=? Z.of_nat (length ps)) && String.eqb (nth 0 ps EmptyString) "blk").
  - destruct (ensure_top st (Join [nth 0 ps EmptyString; nth 1 ps EmptyString] ".") Hwf)
      as (Hwf1 & Hp1 & Hl1).
    cbv zeta in Hwf1, Hp1, Hl1. rewrite (load_key _ _ Hp1). cbn [rbind].
    eexists. split; [reflexivity |].
    destruct (store_tensor _ _ ti Hwf1 Hp1) as [Hwf2 Hl2].
    split; [exact Hwf2 |]. now rewrite Hl2, Hl1.
  - destruct ((3 <=? Z.of_nat (length ps))
              && (String.eqb (nth 0 ps EmptyString) "decoder"
                  || String.eqb (nth 0 ps EmptyString) "encoder")).
    + destruct (ensure_top st (nth 0 ps EmptyString) Hwf) as (Hwf1 & Hp1 & Hl1).
      cbv zeta in Hwf1, Hp1, Hl1. rewrite (load_key _ _ Hp1). cbn [rbind].
      destruct (negb (String.eqb (nth 1 ps EmptyString) "block")).
      * eexists. split; [reflexivity |].
        destruct (store_tensor _ _ ti Hwf1 Hp1) as [Hwf2 Hl2].
        split; [exact Hwf2 |]. now rewrite Hl2, Hl1.
      * destruct (ensure_nested _ (nth 0 ps EmptyString)
                    (Join [nth 0 ps EmptyString; nth 1 ps EmptyString;
                           nth 2 ps EmptyString] ".") Hwf1 Hp1)
          as (Hwf2 & Hp2 & Hl2).
        cbv zeta in Hwf2, Hp2, Hl2. rewrite (load_key _ _ Hp2). cbn [rbind].
        eexists. split; [reflexivity |].
        destruct (store_tensor _ _ ti Hwf2 Hp2) as [Hwf3 Hl3].
        split; [exact Hwf3 |]. now rewrite Hl3, Hl2, Hl1.
    + eexists. split; [reflexivity |]. destruct Hwf as [Hkeys Hone].
      split; [split |]; cbn.
      * exact Hkeys.
      * intros q. rewrite map_app, list_sum_app. cbn. rewrite Nat.add_0_r. apply Hone.
      * unfold leaves. rewrite flat_map_app. cbn. reflexivity.
Qed.

Lemma run_spec (tis : GGUFTensorInfos) (st : State) :
  well_formed st ->
  exists st', run st tis = Ok st' /\ well_formed st'
              /\ Permutation (leaves (ret st')) (leaves (ret st) ++ tis).
Proof.
  revert st. induction tis as [| ti tis IH]; intros st Hwf; cbn.
  - exists st. rewrite app_nil_r. auto.
  - destruct (step_spec st ti Hwf) as (st1 & -> & Hwf1 & Hl1). cbn.
    destruct (IH st1 Hwf1) as (st2 & -> & Hwf2 & Hl2).
    exists st2. split; [reflexivity |]. split; [assumption |].
    rewrite Hl2, Hl1, <- app_assoc. reflexivity.
Qed.

Lemma well_formed_empty : well_formed {| ret := []; pm := ∅ |}.
Proof. split; cbn; [intros p l; now rewrite lookup_empty | intros q; now rewrite lookup_empty]. Qed.

(** Taking the name of a branch for its address is sound: in every state
    the builder reaches, each key of [pm] denotes exactly one branch. *)
Lemma run_well_formed (tis : GGUFTensorInfos) :
  exists st, run {| ret := []; pm := ∅ |} tis = Ok st /\ well_formed st.
Proof.
  destruct (run_spec tis _ well_formed_empty) as (st & Hrun & Hwf & _). eauto.
Qed.

(** The builder returns a tree that holds every tensor of the list
    exactly once. *)
Lemma layers_leaves (tis : GGUFTensorInfos) :
  exists ltis, layers tis = Ok ltis /\ Permutation (leaves ltis) tis.
Proof.
  destruct (run_spec tis _ well_formed_empty) as (st & Hrun & _ & Hl).
  exists (ret st). unfold layers. rewrite Hrun. now split.
Qed.
End Regrouping.

(** C6.  For every tensor list the builder (no names ignored) returns a
    tree; the tensors of the tree are those of the list, each placed
    once; and [Elements], [Bytes] and [Count] return a value on the tree
    exactly when they return it on the flat list. *)
Theorem layers_keep_totals `{GGMLDecls} (tis : GGUFTensorInfos) :
  exists ltis,
    Layers.Layers tis [] = Ok ltis
    /\ Permutation (LayerTensorInfos.leaves ltis) tis
    /\ (forall n, LayerTensorInfos.Elements ltis = Ok n <-> TensorInfos.Elements tis = Ok n)
    /\ (forall n, LayerTensorInfos.Bytes ltis = Ok n <-> TensorInfos.Bytes tis = Ok n)
    /\ LayerTensorInfos.Count ltis = TensorInfos.Count tis.
Proof.
  destruct (layers_leaves tis) as (ltis & Hl & Hp).
  exists ltis. split; [unfold Layers.Layers; now rewrite Hl |]. split; [exact Hp |].
  unfold LayerTensorInfos.Elements, LayerTensorInfos.Bytes, LayerTensorInfos.Count,
    TensorInfos.Elements, TensorInfos.Bytes, TensorInfos.Count.
  rewrite !tree_total_leaves.
  split; [intros n; now apply flat_total_perm |].
  split; [intros n; now apply flat_total_perm |].
  rewrite <- (Permutation_length Hp).
  pose proof (flat_total_sum TensorInfo.Count (LayerTensorInfos.leaves ltis) 0) as E.
  change (uint64 0) with 0 in E. rewrite E. clear.
  assert (Hs : forall l, TensorInfos.sum_of TensorInfo.Count l = Ok (Z.of_nat (length l))).
  { induction l as [| ti l IH]; [reflexivity |]. cbn [TensorInfos.sum_of length].
    rewrite IH. cbn. f_equal. lia. }
  now rewrite Hs.
Qed.

(** ** The decoder never exhausts its nesting bound *)

Lemma good_fine {A} (m : M A) : good m -> fine m.
Proof.
  intros Hm pos Hpos. destruct (Hm pos) as [Hs Ha]. split; [exact Hs |].
  intros a p' E. specialize (Ha a p' E). lia.
Qed.

Lemma good_mret {A} (a : A) : good (mret a).
Proof. intros pos. split; [discriminate |]. unfold mret. intros ? ? [= _ <-]. lia. Qed.

Lemma good_mfail {A} (e : Error) : good (@mfail A e).
Proof. intros pos. split; discriminate. Qed.

Lemma good_mpanic {A} (p : PanicValue) : good (@mpanic A p).
Proof. intros pos. split; discriminate. Qed.

Lemma good_mbind {A B} (m : M A) (k : A -> M B) :
  good m -> (forall a, good (k a)) -> good (mbind m k).
Proof.
  intros Hm Hk pos. unfold mbind. destruct (Hm pos) as [Hs Ha].
  destruct (m pos) as [[a p1] | | |]; try (split; [discriminate + congruence | discriminate]).
  destruct (Hk a p1) as [Hs' Ha']. split; [exact Hs' |].
  intros b p' E. specialize (Ha a p1 eq_refl). specialize (Ha' b p' E). lia.
Qed.

Lemma fine_mbind {A B} (m : M A) (k : A -> M B) :
  fine m -> (forall a, fine (k a)) -> fine (mbind m k).
Proof.
  intros Hm Hk pos Hpos. unfold mbind. destruct (Hm pos Hpos) as [Hs Ha].
  destruct (m pos) as [[a p1] | | |]; try (split; [discriminate + congruence | discriminate]).
  apply Hk. now apply (Ha a p1).
Qed.

Lemma good_wrapping {A} (ctx : string) (m : M A) : good m -> good (wrapping ctx m).
Proof.
  intros Hm pos. unfold wrapping. destruct (Hm pos) as [Hs Ha].
  destruct (m pos) as [[a p1] | | |]; try (split; [discriminate + congruence | discriminate]).
  split; [discriminate | exact Ha].
Qed.

Lemma fine_wrapping {A} (ctx : string) (m : M A) : fine m -> fine (wrapping ctx m).
Proof.
  intros Hm pos Hpos. unfold wrapping. destruct (Hm pos Hpos) as [Hs Ha].
  destruct (m pos) as [[a p1] | | |]; try (split; [discriminate + congruence | discriminate]).
  split; [discriminate | exact Ha].
Qed.

Lemma good_wrapping_at {A} (ctx : string) (i : Z) (m : M A) :
  good m -> good (wrapping_at ctx i m).
Proof.
  intros Hm pos. unfold wrapping_at. destruct (Hm pos) as [Hs Ha].
  destruct (m pos) as [[a p1] | | |]; try (split; [discriminate + congruence | discriminate]).
  split; [discriminate | exact Ha].
Qed.

Lemma fine_wrapping_at {A} (ctx : string) (i : Z) (m : M A) :
  fine m -> fine (wrapping_at ctx i m).
Proof.
  intros Hm pos Hpos. unfold wrapping_at. destruct (Hm pos Hpos) as [Hs Ha].
  destruct (m pos) as [[a p1] | | |]; try (split; [discriminate + congruence | discriminate]).
  split; [discriminate | exact Ha].
Qed.

(** A loop whose body keeps a property [I] of the cursor and does not
    run out of fuel where [I] holds. *)
Lemma forM_invariant {A} (I : Z -> Prop) (lo hi : Z) (body : Z -> A -> M A) (a : A) (pos : Z) :
  (forall i x p, I p ->
     body i x p <> OutOfFuel /\ forall x' p', body i x p = Ok (x', p') -> I p') ->
  I pos ->
  forM lo hi body a pos <> OutOfFuel
  /\ forall a' p', forM lo hi body a pos = Ok (a', p') -> I p'.
Proof.
  intros Hbody. unfold forM, for_.
  generalize (Z.to_nat (hi - lo)) as n. intros n. revert lo a pos.
  induction n as [| n IH]; intros lo a pos Hpos; cbn.
  - split; [discriminate |]. now intros ? ? [= _ <-].
  - destruct (Hbody lo a pos Hpos) as [Hs Hi].
    destruct (body lo a pos) as [[a1 p1] | | |]; cbn;
      try (split; [discriminate + congruence | discriminate]).
    apply IH. now apply (Hi a1 p1).
Qed.

Lemma good_forM {A} (lo hi : Z) (body : Z -> A -> M A) (a : A) :
  (forall i x, good (body i x)) -> good (forM lo hi body a).
Proof.
  intros Hbody pos.
  apply (forM_invariant (fun p => pos <= p)); [| lia].
  intros i x p Hp. destruct (Hbody i x p) as [Hs Ha]. split; [exact Hs |].
  intros x' p' E. specialize (Ha x' p' E). lia.
Qed.

Lemma fine_forM {A} (lo hi : Z) (body : Z -> A -> M A) (a : A) :
  (forall i x, fine (body i x)) -> fine (forM lo hi body a).
Proof.
  intros Hbody pos Hpos.
  apply (forM_invariant (fun p => 0 <= p)); [| lia].
  intros i x p Hp. now apply Hbody.
Qed.

Lemma good_ReadFull (f : ReadSeeker) (n : Z) : 0 <= n -> good (ReadFull f n).
Proof.
  intros Hn pos. unfold ReadFull.
  destruct (_ <=? _); [split; discriminate |].
  destruct (_ <? _); [split; discriminate |].
  split; [discriminate |]. intros ? ? [= _ <-]. lia.
Qed.

Lemma good_Read (f : ReadSeeker) (n : Z) : 0 <= n -> good (Read f n).
Proof.
  intros Hn pos. unfold Read.
  destruct (_ && _); [split; [discriminate | intros ? ? [= _ <-]; lia] |].
  destruct (Z.leb_spec (file_size f) pos); [split; discriminate |].
  split; [discriminate |]. intros ? ? [= _ <-]. lia.
Qed.

Lemma good_Seek_0 (f : ReadSeeker) : good (Seek f 0).
Proof.
  intros pos. unfold Seek. rewrite Z.add_0_r.
  destruct (_ || _); [split; discriminate |].
  split; [discriminate |]. intros ? ? [= _ <-]. lia.
Qed.

Lemma fine_Seek (f : ReadSeeker) (off : Z) : fine (Seek f off).
Proof.
  intros pos Hpos. unfold Seek.
  destruct (Z.ltb_spec (pos + off) 0); cbn [orb]; [split; discriminate |].
  destruct (_ <=? _); [split; discriminate |].
  split; [discriminate |]. intros ? ? [= _ <-]. lia.
Qed.

Lemma good_binary_Read (f : ReadSeeker) (bo : ByteOrder) (n : Z) :
  0 <= n -> good (binary_Read f bo n).
Proof.
  intros Hn. apply good_mbind; [now apply good_ReadFull | intros; apply good_mret].
Qed.

Lemma good_lift {A} (r : Result A) : r <> OutOfFuel -> good (lift r).
Proof.
  intros Hr pos. unfold lift. destruct r; try (split; [discriminate + congruence | discriminate]).
  split; [discriminate |]. intros ? ? [= _ <-]. lia.
Qed.

Section ReaderTotal.
Variable rd : _GGUFReader.

Ltac good_reader :=
  apply good_wrapping;
  first [ apply good_binary_Read; lia
        | apply good_mbind; [apply good_binary_Read; lia | intros; apply good_mret] ].

Lemma good_ReadUint8 : good (Reader.ReadUint8 rd).
Proof. unfold Reader.ReadUint8. good_reader. Qed.

Lemma good_ReadInt8 : good (Reader.ReadInt8 rd).
Proof. unfold Reader.ReadInt8. good_reader. Qed.

Lemma good_ReadUint16 : good (Reader.ReadUint16 rd).
Proof. unfold Reader.ReadUint16. good_reader. Qed.

Lemma good_ReadInt16 : good (Reader.ReadInt16 rd).
Proof. unfold Reader.ReadInt16. good_reader. Qed.

Lemma good_ReadUint32 : good (Reader.ReadUint32 rd).
Proof. unfold Reader.ReadUint32. good_reader. Qed.

Lemma good_ReadInt32 : good (Reader.ReadInt32 rd).
Proof. unfold Reader.ReadInt32. good_reader. Qed.

Lemma good_ReadFloat32 : good (Reader.ReadFloat32 rd).
Proof. unfold Reader.ReadFloat32. good_reader. Qed.

Lemma good_ReadUint64 : good (Reader.ReadUint64 rd).
Proof. unfold Reader.ReadUint64. good_reader. Qed.

Lemma good_ReadInt64 : good (Reader.ReadInt64 rd).
Proof. unfold Reader.ReadInt64. good_reader. Qed.

Lemma good_ReadFloat64 : good (Reader.ReadFloat64 rd).
Proof. unfold Reader.ReadFloat64. good_reader. Qed.

Lemma good_ReadBool : good (Reader.ReadBool rd).
Proof.
  unfold Reader.ReadBool. apply good_mbind; [| intros; apply good_mret].
  apply good_wrapping, good_ReadUint8.
Qed.

Lemma good_ReadLength : good (Reader.ReadLength rd).
Proof.
  unfold Reader.ReadLength, Reader.ReadUint64FromUint32.
  destruct (_ <=? _); [apply good_ReadUint32 | apply good_ReadUint64].
Qed.

Lemma good_ReadString : good (Reader.ReadString rd).
Proof.
  unfold Reader.ReadString.
  apply good_mbind; [apply good_wrapping, good_ReadLength | intros l].
  apply good_mbind; [| intros; apply good_mret].
  apply good_wrapping, good_Read. lia.
Qed.

Lemma fine_SkipReadingString : fine (Reader.SkipReadingString rd).
Proof.
  unfold Reader.SkipReadingString.
  apply fine_mbind; [apply good_fine, good_wrapping, good_ReadLength | intros l].
  apply fine_mbind; [apply fine_wrapping, fine_Seek | intros; apply good_fine, good_mret].
Qed.

(** The header of an array value: twelve bytes, or eight up to version 1. *)
Lemma good_array_header {B} (k : Z -> Z -> Z -> Z -> M B) :
  (forall a b c d, good (k a b c d)) ->
  good (StartOffset <- wrapping "read array start" (Seek (rd_f rd) 0);;
        Type_ <- wrapping "read array item type" (binary_Read (rd_f rd) (rd_bo rd) 4);;
        Len <- wrapping "read array length" (Reader.ReadLength rd);;
        itemStart <- wrapping "seek array item start" (Seek (rd_f rd) 0);;
        k StartOffset Type_ Len itemStart).
Proof.
  intros Hk.
  apply good_mbind; [apply good_wrapping, good_Seek_0 | intros ?].
  apply good_mbind; [apply good_wrapping, good_binary_Read; lia | intros ?].
  apply good_mbind; [apply good_wrapping, good_ReadLength | intros ?].
  apply good_mbind; [apply good_wrapping, good_Seek_0 | intros ?].
  apply Hk.
Qed.

(** In skip mode an array is read without a call for its items. *)
Lemma fine_ReadArray_skip (ReadValue : Z -> M any) :
  SkipLargeMetadata (rd_o rd) = true -> fine (Reader.ReadArray_with rd ReadValue).
Proof.
  intros Hskip. unfold Reader.ReadArray_with. rewrite Hskip. cbn [negb].
  apply fine_mbind; [apply good_fine, good_wrapping, good_Seek_0 | intros ?].
  apply fine_mbind; [apply good_fine, good_wrapping, good_binary_Read; lia | intros ty].
  apply fine_mbind; [apply good_fine, good_wrapping, good_ReadLength | intros len].
  apply fine_mbind; [apply good_fine, good_wrapping, good_Seek_0 | intros ?].
  apply fine_mbind.
  - repeat (destruct (_ || _); [apply fine_wrapping, fine_Seek |]).
    destruct (_ =? _); [| apply good_fine, good_mpanic].
    apply fine_mbind; [| intros; apply good_fine, good_mret].
    apply fine_forM. intros i x. apply fine_wrapping_at, fine_SkipReadingString.
  - intros _. apply fine_mbind; [apply good_fine, good_wrapping, good_Seek_0 |].
    intros; apply good_fine, good_mret.
Qed.
End ReaderTotal.

(** Inversion of the monadic combinators. *)
Lemma mbind_Ok {A B} (m : M A) (k : A -> M B) (pos : Z) (r : B * Z) :
  mbind m k pos = Ok r -> exists a p1, m pos = Ok (a, p1) /\ k a p1 = Ok r.
Proof.
  unfold mbind. destruct (m pos) as [[a p1] | | |]; try discriminate. eauto.
Qed.

Lemma mbind_OutOfFuel {A B} (m : M A) (k : A -> M B) (pos : Z) :
  mbind m k pos = OutOfFuel ->
  m pos = OutOfFuel \/ exists a p1, m pos = Ok (a, p1) /\ k a p1 = OutOfFuel.
Proof.
  unfold mbind. destruct (m pos) as [[a p1] | | |]; try discriminate; eauto.
Qed.

Lemma wrapping_Ok {A} (ctx : string) (m : M A) (pos : Z) (r : A * Z) :
  wrapping ctx m pos = Ok r -> m pos = Ok r.
Proof. unfold wrapping. now destruct (m pos). Qed.

Lemma wrapping_OutOfFuel {A} (ctx : string) (m : M A) (pos : Z) :
  wrapping ctx m pos = OutOfFuel -> m pos = OutOfFuel.
Proof. unfold wrapping. now destruct (m pos). Qed.

Lemma wrapping_at_Ok {A} (ctx : string) (i : Z) (m : M A) (pos : Z) (r : A * Z) :
  wrapping_at ctx i m pos = Ok r -> m pos = Ok r.
Proof. unfold wrapping_at. now destruct (m pos). Qed.

Lemma wrapping_at_OutOfFuel {A} (ctx : string) (i : Z) (m : M A) (pos : Z) :
  wrapping_at ctx i m pos = OutOfFuel -> m pos = OutOfFuel.
Proof. unfold wrapping_at. now destruct (m pos). Qed.

Lemma Seek_0_Ok (f : ReadSeeker) (pos v p' : Z) :
  Seek f 0 pos = Ok (v, p') -> v = pos /\ p' = pos.
Proof.
  unfold Seek. rewrite Z.add_0_r. destruct (_ || _); [discriminate |].
  now intros [= <- <-].
Qed.

Lemma binary_Read_Ok (f : ReadSeeker) (bo : ByteOrder) (n pos v p' : Z) :
  binary_Read f bo n pos = Ok (v, p') ->
  v = decode bo (slice f pos n) /\ p' = pos + n /\ pos + n <= file_size f.
Proof.
  unfold binary_Read, mbind, ReadFull, mret.
  destruct (_ <=? _); [discriminate |].
  destruct (Z.ltb_spec (file_size f) (pos + n)); [discriminate |].
  now intros [= <- <-].
Qed.

Lemma ReadLength_Ok (rd : _GGUFReader) (pos v p' : Z) :
  Reader.ReadLength rd pos = Ok (v, p') ->
  (p' = pos + 4 \/ p' = pos + 8) /\ p' <= file_size (rd_f rd).
Proof.
  unfold Reader.ReadLength, Reader.ReadUint64FromUint32, Reader.ReadUint32, Reader.ReadUint64.
  destruct (_ <=? _); intros E; apply wrapping_Ok, binary_Read_Ok in E as (_ & -> & Hle);
    split; auto.
Qed.

(** An array in materializing mode: once the header is read, the item
    reader is called inside the rest of the file only. *)
Lemma ReadArray_materialize (rd : _GGUFReader) (ReadValue : Z -> M any) (pos : Z) :
  SkipLargeMetadata (rd_o rd) = false ->
  (forall ty p, pos + 8 <= p -> pos + 8 <= file_size (rd_f rd) ->
     ReadValue ty p <> OutOfFuel /\ forall a p', ReadValue ty p = Ok (a, p') -> p <= p') ->
  Reader.ReadArray_with rd ReadValue pos <> OutOfFuel
  /\ forall av p', Reader.ReadArray_with rd ReadValue pos = Ok (av, p') -> pos <= p'.
Proof.
  intros Hmode HRV. unfold Reader.ReadArray_with. rewrite Hmode. cbn [negb].
  assert (Hitems : forall ty len p,
            pos + 8 <= p -> pos + 8 <= file_size (rd_f rd) ->
            forM 0 len
              (fun i arr => x <- wrapping_at "read array item" i (ReadValue ty);;
                            mret (arr ++ [x])) [] p <> OutOfFuel
            /\ forall arr p', forM 0 len
                 (fun i arr => x <- wrapping_at "read array item" i (ReadValue ty);;
                               mret (arr ++ [x])) [] p = Ok (arr, p') -> pos + 8 <= p').
  { intros ty len p Hp Hsz. apply (forM_invariant (fun q => pos + 8 <= q)); [| exact Hp].
    intros i x q Hq. destruct (HRV ty q Hq Hsz) as [Hs Ha]. split.
    - intros E. apply mbind_OutOfFuel in E as [E | (a & p1 & _ & E)]; [| discriminate E].
      now apply wrapping_at_OutOfFuel in E.
    - intros x' q' E. apply mbind_Ok in E as (a & p1 & E1 & E2).
      apply wrapping_at_Ok in E1. injection E2 as _ <-. specialize (Ha a p1 E1). lia. }
  split.
  - intros E.
    apply mbind_OutOfFuel in E as [E | (s0 & p0 & E0 & E)];
      [apply wrapping_OutOfFuel in E; now apply (good_Seek_0 (rd_f rd) pos) in E |].
    apply wrapping_Ok, Seek_0_Ok in E0 as [-> ->].
    apply mbind_OutOfFuel in E as [E | (ty & p1 & E1 & E)];
      [apply wrapping_OutOfFuel in E;
       now apply (good_binary_Read (rd_f rd) (rd_bo rd) 4 ltac:(lia) pos) in E |].
    apply wrapping_Ok, binary_Read_Ok in E1 as (_ & -> & H1).
    apply mbind_OutOfFuel in E as [E | (len & p2 & E2 & E)];
      [apply wrapping_OutOfFuel in E; now apply (good_ReadLength rd (pos + 4)) in E |].
    apply wrapping_Ok, ReadLength_Ok in E2 as (H2 & H2').
    apply mbind_OutOfFuel in E as [E | (s3 & p3 & E3 & E)];
      [apply wrapping_OutOfFuel in E; now apply (good_Seek_0 (rd_f rd) p2) in E |].
    apply wrapping_Ok, Seek_0_Ok in E3 as [-> ->].
    destruct (Hitems ty len p2 ltac:(lia) ltac:(lia)) as [Hs _].
    apply mbind_OutOfFuel in E as [E | (arr & p4 & E4 & E)]; [now apply Hs in E |].
    apply mbind_OutOfFuel in E as [E | (s5 & p5 & _ & E)]; [| discriminate E].
    apply wrapping_OutOfFuel in E. now apply (good_Seek_0 (rd_f rd) p4) in E.
  - intros av p' E.
    apply mbind_Ok in E as (s0 & p0 & E0 & E).
    apply wrapping_Ok, Seek_0_Ok in E0 as [-> ->].
    apply mbind_Ok in E as (ty & p1 & E1 & E).
    apply wrapping_Ok, binary_Read_Ok in E1 as (_ & -> & H1).
    apply mbind_Ok in E as (len & p2 & E2 & E).
    apply wrapping_Ok, ReadLength_Ok in E2 as (H2 & H2').
    apply mbind_Ok in E as (s3 & p3 & E3 & E).
    apply wrapping_Ok, Seek_0_Ok in E3 as [-> ->].
    apply mbind_Ok in E as (arr & p4 & E4 & E).
    destruct (Hitems ty len p2 ltac:(lia) ltac:(lia)) as [_ Ha].
    specialize (Ha arr p4 E4).
    apply mbind_Ok in E as (s5 & p5 & E5 & E).
    apply wrapping_Ok, Seek_0_Ok in E5 as [-> ->].
    injection E as _ <-. lia.
Qed.

(** [ReadValue] in materializing mode, with fuel for the rest of the
    file: it returns, and the cursor does not move back. *)
Lemma ReadValue_materialize (rd : _GGUFReader) (fuel : nat) :
  SkipLargeMetadata (rd_o rd) = false ->
  forall vt pos,
    (0 < fuel)%nat -> file_size (rd_f rd) - pos < Z.of_nat fuel ->
    Reader.ReadValue rd fuel vt pos <> OutOfFuel
    /\ forall a p', Reader.ReadValue rd fuel vt pos = Ok (a, p') -> pos <= p'.
Proof.
  intros Hmode. induction fuel as [| fuel IH]; intros vt pos Hpos Hfuel; [lia |].
  cbn [Reader.ReadValue].
  repeat match goal with
         | |- context [if ?c then _ else _] =>
             destruct c;
             [ first
                 [ apply good_mfail
                 | apply good_mbind;
                   [ first [ apply good_ReadUint8 | apply good_ReadInt8
                           | apply good_ReadUint16 | apply good_ReadInt16
                           | apply good_ReadUint32 | apply good_ReadInt32
                           | apply good_ReadFloat32 | apply good_ReadBool
                           | apply good_ReadString | apply good_ReadUint64
                           | apply good_ReadInt64 | apply good_ReadFloat64 ]
                   | intros; apply good_mret ]
                 | idtac ] |]
         end; [| apply good_mpanic].
  destruct (ReadArray_materialize rd (Reader.ReadValue rd fuel) pos Hmode) as [Hs Ha].
  { intros ty p Hp Hsz. apply IH; lia. }
  split.
  - intros E. apply mbind_OutOfFuel in E as [E | (a & p1 & _ & E)]; [now apply Hs | discriminate E].
  - intros a p' E. apply mbind_Ok in E as (av & p1 & E1 & E2).
    injection E2 as _ <-. now apply (Ha av).
Qed.

(** [ReadValue] in either mode, from inside the file, with the fuel that
    the metadata reader hands in. *)
Lemma fine_ReadValue (rd : _GGUFReader) (vt : Z) :
  fine (Reader.ReadValue rd (Reader.depth rd) vt).
Proof.
  destruct (SkipLargeMetadata (rd_o rd)) eqn:Hmode.
  - unfold Reader.depth. cbn [Reader.ReadValue].
    repeat match goal with
           | |- context [if ?c then _ else _] =>
               destruct c;
               [ first
                   [ apply good_fine, good_mfail
                   | apply good_fine, good_mbind;
                     [ first [ apply good_ReadUint8 | apply good_ReadInt8
                             | apply good_ReadUint16 | apply good_ReadInt16
                             | apply good_ReadUint32 | apply good_ReadInt32
                             | apply good_ReadFloat32 | apply good_ReadBool
                             | apply good_ReadString | apply good_ReadUint64
                             | apply good_ReadInt64 | apply good_ReadFloat64 ]
                     | intros; apply good_mret ]
                   | idtac ] |]
           end; [| apply good_fine, good_mpanic].
    apply fine_mbind; [now apply fine_ReadArray_skip | intros; apply good_fine, good_mret].
  - intros pos Hpos.
    destruct (ReadValue_materialize rd (Reader.depth rd) Hmode vt pos) as [Hs Ha].
    + unfold Reader.depth. lia.
    + unfold Reader.depth, file_size. lia.
    + split; [exact Hs |]. intros a p' E. specialize (Ha a p' E). lia.
Qed.

Lemma for_range_returns {S} (n : nat) (i : Z) (body : Z -> S -> Result S) (s : S) :
  (forall j x, body j x <> OutOfFuel) -> for_range n i body s <> OutOfFuel.
Proof.
  intros Hbody. revert i s. induction n as [| n IH]; intros i s; cbn; [discriminate |].
  specialize (Hbody i s). destruct (body i s); cbn; try discriminate; [apply IH | congruence].
Qed.

Lemma index_returns {A} (s : list A) (i : Z) : index s i <> OutOfFuel.
Proof. unfold index. destruct (_ && _); [destruct (nth_error _ _) |]; discriminate. Qed.

Lemma Elements_returns (ti : GGUFTensorInfo) : TensorInfo.Elements ti <> OutOfFuel.
Proof.
  unfold TensorInfo.Elements, for_. destruct (_ =? _); [discriminate |].
  apply for_range_returns. intros j x. pose proof (index_returns (ti_Dimensions ti) j).
  destruct (index _ _); cbn; congruence.
Qed.

Lemma flat_Elements_returns (tis : GGUFTensorInfos) : TensorInfos.Elements tis <> OutOfFuel.
Proof.
  unfold TensorInfos.Elements. generalize 0. induction tis as [| ti tis IH]; intros acc; cbn.
  - discriminate.
  - pose proof (Elements_returns ti).
    destruct (TensorInfo.Elements ti); cbn; [apply IH | discriminate | discriminate | congruence].
Qed.

Lemma fine_MetadataReader_Read (rd : _GGUFReader) : fine (Reader.MetadataReader_Read rd).
Proof.
  unfold Reader.MetadataReader_Read.
  apply fine_mbind; [apply good_fine, good_wrapping, good_ReadString | intros key].
  apply fine_mbind; [apply good_fine, good_wrapping, good_ReadUint32 | intros vt].
  destruct (_ <=? _); [apply good_fine, good_mfail |].
  apply fine_mbind; [apply fine_wrapping, fine_ReadValue | intros; apply good_fine, good_mret].
Qed.

Lemma good_TensorInfoReader_Read `{GGMLDecls} (rd : _GGUFReader) :
  good (Reader.TensorInfoReader_Read rd).
Proof.
  unfold Reader.TensorInfoReader_Read.
  apply good_mbind; [apply good_wrapping, good_Seek_0 | intros ?].
  apply good_mbind; [apply good_wrapping, good_ReadString | intros ?].
  apply good_mbind; [apply good_wrapping, good_ReadUint32 | intros ?].
  apply good_mbind.
  { apply good_forM. intros i x.
    apply good_mbind; [apply good_wrapping_at, good_ReadLength | intros; apply good_mret]. }
  intros ?. apply good_mbind; [apply good_wrapping, good_ReadUint32 | intros v].
  destruct (_ <=? _); [apply good_mfail |].
  apply good_mbind; [apply good_wrapping, good_ReadUint64 | intros; apply good_mret].
Qed.

Lemma fine_after_magic `{GGMLDecls} (magic : Z) (bo : ByteOrder) (s : Z)
    (f : ReadSeeker) (o : _GGUFReadOptions) :
  fine (Parse.after_magic magic bo s f o).
Proof.
  unfold Parse.after_magic.
  apply fine_mbind; [apply good_fine, good_wrapping, good_binary_Read; lia | intros version].
  apply fine_mbind; [apply good_fine, good_wrapping, good_ReadLength | intros tc].
  apply fine_mbind; [apply good_fine, good_wrapping, good_ReadLength | intros kc].
  apply fine_mbind.
  { apply fine_forM. intros i x.
    apply fine_mbind; [apply fine_wrapping_at, fine_MetadataReader_Read |].
    intros; apply good_fine, good_mret. }
  intros kvs. apply fine_mbind.
  { apply good_fine, good_forM. intros i x.
    apply good_mbind; [apply good_wrapping_at, good_TensorInfoReader_Read |].
    intros; apply good_mret. }
  intros tis.
  apply fine_mbind; [apply good_fine, good_wrapping, good_Seek_0 | intros pds].
  apply fine_mbind.
  { apply good_fine, good_lift. unfold Parse.alignment, MetadataKV.ValueUint32.
    destruct (MetadataKV.Get _ _) as [kv |]; [| discriminate].
    destruct (negb _); [discriminate |]. destruct (kv_Value kv); discriminate. }
  intros ag. apply fine_mbind.
  { apply good_fine, good_lift. unfold Parse.padding. destruct (_ =? _); discriminate. }
  intros pad. apply fine_mbind; [apply good_fine, good_lift, flat_Elements_returns |].
  intros; apply good_fine, good_mret.
Qed.

(** The decoder returns a file, an error or a panic on every input: the
    bound on the nesting of arrays is never reached. *)
Lemma parseGGUFFile_returns `{GGMLDecls} (s : Z) (f : ReadSeeker) (o : _GGUFReadOptions) :
  Parse.parseGGUFFile s f o <> OutOfFuel.
Proof.
  rewrite parseGGUFFile_unfold.
  destruct (_ <=? _); [discriminate |]. destruct (_ <? _); [discriminate |].
  cbv zeta. destruct (Parse.classify _) eqn:Hc; try discriminate.
  - destruct (fine_after_magic (le_val (firstn 4 (content f))) a s f o 4 ltac:(lia)) as [Hs _].
    destruct (Parse.after_magic _ _ _ _ _ _) as [[gf p] | | |]; cbn; congruence.
  - unfold Parse.classify in Hc. repeat (destruct (_ || _) || destruct (_ =? _)); discriminate.
Qed.

(** ** C4: arrays whose items are not arrays, in the two modes *)

Lemma byte_val_of_Z (z : Z) : byte_val (byte_of_Z z) = z mod 256.
Proof.
  unfold byte_val, byte_of_Z.
  pose proof (Z.mod_pos_bound z 256 ltac:(lia)) as Hz.
  destruct (Byte.of_N (Z.to_N (z mod 256))) as [b |] eqn:E.
  - apply Byte.to_of_N in E. rewrite E. lia.
  - apply Byte.of_N_None_iff in E. lia.
Qed.

Lemma le_val_put_le (n : nat) (x : Z) :
  le_val (put_le n x) = x mod 256 ^ Z.of_nat n.
Proof.
  revert x. induction n as [| n IH]; intros x.
  - cbn. now rewrite Z.mod_1_r.
  - cbn [put_le le_val]. rewrite byte_val_of_Z, IH.
    rewrite Nat2Z.inj_succ, Z.pow_succ_r by lia.
    rewrite Z.rem_mul_r; [reflexivity | lia |].
    apply Z.pow_pos_nonneg; lia.
Qed.

Lemma decode_put (bo : ByteOrder) (n : nat) (x : Z) :
  0 <= x < 256 ^ Z.of_nat n -> decode bo (put bo n x) = x.
Proof.
  intros Hx. destruct bo; cbn [decode put]; rewrite ?rev_involutive, le_val_put_le;
    now apply Z.mod_small.
Qed.

Lemma length_put_le (n : nat) (x : Z) : length (put_le n x) = n.
Proof. revert x. induction n as [| n IH]; intros x; cbn; [reflexivity | now rewrite IH]. Qed.

Lemma length_put (bo : ByteOrder) (n : nat) (x : Z) : length (put bo n x) = n.
Proof. destruct bo; cbn [put]; rewrite ?length_rev; apply length_put_le. Qed.

Lemma mbind_step {A B} (m : M A) (k : A -> M B) (pos : Z) (a : A) (p1 : Z) :
  m pos = Ok (a, p1) -> mbind m k pos = k a p1.
Proof. intros E. unfold mbind. now rewrite E. Qed.

Lemma wrapping_step {A} (ctx : string) (m : M A) (pos : Z) (r : A * Z) :
  m pos = Ok r -> wrapping ctx m pos = Ok r.
Proof. intros E. unfold wrapping. now rewrite E. Qed.

Lemma wrapping_at_step {A} (ctx : string) (i : Z) (m : M A) (pos : Z) (r : A * Z) :
  m pos = Ok r -> wrapping_at ctx i m pos = Ok r.
Proof. intros E. unfold wrapping_at. now rewrite E. Qed.

Lemma Seek_within (f : ReadSeeker) (off pos : Z) :
  0 <= pos + off < 2 ^ 63 -> Seek f off pos = Ok (pos + off, pos + off).
Proof.
  intros H. unfold Seek.
  rewrite (proj2 (Z.ltb_ge _ _)) by lia. now rewrite (proj2 (Z.leb_gt _ _)) by lia.
Qed.

(** The bytes of a file between a prefix and a suffix. *)
Lemma slice_middle (f : ReadSeeker) (a x b : list byte) :
  content f = a ++ x ++ b ->
  slice f (Z.of_nat (length a)) (Z.of_nat (length x)) = x.
Proof.
  intros Hf. unfold slice. rewrite Hf, !Nat2Z.id.
  now rewrite drop_app_length, take_app_length.
Qed.

Lemma file_size_middle (f : ReadSeeker) (a x b : list byte) :
  content f = a ++ x ++ b ->
  file_size f = Z.of_nat (length a) + Z.of_nat (length x) + Z.of_nat (length b).
Proof. intros Hf. unfold file_size. rewrite Hf, !length_app. lia. Qed.

Lemma ReadFull_available (f : ReadSeeker) (n pos : Z) :
  0 < n -> pos + n <= file_size f -> ReadFull f n pos = Ok (slice f pos n, pos + n).
Proof.
  intros Hn Hle. unfold ReadFull.
  rewrite (proj2 (Z.leb_gt _ _)) by lia. now rewrite (proj2 (Z.ltb_ge _ _)) by lia.
Qed.

Lemma binary_Read_available (f : ReadSeeker) (bo : ByteOrder) (n pos : Z) :
  0 < n -> pos + n <= file_size f ->
  binary_Read f bo n pos = Ok (decode bo (slice f pos n), pos + n).
Proof.
  intros Hn Hle. unfold binary_Read, mbind. now rewrite ReadFull_available.
Qed.

(** Reading back a field written by [put] between a prefix and a suffix. *)
Lemma binary_Read_put (f : ReadSeeker) (a b : list byte) (bo : ByteOrder) (n : nat) (x : Z) :
  content f = a ++ put bo n x ++ b ->
  (0 < n)%nat -> 0 <= x < 256 ^ Z.of_nat n ->
  binary_Read f bo (Z.of_nat n) (Z.of_nat (length a))
  = Ok (x, Z.of_nat (length a) + Z.of_nat n).
Proof.
  intros Hf Hn Hx. rewrite binary_Read_available.
  - pose proof (slice_middle f a (put bo n x) b Hf) as E. rewrite length_put in E.
    now rewrite E, decode_put.
  - lia.
  - rewrite (file_size_middle f _ _ _ Hf), length_put. lia.
Qed.

Lemma length_put_length (v : Z) (bo : ByteOrder) (n : Z) :
  length (put_length v bo n) = if v <=? GGUFVersionV1 then 4%nat else 8%nat.
Proof. unfold put_length. destruct (_ <=? _); apply length_put. Qed.

Lemma ReadLength_put (rd : _GGUFReader) (a b : list byte) (n : Z) :
  content (rd_f rd) = a ++ put_length (rd_v rd) (rd_bo rd) n ++ b ->
  fits_length (rd_v rd) n ->
  Reader.ReadLength rd (Z.of_nat (length a))
  = Ok (n, Z.of_nat (length a)
           + Z.of_nat (length (put_length (rd_v rd) (rd_bo rd) n))).
Proof.
  unfold fits_length. rewrite length_put_length.
  unfold Reader.ReadLength, Reader.ReadUint64FromUint32, Reader.ReadUint32,
    Reader.ReadUint64, put_length.
  destruct (rd_v rd <=? GGUFVersionV1); intros Hf Hn; apply wrapping_step.
  - apply (binary_Read_put (rd_f rd) a b (rd_bo rd) 4 n Hf); [lia |].
    change (256 ^ Z.of_nat 4) with (2 ^ 32). lia.
  - apply (binary_Read_put (rd_f rd) a b (rd_bo rd) 8 n Hf); [lia |].
    change (256 ^ Z.of_nat 8) with (2 ^ 64). lia.
Qed.



Section FlatArrays.
Variable rd : _GGUFReader.


Lemma length_GetBytes (l : nat) : Z.of_nat (length (GetBytes (Z.of_nat l))) = Z.of_nat l.
Proof. unfold GetBytes. now rewrite repeat_length, Nat2Z.id. Qed.







End FlatArrays.





(** ** What the decoder stores under a tag *)

Lemma ReadValue_stored (rd : _GGUFReader) (fuel : nat) (vt pos : Z) (x : any) (p' : Z) :
  Reader.ReadValue rd fuel vt pos = Ok (x, p') -> MetadataKV.stored vt x.
Proof.
  destruct fuel as [| fuel]; [discriminate |]. cbn [Reader.ReadValue].
  destruct (_ <=? _); [discriminate |].
  repeat match goal with
         | |- (if ?a =? ?b then _ else _) _ = _ -> _ =>
             destruct (Z.eqb_spec a b) as [-> | _];
             [ let E := fresh in
               intros E; apply mbind_Ok in E as (? & ? & _ & E);
               injection E as <- _; reflexivity |]
         end.
  discriminate.
Qed.

(** Every metadata entry of a decoded value has a value of its tag. *)
Lemma MetadataReader_Read_stored (rd : _GGUFReader) (pos : Z) (kv : GGUFMetadataKV) (p' : Z) :
  Reader.MetadataReader_Read rd pos = Ok (kv, p') ->
  MetadataKV.stored (kv_ValueType kv) (kv_Value kv).
Proof.
  intros E. unfold Reader.MetadataReader_Read in E.
  apply mbind_Ok in E as (key & p1 & _ & E).
  apply mbind_Ok in E as (vt & p2 & _ & E).
  destruct (_ <=? _); [discriminate E |].
  apply mbind_Ok in E as (x & p3 & Ex & E).
  injection E as <- _. cbn. apply wrapping_Ok in Ex. now apply ReadValue_stored in Ex.
Qed.

(** * Further properties of the code *)

(** ** Lookups by key *)

(** X3.  [GGUFMetadataKVs.Get] returns the first entry in file order that
    carries the key, and reports not found exactly when no entry carries
    it. *)
Theorem kvs_Get_first_match (kvs : GGUFMetadataKVs) (key : string) :
  match MetadataKV.Get kvs key with
  | Some kv =>
      exists before after,
        kvs = before ++ kv :: after /\ kv_Key kv = key /\
        Forall (fun x => kv_Key x <> key) before
  | None => Forall (fun x => kv_Key x <> key) kvs
  end.
Proof.
  induction kvs as [|kv kvs IH]; cbn.
  - constructor.
  - destruct (String.eqb_spec (kv_Key kv) key) as [He|He].
    + exists [], kvs. repeat split; auto.
    + destruct (MetadataKV.Get kvs key) as [kv'|].
      * destruct IH as (b & a & -> & Hk & Hb).
        exists (kv :: b), a. repeat split; auto.
      * constructor; auto.
Qed.

Lemma dom_full `{Countable K} {A} (m : gmap K A) (ks : gset K) (k : K) :
  dom m ⊆ ks -> Z.of_nat (size m) = Z.of_nat (size ks) -> m !! k = None -> k ∉ ks.
Proof.
  intros Hsub Hsz Hk Hin.
  assert (Heq : dom m = ks).
  { apply set_subseteq_size_eq; [exact Hsub|]. rewrite size_dom. lia. }
  subst ks. apply elem_of_dom in Hin. rewrite Hk in Hin. destruct Hin; discriminate.
Qed.

Lemma kvs_Index_loop_unique (ks : gset string) (kvs : GGUFMetadataKVs) :
  forall (values : gmap string GGUFMetadataKV) (found : Z),
    List.NoDup (map kv_Key kvs) ->
    dom values ⊆ ks ->
    (forall kv, In kv kvs -> values !! kv_Key kv = None) ->
    found = Z.of_nat (size values) ->
    let '(values', found') := MetadataKV.Index_loop ks kvs values found in
    found' = Z.of_nat (size values') /\
    forall k, values' !! k =
      match values !! k with
      | Some v => Some v
      | None => if decide (k ∈ ks) then MetadataKV.Get kvs k else None
      end.
Proof.
  induction kvs as [|kv kvs IH]; intros values found Hnd Hsub Hfresh Hfound; cbn.
  - split; [exact Hfound|]. intros k. destruct (values !! k); [reflexivity|].
    destruct (decide (k ∈ ks)); reflexivity.
  - cbn in Hnd. apply List.NoDup_cons_iff in Hnd as [Hnotin Hnd']. subst found.
    assert (Hkv : values !! kv_Key kv = None) by (apply Hfresh; left; reflexivity).
    destruct (decide (kv_Key kv ∈ ks)) as [Hin|Hout].
    + assert (Hsz : Z.of_nat (size values) + 1
                    = Z.of_nat (size (<[kv_Key kv := kv]> values))).
      { rewrite map_size_insert_None by exact Hkv. lia. }
      assert (Hsub' : dom (<[kv_Key kv := kv]> values) ⊆ ks).
      { rewrite dom_insert_L. intros x Hx. apply elem_of_union in Hx as [Hx|Hx].
        - apply elem_of_singleton in Hx. subst x. exact Hin.
        - apply Hsub. exact Hx. }
      destruct (Z.eqb_spec (Z.of_nat (size values) + 1) (Z.of_nat (size ks))) as [He|Hne].
      * split; [exact Hsz|]. intros k.
        destruct (decide (k = kv_Key kv)) as [->|Hk].
        -- rewrite lookup_insert_eq, Hkv. rewrite decide_True by exact Hin.
           rewrite String.eqb_refl. reflexivity.
        -- rewrite lookup_insert_ne by congruence.
           destruct (values !! k) eqn:Hv; [reflexivity|].
           rewrite decide_False; [reflexivity|].
           apply (dom_full (<[kv_Key kv := kv]> values)); [exact Hsub'|lia|].
           rewrite lookup_insert_ne by congruence. exact Hv.
      * specialize (IH (<[kv_Key kv := kv]> values) (Z.of_nat (size values) + 1) Hnd' Hsub').
        destruct (MetadataKV.Index_loop ks kvs _ _) as [values' found'].
        destruct IH as [IH1 IH2]; [|exact Hsz|].
        { intros kv' Hin'. rewrite lookup_insert_ne.
          - apply Hfresh. right. exact Hin'.
          - intros E. apply Hnotin. rewrite E. apply in_map. exact Hin'. }
        split; [exact IH1|]. intros k. rewrite IH2.
        destruct (decide (k = kv_Key kv)) as [->|Hk].
        -- rewrite lookup_insert_eq, Hkv. rewrite decide_True by exact Hin.
           rewrite String.eqb_refl. reflexivity.
        -- rewrite lookup_insert_ne by congruence.
           destruct (values !! k); [reflexivity|].
           destruct (String.eqb_spec (kv_Key kv) k); [congruence|reflexivity].
    + destruct (Z.eqb_spec (Z.of_nat (size values)) (Z.of_nat (size ks))) as [He|Hne].
      * split; [reflexivity|]. intros k.
        destruct (values !! k) eqn:Hv; [reflexivity|].
        rewrite decide_False; [reflexivity|].
        apply (dom_full values); [exact Hsub|lia|exact Hv].
      * specialize (IH values (Z.of_nat (size values)) Hnd' Hsub).
        destruct (MetadataKV.Index_loop ks kvs _ _) as [values' found'].
        destruct IH as [IH1 IH2]; [|reflexivity|].
        { intros kv' Hin'. apply Hfresh. right. exact Hin'. }
        split; [exact IH1|]. intros k. rewrite IH2.
        destruct (values !! k); [reflexivity|].
        destruct (decide (k ∈ ks)) as [Hk|Hk]; [|reflexivity].
        destruct (String.eqb_spec (kv_Key kv) k); [congruence|reflexivity].
Qed.

(** X4.  On metadata whose keys are pairwise distinct,
    [GGUFMetadataKVs.Index] returns exactly the requested entries that the
    list holds, each under its key, and [found] is the number of entries
    returned. *)
Theorem kvs_Index_unique_keys (kvs : GGUFMetadataKVs) (keys : list string) :
  List.NoDup (map kv_Key kvs) ->
  forall values found, MetadataKV.Index kvs keys = (values, found) ->
    found = Z.of_nat (size values) /\
    forall k, values !! k = if decide (k ∈ keys) then MetadataKV.Get kvs k else None.
Proof.
  intros Hnd values found HI. unfold MetadataKV.Index in HI.
  pose proof (kvs_Index_loop_unique (list_to_set keys) kvs ∅ 0 Hnd) as H.
  rewrite HI in H. destruct H as [H1 H2].
  - set_solver.
  - intros. apply lookup_empty.
  - rewrite map_size_empty. reflexivity.
  - split; [exact H1|]. intros k. rewrite H2, lookup_empty.
    destruct (decide (k ∈ keys)) as [Hk|Hk].
    + rewrite decide_True by (apply elem_of_list_to_set; exact Hk). reflexivity.
    + rewrite decide_False; [reflexivity|]. rewrite elem_of_list_to_set. exact Hk.
Qed.

Lemma tis_Index_loop_unique (ks : gset string) (kvs : GGUFTensorInfos) :
  forall (values : gmap string GGUFTensorInfo) (found : Z),
    List.NoDup (map ti_Name kvs) ->
    dom values ⊆ ks ->
    (forall kv, In kv kvs -> values !! ti_Name kv = None) ->
    found = Z.of_nat (size values) ->
    let '(values', found') := TensorInfos.Index_loop ks kvs values found in
    found' = Z.of_nat (size values') /\
    forall k, values' !! k =
      match values !! k with
      | Some v => Some v
      | None => if decide (k ∈ ks) then TensorInfos.Get kvs k else None
      end.
Proof.
  induction kvs as [|kv kvs IH]; intros values found Hnd Hsub Hfresh Hfound; cbn.
  - split; [exact Hfound|]. intros k. destruct (values !! k); [reflexivity|].
    destruct (decide (k ∈ ks)); reflexivity.
  - cbn in Hnd. apply List.NoDup_cons_iff in Hnd as [Hnotin Hnd']. subst found.
    assert (Hkv : values !! ti_Name kv = None) by (apply Hfresh; left; reflexivity).
    destruct (decide (ti_Name kv ∈ ks)) as [Hin|Hout].
    + assert (Hsz : Z.of_nat (size values) + 1
                    = Z.of_nat (size (<[ti_Name kv := kv]> values))).
      { rewrite map_size_insert_None by exact Hkv. lia. }
      assert (Hsub' : dom (<[ti_Name kv := kv]> values) ⊆ ks).
      { rewrite dom_insert_L. intros x Hx. apply elem_of_union in Hx as [Hx|Hx].
        - apply elem_of_singleton in Hx. subst x. exact Hin.
        - apply Hsub. exact Hx. }
      destruct (Z.eqb_spec (Z.of_nat (size values) + 1) (Z.of_nat (size ks))) as [He|Hne].
      * split; [exact Hsz|]. intros k.
        destruct (decide (k = ti_Name kv)) as [->|Hk].
        -- rewrite lookup_insert_eq, Hkv. rewrite decide_True by exact Hin.
           rewrite String.eqb_refl. reflexivity.
        -- rewrite lookup_insert_ne by congruence.
           destruct (values !! k) eqn:Hv; [reflexivity|].
           rewrite decide_False; [reflexivity|].
           apply (dom_full (<[ti_Name kv := kv]> values)); [exact Hsub'|lia|].
           rewrite lookup_insert_ne by congruence. exact Hv.
      * specialize (IH (<[ti_Name kv := kv]> values) (Z.of_nat (size values) + 1) Hnd' Hsub').
        destruct (TensorInfos.Index_loop ks kvs _ _) as [values' found'].
        destruct IH as [IH1 IH2]; [|exact Hsz|].
        { intros kv' Hin'. rewrite lookup_insert_ne.
          - apply Hfresh. right. exact Hin'.
          - intros E. apply Hnotin. rewrite E. apply in_map. exact Hin'. }
        split; [exact IH1|]. intros k. rewrite IH2.
        destruct (decide (k = ti_Name kv)) as [->|Hk].
        -- rewrite lookup_insert_eq, Hkv. rewrite decide_True by exact Hin.
           rewrite String.eqb_refl. reflexivity.
        -- rewrite lookup_insert_ne by congruence.
           destruct (values !! k); [reflexivity|].
           destruct (String.eqb_spec (ti_Name kv) k); [congruence|reflexivity].
    + destruct (Z.eqb_spec (Z.of_nat (size values)) (Z.of_nat (size ks))) as [He|Hne].
      * split; [reflexivity|]. intros k.
        destruct (values !! k) eqn:Hv; [reflexivity|].
        rewrite decide_False; [reflexivity|].
        apply (dom_full values); [exact Hsub|lia|exact Hv].
      * specialize (IH values (Z.of_nat (size values)) Hnd' Hsub).
        destruct (TensorInfos.Index_loop ks kvs _ _) as [values' found'].
        destruct IH as [IH1 IH2]; [|reflexivity|].
        { intros kv' Hin'. apply Hfresh. right. exact Hin'. }
        split; [exact IH1|]. intros k. rewrite IH2.
        destruct (values !! k); [reflexivity|].
        destruct (decide (k ∈ ks)) as [Hk|Hk]; [|reflexivity].
        destruct (String.eqb_spec (ti_Name kv) k); [congruence|reflexivity].
Qed.

(** X5.  On a tensor list whose names are pairwise distinct,
    [GGUFTensorInfos.Index] returns exactly the requested tensors that the
    list holds, each under its name, and [found] is the number of tensors
    returned. *)
Theorem tis_Index_unique_names (kvs : GGUFTensorInfos) (keys : list string) :
  List.NoDup (map ti_Name kvs) ->
  forall values found, TensorInfos.Index kvs keys = (values, found) ->
    found = Z.of_nat (size values) /\
    forall k, values !! k = if decide (k ∈ keys) then TensorInfos.Get kvs k else None.
Proof.
  intros Hnd values found HI. unfold TensorInfos.Index in HI.
  pose proof (tis_Index_loop_unique (list_to_set keys) kvs ∅ 0 Hnd) as H.
  rewrite HI in H. destruct H as [H1 H2].
  - set_solver.
  - intros. apply lookup_empty.
  - rewrite map_size_empty. reflexivity.
  - split; [exact H1|]. intros k. rewrite H2, lookup_empty.
    destruct (decide (k ∈ keys)) as [Hk|Hk].
    + rewrite decide_True by (apply elem_of_list_to_set; exact Hk). reflexivity.
    + rewrite decide_False; [reflexivity|]. rewrite elem_of_list_to_set. exact Hk.
Qed.

Lemma kvs_Index_unique_keys_witness :
  snd (MetadataKV.Index metadata_two_keys ["general.alignment"; "general.name"])
    = Z.of_nat (size (fst (MetadataKV.Index metadata_two_keys
                             ["general.alignment"; "general.name"])))
  /\ forall k,
       fst (MetadataKV.Index metadata_two_keys ["general.alignment"; "general.name"]) !! k
       = if decide (k ∈ ["general.alignment"; "general.name"])
         then MetadataKV.Get metadata_two_keys k else None.
Proof.
  apply (kvs_Index_unique_keys metadata_two_keys ["general.alignment"; "general.name"]).
  - cbn. repeat constructor; cbn; intuition discriminate.
  - destruct (MetadataKV.Index _ _); reflexivity.
Defined.

Lemma tis_Index_unique_names_witness :
  snd (TensorInfos.Index tensors_two_groups ["output.weight"; "token_embd.weight"])
    = Z.of_nat (size (fst (TensorInfos.Index tensors_two_groups
                             ["output.weight"; "token_embd.weight"])))
  /\ forall k,
       fst (TensorInfos.Index tensors_two_groups ["output.weight"; "token_embd.weight"]) !! k
       = if decide (k ∈ ["output.weight"; "token_embd.weight"])
         then TensorInfos.Get tensors_two_groups k else None.
Proof.
  apply (tis_Index_unique_names tensors_two_groups ["output.weight"; "token_embd.weight"]).
  - cbn. repeat constructor; cbn; intuition discriminate.
  - destruct (TensorInfos.Index _ _); reflexivity.
Defined.

(** X6.  [found] counts the entries visited, not the keys: when two
    entries carry the same requested key, [GGUFMetadataKVs.Index] reaches
    [found == len(keys)] at the second one and leaves the loop, so a
    second requested key is never looked for in the rest of the list; the
    map holds the later of the two entries. *)
Theorem kvs_Index_duplicate_key_stops_early
    (a b : GGUFMetadataKV) (k2 : string) (rest : GGUFMetadataKVs) :
  kv_Key a = kv_Key b -> k2 <> kv_Key a ->
  MetadataKV.Index (a :: b :: rest) [kv_Key a; k2] = ({[ kv_Key a := b ]}, 2).
Proof.
  intros Hab Hk2. unfold MetadataKV.Index.
  assert (Hsz : size (list_to_set [kv_Key a; k2] : gset string) = 2%nat).
  { cbn. rewrite union_empty_r_L, size_union, !size_singleton; [reflexivity|].
    apply disjoint_singleton_l. rewrite elem_of_singleton. congruence. }
  cbn [MetadataKV.Index_loop]. rewrite Hsz.
  rewrite decide_True by set_solver.
  change (0 + 1 =? Z.of_nat 2) with false. cbv iota.
  rewrite decide_True by (rewrite <- Hab; set_solver).
  change (0 + 1 + 1 =? Z.of_nat 2) with true. cbv iota.
  rewrite <- Hab. rewrite insert_insert_eq. reflexivity.
Qed.

Lemma kvs_Index_duplicate_key_stops_early_witness :
  MetadataKV.Index
    ({| kv_Key := "general.name"; kv_ValueType := 8; kv_Value := AString "a" |}
     :: {| kv_Key := "general.name"; kv_ValueType := 8; kv_Value := AString "b" |}
     :: metadata_two_keys)
    ["general.name"; "general.alignment"]
  = ({[ "general.name" :=
          {| kv_Key := "general.name"; kv_ValueType := 8; kv_Value := AString "b" |} ]}, 2).
Proof.
  apply (kvs_Index_duplicate_key_stops_early
           {| kv_Key := "general.name"; kv_ValueType := 8; kv_Value := AString "a" |}
           {| kv_Key := "general.name"; kv_ValueType := 8; kv_Value := AString "b" |}
           "general.alignment" metadata_two_keys).
  - reflexivity.
  - cbn. discriminate.
Defined.

(** ** Lookups in the hierarchy *)

Lemma flat_Get_app (l1 l2 : GGUFTensorInfos) (name : string) :
  TensorInfos.Get (l1 ++ l2) name =
    match TensorInfos.Get l1 name with
    | Some ti => Some ti
    | None => TensorInfos.Get l2 name
    end.
Proof.
  induction l1 as [|ti l1 IH]; cbn; [reflexivity|].
  destruct (String.eqb (ti_Name ti) name); [reflexivity|exact IH].
Qed.

Lemma item_Get_leaves (v : IGGUFTensorInfos) (name : string) :
  LayerTensorInfos.item_Get v name =
    TensorInfos.Get (LayerTensorInfos.leaves_item v) name.
Proof.
  induction v as [ti | n items IH] using IGGUFTensorInfos_nested_ind; cbn.
  - destruct (String.eqb (ti_Name ti) name); reflexivity.
  - induction IH as [| x items Hx _ IHitems]; cbn; [reflexivity|].
    rewrite flat_Get_app, Hx.
    destruct (TensorInfos.Get (LayerTensorInfos.leaves_item x) name); [reflexivity|].
    exact IHitems.
Qed.

Lemma item_Search_leaves (m : string -> bool) (v : IGGUFTensorInfos) :
  LayerTensorInfos.item_Search m v =
    TensorInfos.Search (LayerTensorInfos.leaves_item v) m.
Proof.
  unfold TensorInfos.Search.
  induction v as [ti | n items IH] using IGGUFTensorInfos_nested_ind; cbn.
  - destruct (m (ti_Name ti)); reflexivity.
  - induction IH as [| x items Hx _ IHitems]; cbn; [reflexivity|].
    rewrite List.filter_app, Hx. f_equal. exact IHitems.
Qed.

Lemma tree_Get_leaves (ltis : GGUFLayerTensorInfos) (name : string) :
  LayerTensorInfos.Get ltis name = TensorInfos.Get (LayerTensorInfos.leaves ltis) name.
Proof.
  unfold LayerTensorInfos.leaves.
  induction ltis as [|x ltis IH]; cbn; [reflexivity|].
  rewrite flat_Get_app, item_Get_leaves.
  destruct (TensorInfos.Get (LayerTensorInfos.leaves_item x) name); [reflexivity|exact IH].
Qed.

Lemma tree_Search_leaves (ltis : GGUFLayerTensorInfos) (m : string -> bool) :
  LayerTensorInfos.Search ltis m = TensorInfos.Search (LayerTensorInfos.leaves ltis) m.
Proof.
  unfold LayerTensorInfos.leaves, LayerTensorInfos.Search, TensorInfos.Search.
  induction ltis as [|x ltis IH]; cbn; [reflexivity|].
  rewrite List.filter_app, item_Search_leaves. unfold TensorInfos.Search.
  f_equal. exact IH.
Qed.


Lemma flat_Get_Some (l : GGUFTensorInfos) (name : string) (ti : GGUFTensorInfo) :
  List.NoDup (map ti_Name l) ->
  TensorInfos.Get l name = Some ti <-> In ti l /\ ti_Name ti = name.
Proof.
  induction l as [|x l IH]; cbn; intros Hnd.
  - split; [discriminate|tauto].
  - apply List.NoDup_cons_iff in Hnd as [Hx Hnd].
    destruct (String.eqb_spec (ti_Name x) name) as [He|He].
    + split.
      * intros [= ->]. auto.
      * intros [[->|Hin] Hn]; [reflexivity|].
        exfalso. apply Hx. rewrite He, <- Hn. apply in_map. exact Hin.
    + rewrite (IH Hnd). split.
      * intros [Hin Hn]. auto.
      * intros [[->|Hin] Hn]; [congruence|auto].
Qed.

Lemma flat_Get_perm (l l' : GGUFTensorInfos) (name : string) :
  List.NoDup (map ti_Name l) -> Permutation l l' ->
  TensorInfos.Get l name = TensorInfos.Get l' name.
Proof.
  intros Hnd Hp.
  assert (Hnd' : List.NoDup (map ti_Name l')).
  { eapply Permutation_NoDup; [|exact Hnd]. apply Permutation_map. exact Hp. }
  destruct (TensorInfos.Get l name) as [ti|] eqn:E.
  - symmetry. apply (flat_Get_Some l' name ti Hnd').
    apply (flat_Get_Some l name ti Hnd) in E as [Hin Hn].
    split; [|exact Hn]. eapply Permutation_in; eauto.
  - destruct (TensorInfos.Get l' name) as [ti|] eqn:E'; [|reflexivity].
    apply (flat_Get_Some l' name ti Hnd') in E' as [Hin Hn].
    assert (TensorInfos.Get l name = Some ti) as E2.
    { apply (flat_Get_Some l name ti Hnd). split; [|exact Hn].
      eapply Permutation_in; [symmetry; exact Hp|exact Hin]. }
    congruence.
Qed.

Lemma filter_perm {A} (f : A -> bool) (l l' : list A) :
  Permutation l l' -> Permutation (List.filter f l) (List.filter f l').
Proof.
  induction 1; cbn.
  - reflexivity.
  - destruct (f x); [constructor|]; assumption.
  - destruct (f x), (f y); try reflexivity; try (constructor; reflexivity).
  - etransitivity; eassumption.
Qed.

(** X8.  For a tensor list with pairwise distinct names, the tree built
    by [Layers] answers [Get] exactly as the flat list does, and [Search]
    returns the tensors the flat [Search] returns, in the order of the
    tree. *)
Theorem layers_Get_Search (tis : GGUFTensorInfos) :
  List.NoDup (map ti_Name tis) ->
  exists ltis,
    Layers.Layers tis [] = Ok ltis
    /\ (forall name, LayerTensorInfos.Get ltis name = TensorInfos.Get tis name)
    /\ (forall m, Permutation (LayerTensorInfos.Search ltis m) (TensorInfos.Search tis m)).
Proof.
  intros Hnd. destruct (layers_leaves tis) as (ltis & Hl & Hp).
  exists ltis. split; [unfold Layers.Layers; now rewrite Hl |].
  split.
  - intros name. rewrite tree_Get_leaves. symmetry. apply flat_Get_perm; [exact Hnd|].
    symmetry. exact Hp.
  - intros m. rewrite tree_Search_leaves. apply filter_perm. exact Hp.
Qed.

Lemma layers_Get_Search_witness :
  exists ltis,
    Layers.Layers tensors_two_groups [] = Ok ltis
    /\ (forall name,
          LayerTensorInfos.Get ltis name = TensorInfos.Get tensors_two_groups name)
    /\ (forall m, Permutation (LayerTensorInfos.Search ltis m)
                     (TensorInfos.Search tensors_two_groups m)).
Proof.
  apply layers_Get_Search. cbn.
  repeat constructor; cbn; intuition discriminate.
Defined.

(** ** The byte size of a tensor *)

Lemma prod_firstn_S (tl : list Z) (k : nat) (d : Z) :
  nth_error tl k = Some d ->
  fold_right Z.mul 1 (firstn (S k) tl) = fold_right Z.mul 1 (firstn k tl) * d.
Proof.
  revert k. induction tl as [|x l IH]; intros [|k] Hk; cbn in Hk; try discriminate.
  - injection Hk as ->. cbn. change (firstn 0 l) with (@nil Z). cbn. ring.
  - cbn [firstn fold_right]. rewrite (IH _ Hk). ring.
Qed.

Lemma stride_at_S (q : Z) (tl : list Z) (k : nat) (d : Z) :
  nth_error tl k = Some d -> stride_at q tl (S k) = uint64 (stride_at q tl k * d).
Proof.
  intros Hk. unfold stride_at. rewrite (prod_firstn_S tl k d Hk).
  rewrite wrap_mul_l. f_equal. ring.
Qed.

Lemma nth_error_strides (ts q : Z) (tl : list Z) (K k : nat) :
  (k < K)%nat ->
  nth_error (ts :: map (stride_at q tl) (seq 0 K)) (S k) = Some (stride_at q tl k).
Proof.
  intros Hk. cbn [nth_error]. rewrite nth_error_map, nth_error_seq.
  destruct (Nat.ltb_spec k K); [reflexivity | lia].
Qed.

Section TensorBytes.
Context `{GGMLDecls}.
Variables (ti : GGUFTensorInfo) (ts q d0 : Z) (tl : list Z).
Hypothesis Hdims : ti_Dimensions ti = d0 :: tl.

Lemma Bytes_nb_loop (m j : nat) :
  (m = 0 \/ j + m < length tl)%nat ->
  for_range m (Z.of_nat j + 2)
    (fun i nb =>
       p <-! index nb (i - 1);
       d <-! index (ti_Dimensions ti) (i - 1);
       Ok (nb ++ [uint64 (p * d)]))
    (ts :: map (stride_at q tl) (seq 0 (S j)))
  = Ok (ts :: map (stride_at q tl) (seq 0 (S j + m))).
Proof.
  revert j. induction m as [|m IH]; intros j Hm; cbn [for_range].
  - now rewrite Nat.add_0_r.
  - destruct Hm as [Hm|Hm]; [discriminate|].
    assert (exists d, nth_error tl j = Some d) as [d Hd].
    { destruct (nth_error tl j) eqn:E; [eauto|]. apply nth_error_None in E. lia. }
    replace (Z.of_nat j + 2 - 1) with (Z.of_nat (S j)) by lia.
    rewrite (index_nth _ (S j) (stride_at q tl j)) by (apply nth_error_strides; lia).
    cbn [rbind]. rewrite Hdims.
    rewrite (index_nth (d0 :: tl) (S j) d) by exact Hd.
    cbn [rbind].
    replace (Z.of_nat j + 2 + 1) with (Z.of_nat (S j) + 2) by lia.
    replace ((ts :: map (stride_at q tl) (seq 0 (S j))) ++ [uint64 (stride_at q tl j * d)])
      with (ts :: map (stride_at q tl) (seq 0 (S (S j)))).
    + rewrite <- Hdims. rewrite IH by lia.
      replace (S (S j) + m)%nat with (S j + S m)%nat by lia. reflexivity.
    + rewrite (seq_S (S j)), map_app. cbn [map app Nat.add].
      rewrite (stride_at_S q tl j d Hd). reflexivity.
Qed.

Lemma Bytes_step_loop (nb_len m j : nat) :
  (j + m = length tl)%nat -> (length tl <= nb_len)%nat ->
  for_range m (Z.of_nat j + 1)
    (TensorInfo.Bytes_step ti (ts :: map (stride_at q tl) (seq 0 nb_len)))
    (stride_at q tl j)
  = Ok (stride_at q tl (j + m)).
Proof.
  revert j. induction m as [|m IH]; intros j Hm Hlen; cbn [for_range].
  - now rewrite Nat.add_0_r.
  - assert (exists d, nth_error tl j = Some d) as [d Hd].
    { destruct (nth_error tl j) eqn:E; [eauto|]. apply nth_error_None in E. lia. }
    unfold TensorInfo.Bytes_step at 1. rewrite Hdims.
    replace (Z.of_nat j + 1) with (Z.of_nat (S j)) by lia.
    rewrite (index_nth (d0 :: tl) (S j) d) by exact Hd. cbn [rbind].
    rewrite (index_nth _ (S j) (stride_at q tl j)) by (apply nth_error_strides; lia).
    cbn [rbind].
    replace (uint64 (stride_at q tl j + uint64 (uint64 (d - 1) * stride_at q tl j)))
      with (stride_at q tl (S j)).
    + rewrite IH by lia.
      replace (S j + m)%nat with (j + S m)%nat by lia. reflexivity.
    + rewrite (stride_at_S q tl j d Hd). unfold wrap.
      rewrite Zmult_mod_idemp_l, Zplus_mod_idemp_r. f_equal. ring.
Qed.
End TensorBytes.

(** X9.  For a tensor whose dimension list has the declared, non-zero
    length, [GGUFTensorInfo.Bytes] is the block formula in [uint64]
    arithmetic: the size of one block times the number of blocks of the
    first dimension times the other dimensions.  For a type of block
    size 1 this is the type size times the number of elements; for a
    larger block size the first dimension is taken to be a whole number of
    blocks whose byte size fits in 64 bits. *)
Theorem tensor_Bytes_block_formula `{GGMLDecls}
    (ti : GGUFTensorInfo) (tr : GGMLTypeTrait) (d0 : Z) (tl : list Z) :
  Trait (ti_Type ti) = Some tr ->
  ti_Dimensions ti = d0 :: tl ->
  ti_NDimensions ti = Z.of_nat (length (d0 :: tl)) ->
  BlockSize tr = 1
  \/ (1 < BlockSize tr /\ (BlockSize tr | d0) /\ 0 <= d0 * TypeSize tr < 2 ^ 64) ->
  TensorInfo.Bytes ti
  = Ok (uint64 (TypeSize tr * (d0 / BlockSize tr) * fold_right Z.mul 1 tl)).
Proof.
  intros Htr Hdims Hn Hbs.
  set (ts := TypeSize tr). set (bs := BlockSize tr) in *.
  set (q := ts * (d0 / bs)).
  assert (Hlen : ti_NDimensions ti = Z.of_nat (length tl) + 1) by (rewrite Hn; cbn [length]; lia).
  assert (Hbs0 : bs <> 0) by lia.
  assert (Hfinal : stride_at q tl (0 + length tl) = uint64 (q * fold_right Z.mul 1 tl)).
  { unfold stride_at. cbn [Nat.add]. now rewrite firstn_all. }
  assert (Hs0 : uint64 (ts * (d0 / bs)) = stride_at q tl 0).
  { unfold stride_at. change (firstn 0 tl) with (@nil Z). cbn [fold_right].
    now rewrite Z.mul_1_r. }
  unfold TensorInfo.Bytes, TensorInfo.Bytes_nb.
  rewrite (proj2 (Z.eqb_neq _ _)) by lia. rewrite Htr.
  rewrite index_0. cbn [rbind]. rewrite Hdims at 1. rewrite index_0. cbn [rbind].
  fold bs ts. rewrite (proj2 (Z.eqb_neq bs 0) Hbs0). cbn [app].
  rewrite Hs0. change [stride_at q tl 0] with (map (stride_at q tl) (seq 0 1)).
  unfold for_ at 1.
  pose proof (Bytes_nb_loop ti ts q d0 tl Hdims (Z.to_nat (ti_NDimensions ti - 2)) 0) as Hnb.
  change (Z.of_nat 0 + 2) with 2 in Hnb. rewrite Hnb by lia. clear Hnb. cbn [rbind].
  set (K := (1 + Z.to_nat (ti_NDimensions ti - 2))%nat).
  assert (HK : (length tl <= K)%nat) by (unfold K; lia).
  pose proof (Bytes_step_loop ti ts q d0 tl Hdims K (length tl) 0 eq_refl HK) as Hloop.
  change (Z.of_nat 0 + 1) with 1 in Hloop.
  destruct Hbs as [Hbs | (Hbs & Hdiv & Hfit)].
  - rewrite Hbs. change (1 =? 1) with true. cbv iota.
    rewrite (for__step 0) by lia.
    unfold TensorInfo.Bytes_step at 1. rewrite Hdims at 1. rewrite !index_0. cbn [rbind].
    replace (uint64 (ts + uint64 (uint64 (d0 - 1) * ts))) with (stride_at q tl 0).
    + unfold for_. change (0 + 1) with 1.
      replace (Z.to_nat (ti_NDimensions ti - 1)) with (length tl) by lia.
      rewrite Hloop, Hfinal. reflexivity.
    + rewrite <- Hs0. rewrite Hbs, Z.div_1_r. unfold wrap.
      rewrite Zmult_mod_idemp_l, Zplus_mod_idemp_r. f_equal. ring.
  - rewrite (proj2 (Z.eqb_neq bs 1)) by lia.
    rewrite Hdims at 1. rewrite !index_0. cbn [rbind].
    replace (uint64 (d0 * ts) / bs) with (stride_at q tl 0).
    + unfold for_.
      replace (Z.to_nat (ti_NDimensions ti - 1)) with (length tl) by lia.
      rewrite Hloop, Hfinal. reflexivity.
    + rewrite <- Hs0. destruct Hdiv as [c Hc].
      rewrite (wrap_small 64 (d0 * ts)) by exact Hfit.
      rewrite Hc, Z.div_mul by exact Hbs0.
      replace (c * bs * ts) with (ts * c * bs) by ring.
      rewrite Z.div_mul by exact Hbs0.
      apply wrap_small. subst d0. nia.
Qed.

Lemma tensor_Bytes_block_formula_witness :
  TensorInfo.Bytes (H := example_ggml)
    {| ti_Name := "blk.0.attn_q.weight"; ti_NDimensions := 2; ti_Dimensions := [4096; 32];
       ti_Type := 12; ti_Offset := 0; ti_StartOffset := 0 |} = Ok 73728
  /\ TensorInfo.Bytes (H := example_ggml)
       {| ti_Name := "output_norm.weight"; ti_NDimensions := 3; ti_Dimensions := [5; 3; 2];
          ti_Type := 0; ti_Offset := 0; ti_StartOffset := 0 |} = Ok 120.
Proof.
  split.
  - apply (tensor_Bytes_block_formula (H := example_ggml)
             {| ti_Name := "blk.0.attn_q.weight"; ti_NDimensions := 2;
                ti_Dimensions := [4096; 32]; ti_Type := 12; ti_Offset := 0;
                ti_StartOffset := 0 |}
             {| BlockSize := 256; TypeSize := 144 |} 4096 [32]);
      [reflexivity | reflexivity | reflexivity |].
    right. cbn. split; [lia|]. split; [exists 16; reflexivity | lia].
  - apply (tensor_Bytes_block_formula (H := example_ggml)
             {| ti_Name := "output_norm.weight"; ti_NDimensions := 3;
                ti_Dimensions := [5; 3; 2]; ti_Type := 0; ti_Offset := 0;
                ti_StartOffset := 0 |}
             {| BlockSize := 1; TypeSize := 4 |} 5 [3; 2]);
      [reflexivity | reflexivity | reflexivity |].
    left. reflexivity.
Defined.

(** ** Accessors on decoded values *)

Lemma for_range_ext {S} (n : nat) (lo : Z) (b1 b2 : Z -> S -> Result S) (s : S) :
  (forall i x, b1 i x = b2 i x) -> for_range n lo b1 s = for_range n lo b2 s.
Proof.
  intros Hb. revert lo s. induction n as [|n IH]; intros lo s; cbn; [reflexivity|].
  rewrite Hb. destruct (b2 lo s); cbn; try reflexivity. apply IH.
Qed.

(** A loop that appends the value of [g i] at each index. *)
Lemma for_range_append {T} (g : Z -> Result T) (ts : list T) :
  forall lo acc,
    (forall k t, nth_error ts k = Some t -> g (lo + Z.of_nat k) = Ok t) ->
    for_range (length ts) lo (fun i v => t <-! g i; Ok (v ++ [t])) acc = Ok (acc ++ ts).
Proof.
  induction ts as [|t ts IH]; intros lo acc Hg; cbn [for_range length].
  - now rewrite app_nil_r.
  - pose proof (Hg 0%nat t eq_refl) as H0. rewrite Z.add_0_r in H0.
    rewrite H0. cbn [rbind]. rewrite IH.
    + now rewrite <- app_assoc.
    + intros k t' Hk. replace (lo + 1 + Z.of_nat k) with (lo + Z.of_nat (S k)) by lia.
      apply Hg. exact Hk.
Qed.


Lemma collect_unfold {T} (av : GGUFMetadataKVArrayValue) (conv : any -> Result T) :
  ArrayValue.collect av conv
  = for_range (Z.to_nat (av_Len av)) 0
      (fun i v => t <-! (x <-! index (av_Array av) i; conv x); Ok (v ++ [t])) [].
Proof.
  unfold ArrayValue.collect, for_. rewrite Z.sub_0_r. apply for_range_ext.
  intros i x. destruct (index (av_Array av) i); reflexivity.
Qed.

Lemma Forall2_nth_error {A B} (P : A -> B -> Prop) (l : list A) (l' : list B) :
  Forall2 P l l' ->
  forall k x y, nth_error l k = Some x -> nth_error l' k = Some y -> P x y.
Proof.
  induction 1 as [|a b l l' Hab _ IH]; intros [|k] x y Hx Hy; cbn in Hx, Hy;
    try discriminate.
  - congruence.
  - eapply IH; eassumption.
Qed.

(** The items of a materialized array are converted one by one. *)
Lemma collect_map {T} (av : GGUFMetadataKVArrayValue) (conv : any -> Result T)
    (ts : list T) :
  Z.of_nat (length (av_Array av)) = av_Len av ->
  Forall2 (fun x t => conv x = Ok t) (av_Array av) ts ->
  ArrayValue.collect av conv = Ok ts.
Proof.
  intros Hlen Hconv. rewrite collect_unfold.
  rewrite <- Hlen, Nat2Z.id.
  assert (Hl : length (av_Array av) = length ts) by (eapply Forall2_length; eauto).
  rewrite Hl.
  rewrite for_range_append; [reflexivity|].
  intros k t Hk. rewrite Z.add_0_l.
  destruct (nth_error (av_Array av) k) as [x|] eqn:Hx.
  - rewrite (index_nth _ _ _ Hx). cbn [rbind].
    exact (Forall2_nth_error _ _ _ Hconv k x t Hx Hk).
  - apply nth_error_None in Hx. assert (k < length ts)%nat by (apply nth_error_Some; congruence).
    lia.
Qed.


Ltac typed_items C :=
  match goal with
  | Hst : Forall (MetadataKV.stored _) ?arr |- _ =>
      let vs := fresh "vs" in
      assert (exists vs, arr = map C vs /\ Forall2 (fun x t => x = C t) arr vs)
        as (vs & ? & ?);
      [ clear - Hst; induction Hst as [|x l Hx _ (vs & -> & IH)];
        [ exists []; split; [reflexivity | constructor]
        | destruct x; cbn in Hx; try discriminate Hx; try contradiction;
          eexists (_ :: vs); split; [reflexivity | constructor; [reflexivity | exact IH]] ]
      | ]
  end.

Ltac typed_values C V :=
  let Hty := fresh "Hty" in
  intros Hty;
  match goal with Hst : Forall _ _ |- _ => rewrite Hty in Hst end;
  typed_items C;
  match goal with
  | vs : list _, Hlen : Z.of_nat _ = _ |- _ =>
      exists vs; split; [| assumption];
      unfold V; rewrite Hty; cbn [negb Z.eqb Pos.eqb];
      apply collect_map; [exact Hlen |];
      eapply Forall2_impl; [eassumption |];
      let x := fresh in let t := fresh in intros x t ->; reflexivity
  end.

(** X10.  On an array value as the decoder materializes it (as many items
    as [Len], each of the dynamic type of the item tag), the typed
    accessor of the item tag returns the items in order; no type assertion
    fails and no index is out of range. *)
Theorem typed_Values_of_materialized_array (av : GGUFMetadataKVArrayValue) :
  Z.of_nat (length (av_Array av)) = av_Len av ->
  Forall (MetadataKV.stored (av_Type av)) (av_Array av) ->
  (av_Type av = GGUFMetadataValueTypeUint8 ->
     exists vs, ArrayValue.ValuesUint8 av = Ok vs /\ av_Array av = map AUint8 vs)
  /\ (av_Type av = GGUFMetadataValueTypeInt8 ->
     exists vs, ArrayValue.ValuesInt8 av = Ok vs /\ av_Array av = map AInt8 vs)
  /\ (av_Type av = GGUFMetadataValueTypeUint16 ->
     exists vs, ArrayValue.ValuesUint16 av = Ok vs /\ av_Array av = map AUint16 vs)
  /\ (av_Type av = GGUFMetadataValueTypeInt16 ->
     exists vs, ArrayValue.ValuesInt16 av = Ok vs /\ av_Array av = map AInt16 vs)
  /\ (av_Type av = GGUFMetadataValueTypeUint32 ->
     exists vs, ArrayValue.ValuesUint32 av = Ok vs /\ av_Array av = map AUint32 vs)
  /\ (av_Type av = GGUFMetadataValueTypeInt32 ->
     exists vs, ArrayValue.ValuesInt32 av = Ok vs /\ av_Array av = map AInt32 vs)
  /\ (av_Type av = GGUFMetadataValueTypeFloat32 ->
     exists vs, ArrayValue.ValuesFloat32 av = Ok vs /\ av_Array av = map AFloat32 vs)
  /\ (av_Type av = GGUFMetadataValueTypeBool ->
     exists vs, ArrayValue.ValuesBool av = Ok vs /\ av_Array av = map ABool vs)
  /\ (av_Type av = GGUFMetadataValueTypeString ->
     exists vs, ArrayValue.ValuesString av = Ok vs /\ av_Array av = map AString vs)
  /\ (av_Type av = GGUFMetadataValueTypeArray ->
     exists vs, ArrayValue.ValuesArray av = Ok vs /\ av_Array av = map AArray vs)
  /\ (av_Type av = GGUFMetadataValueTypeUint64 ->
     exists vs, ArrayValue.ValuesUint64 av = Ok vs /\ av_Array av = map AUint64 vs)
  /\ (av_Type av = GGUFMetadataValueTypeInt64 ->
     exists vs, ArrayValue.ValuesInt64 av = Ok vs /\ av_Array av = map AInt64 vs)
  /\ (av_Type av = GGUFMetadataValueTypeFloat64 ->
     exists vs, ArrayValue.ValuesFloat64 av = Ok vs /\ av_Array av = map AFloat64 vs).
Proof.
  intros Hlen Hst.
  repeat split.
  - typed_values AUint8 ArrayValue.ValuesUint8.
  - typed_values AInt8 ArrayValue.ValuesInt8.
  - typed_values AUint16 ArrayValue.ValuesUint16.
  - typed_values AInt16 ArrayValue.ValuesInt16.
  - typed_values AUint32 ArrayValue.ValuesUint32.
  - typed_values AInt32 ArrayValue.ValuesInt32.
  - typed_values AFloat32 ArrayValue.ValuesFloat32.
  - typed_values ABool ArrayValue.ValuesBool.
  - typed_values AString ArrayValue.ValuesString.
  - typed_values AArray ArrayValue.ValuesArray.
  - typed_values AUint64 ArrayValue.ValuesUint64.
  - typed_values AInt64 ArrayValue.ValuesInt64.
  - typed_values AFloat64 ArrayValue.ValuesFloat64.
Qed.

Lemma numeric_tag_cases (vt : Z) :
  MetadataKV.numeric_tag vt = true ->
  vt = GGUFMetadataValueTypeUint8 \/ vt = GGUFMetadataValueTypeInt8
  \/ vt = GGUFMetadataValueTypeUint16 \/ vt = GGUFMetadataValueTypeInt16
  \/ vt = GGUFMetadataValueTypeUint32 \/ vt = GGUFMetadataValueTypeInt32
  \/ vt = GGUFMetadataValueTypeFloat32 \/ vt = GGUFMetadataValueTypeUint64
  \/ vt = GGUFMetadataValueTypeInt64 \/ vt = GGUFMetadataValueTypeFloat64.
Proof.
  unfold MetadataKV.numeric_tag. rewrite !orb_true_iff, !Z.eqb_eq. tauto.
Qed.

Lemma ValuesNumeric_unfold {T : Type} `{Numeric T} (av : GGUFMetadataKVArrayValue) :
  ArrayValue.ValuesNumeric av
  = for_range (Z.to_nat (av_Len av)) 0
      (fun i v =>
         t <-! (fun i =>
                  if av_Type av =? GGUFMetadataValueTypeUint8 then
                    x <-! index (av_Array av) i;
                    match x with AUint8 v => Ok (cast_int v) | _ => Panicked PanicTypeAssertion end
                  else if av_Type av =? GGUFMetadataValueTypeInt8 then
                    x <-! index (av_Array av) i;
                    match x with AInt8 v => Ok (cast_int v) | _ => Panicked PanicTypeAssertion end
                  else if av_Type av =? GGUFMetadataValueTypeUint16 then
                    x <-! index (av_Array av) i;
                    match x with AUint16 v => Ok (cast_int v) | _ => Panicked PanicTypeAssertion end
                  else if av_Type av =? GGUFMetadataValueTypeInt16 then
                    x <-! index (av_Array av) i;
                    match x with AInt16 v => Ok (cast_int v) | _ => Panicked PanicTypeAssertion end
                  else if av_Type av =? GGUFMetadataValueTypeUint32 then
                    x <-! index (av_Array av) i;
                    match x with AUint32 v => Ok (cast_int v) | _ => Panicked PanicTypeAssertion end
                  else if av_Type av =? GGUFMetadataValueTypeInt32 then
                    x <-! index (av_Array av) i;
                    match x with AInt32 v => Ok (cast_int v) | _ => Panicked PanicTypeAssertion end
                  else if av_Type av =? GGUFMetadataValueTypeFloat32 then
                    x <-! index (av_Array av) i;
                    match x with AFloat32 v => Ok (cast_float32 v) | _ => Panicked PanicTypeAssertion end
                  else if av_Type av =? GGUFMetadataValueTypeUint64 then
                    x <-! index (av_Array av) i;
                    match x with AUint64 v => Ok (cast_int v) | _ => Panicked PanicTypeAssertion end
                  else if av_Type av =? GGUFMetadataValueTypeInt64 then
                    x <-! index (av_Array av) i;
                    match x with AInt64 v => Ok (cast_int v) | _ => Panicked PanicTypeAssertion end
                  else if av_Type av =? GGUFMetadataValueTypeFloat64 then
                    x <-! index (av_Array av) i;
                    match x with AFloat64 v => Ok (cast_float64 v) | _ => Panicked PanicTypeAssertion end
                  else Panicked (PanicInvalidType (av_Type av))) i;
         Ok (v ++ [t])) [].
Proof.
  unfold ArrayValue.ValuesNumeric, for_. rewrite Z.sub_0_r. reflexivity.
Qed.

Ltac numeric_values C cast :=
  match goal with
  | Hty : av_Type ?av = _, Hst : Forall _ _, Hlen : Z.of_nat _ = _ |- _ =>
      rewrite Hty in Hst; typed_items C;
      match goal with
      | vs : list _, Harr : av_Array av = map C _, HF : Forall2 _ _ _ |- _ =>
          exists (map cast vs); split;
          [ rewrite ValuesNumeric_unfold, <- Hlen, Nat2Z.id, Harr, length_map;
            rewrite <- (length_map cast vs);
            rewrite for_range_append; [reflexivity |];
            let k := fresh "k" in let t := fresh "t" in let Hk := fresh "Hk" in
            intros k t Hk; rewrite Z.add_0_l, Hty; cbn [Z.eqb Pos.eqb];
            rewrite nth_error_map in Hk;
            let v := fresh "v" in let Hv := fresh "Hv" in
            destruct (nth_error vs k) as [v|] eqn:Hv; [| discriminate Hk];
            rewrite (index_nth (map C vs) k (C v))
              by (rewrite nth_error_map, Hv; reflexivity);
            cbn in Hk |- *; congruence
          | rewrite Harr, !map_map; reflexivity ]
      end
  end.

(** X11.  On a materialized array of a numeric item tag, [ValuesNumeric]
    returns the cast of every item, in order; unlike [ValueNumeric] this
    holds for the tag uint16 as well. *)
Theorem ValuesNumeric_of_materialized_array {T : Type} `{Numeric T}
    (av : GGUFMetadataKVArrayValue) :
  Z.of_nat (length (av_Array av)) = av_Len av ->
  Forall (MetadataKV.stored (av_Type av)) (av_Array av) ->
  MetadataKV.numeric_tag (av_Type av) = true ->
  exists ts, ArrayValue.ValuesNumeric av = Ok ts
             /\ map Some ts = map MetadataKV.cast_any (av_Array av).
Proof.
  intros Hlen Hst Htag.
  destruct (numeric_tag_cases _ Htag)
    as [Hty|[Hty|[Hty|[Hty|[Hty|[Hty|[Hty|[Hty|[Hty|Hty]]]]]]]]].
  - numeric_values AUint8 (@cast_int T _).
  - numeric_values AInt8 (@cast_int T _).
  - numeric_values AUint16 (@cast_int T _).
  - numeric_values AInt16 (@cast_int T _).
  - numeric_values AUint32 (@cast_int T _).
  - numeric_values AInt32 (@cast_int T _).
  - numeric_values AFloat32 (@cast_float32 T _).
  - numeric_values AUint64 (@cast_int T _).
  - numeric_values AInt64 (@cast_int T _).
  - numeric_values AFloat64 (@cast_float64 T _).
Qed.



(** X13.  On a metadata entry as the decoder stores it (the value has the
    dynamic type of the tag), each typed accessor returns the value when
    the tag is its own and panics with the invalid-type error otherwise;
    no type assertion fails. *)
Theorem typed_Value_of_stored_entry (kv : GGUFMetadataKV) :
  MetadataKV.stored (kv_ValueType kv) (kv_Value kv) ->
  MetadataKV.ValueUint8 kv
     = match kv_Value kv with
       | AUint8 v => Ok v
       | _ => Panicked (PanicInvalidType (kv_ValueType kv))
       end
  /\ MetadataKV.ValueInt8 kv
     = match kv_Value kv with
       | AInt8 v => Ok v
       | _ => Panicked (PanicInvalidType (kv_ValueType kv))
       end
  /\ MetadataKV.ValueUint16 kv
     = match kv_Value kv with
       | AUint16 v => Ok v
       | _ => Panicked (PanicInvalidType (kv_ValueType kv))
       end
  /\ MetadataKV.ValueInt16 kv
     = match kv_Value kv with
       | AInt16 v => Ok v
       | _ => Panicked (PanicInvalidType (kv_ValueType kv))
       end
  /\ MetadataKV.ValueUint32 kv
     = match kv_Value kv with
       | AUint32 v => Ok v
       | _ => Panicked (PanicInvalidType (kv_ValueType kv))
       end
  /\ MetadataKV.ValueInt32 kv
     = match kv_Value kv with
       | AInt32 v => Ok v
       | _ => Panicked (PanicInvalidType (kv_ValueType kv))
       end
  /\ MetadataKV.ValueFloat32 kv
     = match kv_Value kv with
       | AFloat32 v => Ok v
       | _ => Panicked (PanicInvalidType (kv_ValueType kv))
       end
  /\ MetadataKV.ValueBool kv
     = match kv_Value kv with
       | ABool v => Ok v
       | _ => Panicked (PanicInvalidType (kv_ValueType kv))
       end
  /\ MetadataKV.ValueString kv
     = match kv_Value kv with
       | AString v => Ok v
       | _ => Panicked (PanicInvalidType (kv_ValueType kv))
       end
  /\ MetadataKV.ValueArray kv
     = match kv_Value kv with
       | AArray v => Ok v
       | _ => Panicked (PanicInvalidType (kv_ValueType kv))
       end
  /\ MetadataKV.ValueUint64 kv
     = match kv_Value kv with
       | AUint64 v => Ok v
       | _ => Panicked (PanicInvalidType (kv_ValueType kv))
       end
  /\ MetadataKV.ValueInt64 kv
     = match kv_Value kv with
       | AInt64 v => Ok v
       | _ => Panicked (PanicInvalidType (kv_ValueType kv))
       end
  /\ MetadataKV.ValueFloat64 kv
     = match kv_Value kv with
       | AFloat64 v => Ok v
       | _ => Panicked (PanicInvalidType (kv_ValueType kv))
       end.
Proof.
  destruct kv as [k vt x]. cbn [kv_ValueType kv_Value]. intros Hst.
  destruct x; cbn in Hst; try contradiction; subst vt; repeat split; reflexivity.
Qed.

Lemma typed_Values_of_materialized_array_witness :
  exists vs, ArrayValue.ValuesUint16 array_uint16_materialized = Ok vs
             /\ av_Array array_uint16_materialized = map AUint16 vs.
Proof.
  apply (proj1 (proj2 (proj2
           (typed_Values_of_materialized_array array_uint16_materialized eq_refl
              ltac:(repeat constructor))))).
  reflexivity.
Defined.

Lemma ValuesNumeric_of_materialized_array_witness :
  exists ts, ArrayValue.ValuesNumeric (H := Numeric_uint 32 (fun b => b) (fun b => b))
               array_uint16_materialized = Ok ts
             /\ map Some ts
                = map (MetadataKV.cast_any (H := Numeric_uint 32 (fun b => b) (fun b => b)))
                    (av_Array array_uint16_materialized).
Proof.
  apply (ValuesNumeric_of_materialized_array
           (H := Numeric_uint 32 (fun b => b) (fun b => b)) array_uint16_materialized).
  - reflexivity.
  - repeat constructor.
  - reflexivity.
Defined.


Lemma typed_Value_of_stored_entry_witness :
  MetadataKV.ValueUint32
    {| kv_Key := "general.alignment"; kv_ValueType := GGUFMetadataValueTypeUint32;
       kv_Value := AUint32 32 |} = Ok 32
  /\ MetadataKV.ValueString
       {| kv_Key := "general.alignment"; kv_ValueType := GGUFMetadataValueTypeUint32;
          kv_Value := AUint32 32 |}
     = Panicked (PanicInvalidType GGUFMetadataValueTypeUint32).
Proof.
  pose proof (typed_Value_of_stored_entry
                {| kv_Key := "general.alignment";
                   kv_ValueType := GGUFMetadataValueTypeUint32;
                   kv_Value := AUint32 32 |} eq_refl)
    as (_ & _ & _ & _ & H32 & _ & _ & _ & Hs & _).
  split; [exact H32 | exact Hs].
Defined.

(** ** What a decoded value satisfies *)

Lemma le_val_nonneg (bs : list byte) : 0 <= le_val bs.
Proof.
  induction bs as [|b bs IH]; cbn [le_val]; [lia|].
  unfold byte_val. lia.
Qed.

Lemma decode_nonneg (bo : ByteOrder) (bs : list byte) : 0 <= decode bo bs.
Proof. destruct bo; apply le_val_nonneg. Qed.

Lemma ReadLength_nonneg (rd : _GGUFReader) (pos v p' : Z) :
  Reader.ReadLength rd pos = Ok (v, p') ->
  0 <= v /\ p' = pos + (if rd_v rd <=? GGUFVersionV1 then 4 else 8).
Proof.
  unfold Reader.ReadLength, Reader.ReadUint64FromUint32, Reader.ReadUint32, Reader.ReadUint64.
  destruct (_ <=? _); intros E; apply wrapping_Ok, binary_Read_Ok in E as (-> & -> & _);
    split; auto using decode_nonneg.
Qed.

(** A loop that reads one item per index and appends it. *)
Lemma forM_collect {A} (m : Z -> M A) (Q : A -> Prop) :
  (forall i p x p1, m i p = Ok (x, p1) -> Q x) ->
  forall lo hi acc pos r p',
    forM lo hi (fun i arr => x <- m i;; mret (arr ++ [x])) acc pos = Ok (r, p') ->
    exists xs, r = acc ++ xs /\ length xs = Z.to_nat (hi - lo) /\ Forall Q xs.
Proof.
  intros Hm lo hi. unfold forM, for_. generalize (Z.to_nat (hi - lo)) as n.
  intros n. revert lo. induction n as [|n IH]; intros lo acc pos r p'; cbn [for_range].
  - intros [= <- <-]. exists []. rewrite app_nil_r. repeat split. constructor.
  - cbn [fst snd]. unfold mbind at 1.
    destruct (m lo pos) as [[x p1]| | |] eqn:Ex; cbn [rbind]; try discriminate.
    unfold mret at 1. cbn [rbind]. intros E.
    apply IH in E as (xs & -> & Hlen & HQ).
    exists (x :: xs). rewrite <- app_assoc. repeat split.
    + cbn. now rewrite Hlen.
    + constructor; [eapply Hm; eassumption | exact HQ].
Qed.

Lemma ReadArray_with_invariants (rd : _GGUFReader) (RV : Z -> M any) (pos : Z)
    (av : GGUFMetadataKVArrayValue) (p' : Z) :
  (forall ty p x p1, RV ty p = Ok (x, p1) -> MetadataKV.stored ty x) ->
  Reader.ReadArray_with rd RV pos = Ok (av, p') ->
  av_StartOffset av = pos
  /\ 0 <= av_Type av /\ 0 <= av_Len av
  /\ p' = pos + 4 + (if rd_v rd <=? GGUFVersionV1 then 4 else 8) + av_Size av
  /\ (if SkipLargeMetadata (rd_o rd) then av_Array av = []
      else Z.of_nat (length (av_Array av)) = av_Len av
           /\ Forall (MetadataKV.stored (av_Type av)) (av_Array av)).
Proof.
  intros HRV E. unfold Reader.ReadArray_with in E.
  apply mbind_Ok in E as (so & p1 & E1 & E).
  apply wrapping_Ok, Seek_0_Ok in E1 as [-> ->].
  apply mbind_Ok in E as (ty & p2 & E2 & E).
  apply wrapping_Ok, binary_Read_Ok in E2 as (-> & -> & _).
  apply mbind_Ok in E as (len & p3 & E3 & E).
  apply wrapping_Ok, ReadLength_nonneg in E3 as [Hlen ->].
  apply mbind_Ok in E as (ist & p4 & E4 & E).
  apply wrapping_Ok, Seek_0_Ok in E4 as [-> ->].
  destruct (SkipLargeMetadata (rd_o rd)); cbn [negb] in E.
  - apply mbind_Ok in E as (u & p5 & _ & E).
    apply mbind_Ok in E as (ie & p6 & E6 & E).
    apply wrapping_Ok, Seek_0_Ok in E6 as [-> ->].
    injection E as <- <-. cbn. repeat split; auto using decode_nonneg. lia.
  - apply mbind_Ok in E as (arr & p5 & E5 & E).
    apply mbind_Ok in E as (ie & p6 & E6 & E).
    apply wrapping_Ok, Seek_0_Ok in E6 as [-> ->].
    injection E as <- <-. cbn.
    apply (forM_collect (fun i => wrapping_at "read array item" i (RV _))
             (MetadataKV.stored (decode (rd_bo rd) (slice (rd_f rd) pos 4)))) in E5
      as (xs & -> & Hl & HQ).
    + repeat split; auto using decode_nonneg; [lia | cbn; lia].
    + intros i p x p1 Ex. apply wrapping_at_Ok in Ex. eapply HRV. exact Ex.
Qed.

(** X14.  An array value returned by [ReadArray] starts at the offset the
    reader was at, its [Size] is the number of bytes between the end of
    the header (item type and length) and the cursor left behind, and its
    item list is empty with [SkipLargeMetadata] and otherwise holds [Len]
    items, each of the dynamic type of the item tag. *)
Theorem ReadArray_value_invariants (rd : _GGUFReader) (fuel : nat) (pos : Z)
    (av : GGUFMetadataKVArrayValue) (p' : Z) :
  Reader.ReadArray rd fuel pos = Ok (av, p') ->
  av_StartOffset av = pos
  /\ 0 <= av_Type av /\ 0 <= av_Len av
  /\ p' = pos + 4 + (if rd_v rd <=? GGUFVersionV1 then 4 else 8) + av_Size av
  /\ (if SkipLargeMetadata (rd_o rd) then av_Array av = []
      else Z.of_nat (length (av_Array av)) = av_Len av
           /\ Forall (MetadataKV.stored (av_Type av)) (av_Array av)).
Proof.
  apply ReadArray_with_invariants. intros ty p x p1. apply ReadValue_stored.
Qed.

Lemma ReadArray_value_invariants_witness :
  exists av p',
    Reader.ReadArray (reader_v3 bytes_array_of_array false) 2 0 = Ok (av, p')
    /\ av_StartOffset av = 0
    /\ 0 <= av_Type av /\ 0 <= av_Len av
    /\ p' = 0 + 4 + 8 + av_Size av
    /\ Z.of_nat (length (av_Array av)) = av_Len av
    /\ Forall (MetadataKV.stored (av_Type av)) (av_Array av).
Proof.
  eexists _, _. split; [vm_compute; reflexivity |].
  pose proof (ReadArray_value_invariants (reader_v3 bytes_array_of_array false) 2 0 _ _
                ltac:(vm_compute; reflexivity)) as (H1 & H2 & H3 & H4 & H5 & H6).
  repeat split; assumption.
Defined.

Lemma MetadataReader_Read_tag (rd : _GGUFReader) (pos : Z) (kv : GGUFMetadataKV) (p' : Z) :
  Reader.MetadataReader_Read rd pos = Ok (kv, p') ->
  0 <= kv_ValueType kv < _GGUFMetadataValueTypeCount.
Proof.
  intros E. unfold Reader.MetadataReader_Read in E.
  apply mbind_Ok in E as (key & p1 & _ & E).
  apply mbind_Ok in E as (vt & p2 & Evt & E).
  apply wrapping_Ok in Evt. unfold Reader.ReadUint32 in Evt.
  apply wrapping_Ok, binary_Read_Ok in Evt as (-> & _ & _).
  destruct (Z.leb_spec _GGUFMetadataValueTypeCount
              (decode (rd_bo rd) (slice (rd_f rd) p1 4))); [discriminate E |].
  apply mbind_Ok in E as (x & p3 & _ & E).
  injection E as <- _. cbn. split; [apply decode_nonneg | assumption].
Qed.

Lemma TensorInfoReader_Read_invariants `{GGMLDecls} (rd : _GGUFReader) (pos : Z)
    (ti : GGUFTensorInfo) (p' : Z) :
  Reader.TensorInfoReader_Read rd pos = Ok (ti, p') ->
  ti_StartOffset ti = pos
  /\ Z.of_nat (length (ti_Dimensions ti)) = ti_NDimensions ti
  /\ Forall (fun d => 0 <= d) (ti_Dimensions ti)
  /\ 0 <= ti_Type ti < _GGMLTypeCount
  /\ 0 <= ti_Offset ti.
Proof.
  intros E. unfold Reader.TensorInfoReader_Read in E.
  apply mbind_Ok in E as (so & p1 & E1 & E).
  apply wrapping_Ok, Seek_0_Ok in E1 as [-> ->].
  apply mbind_Ok in E as (name & p2 & _ & E).
  apply mbind_Ok in E as (nd & p3 & End & E).
  apply wrapping_Ok in End. unfold Reader.ReadUint32 in End.
  apply wrapping_Ok, binary_Read_Ok in End as (-> & _ & _).
  apply mbind_Ok in E as (dims & p4 & Ed & E).
  apply (forM_collect (fun i => wrapping_at "read dimension" i (Reader.ReadLength rd))
           (fun d => 0 <= d)) in Ed as (xs & -> & Hl & HQ).
  2:{ intros i p x q Ex. apply wrapping_at_Ok, ReadLength_nonneg in Ex. tauto. }
  apply mbind_Ok in E as (v & p5 & Ev & E).
  apply wrapping_Ok in Ev. unfold Reader.ReadUint32 in Ev.
  apply wrapping_Ok, binary_Read_Ok in Ev as (-> & _ & _).
  destruct (Z.leb_spec _GGMLTypeCount (decode (rd_bo rd) (slice (rd_f rd) p4 4)));
    [discriminate E |].
  apply mbind_Ok in E as (off & p6 & Eo & E).
  apply wrapping_Ok in Eo. unfold Reader.ReadUint64 in Eo.
  apply wrapping_Ok, binary_Read_Ok in Eo as (-> & _ & _).
  injection E as <- _. cbn [ti_StartOffset ti_Dimensions ti_NDimensions ti_Type ti_Offset].
  pose proof (decode_nonneg (rd_bo rd) (slice (rd_f rd) p2 4)).
  repeat split; auto using decode_nonneg.
  cbn [app]. rewrite Hl. lia.
Qed.

Lemma lift_Ok {A} (r : Result A) (pos : Z) (a : A) (p' : Z) :
  lift r pos = Ok (a, p') -> r = Ok a /\ p' = pos.
Proof. unfold lift. destruct r; try discriminate. now intros [= -> ->]. Qed.

Lemma after_magic_invariants `{GGMLDecls} (magic : Z) (bo : ByteOrder) (s : Z)
    (f : ReadSeeker) (o : _GGUFReadOptions) (pos : Z) (gf : GGUFFile) (p' : Z) :
  Parse.after_magic magic bo s f o pos = Ok (gf, p') ->
  Z.of_nat (length (MetadataKV (Header gf))) = MetadataKVCount (Header gf)
  /\ Z.of_nat (length (TensorInfos gf)) = TensorCount (Header gf)
  /\ Forall (fun kv => 0 <= kv_ValueType kv < _GGUFMetadataValueTypeCount
                       /\ MetadataKV.stored (kv_ValueType kv) (kv_Value kv))
       (MetadataKV (Header gf))
  /\ Forall (fun ti => Z.of_nat (length (ti_Dimensions ti)) = ti_NDimensions ti
                       /\ 0 <= ti_Type ti < _GGMLTypeCount)
       (TensorInfos gf)
  /\ TensorInfos.Elements (TensorInfos gf) = Ok (ModelParameters gf)
  /\ ModelSize gf = uint64 (s - TensorDataStartOffset gf).
Proof.
  intros E. unfold Parse.after_magic in E.
  apply mbind_Ok in E as (version & p1 & _ & E).
  apply mbind_Ok in E as (tc & p2 & Etc & E).
  apply wrapping_Ok, ReadLength_nonneg in Etc as [Htc _].
  apply mbind_Ok in E as (kc & p3 & Ekc & E).
  apply wrapping_Ok, ReadLength_nonneg in Ekc as [Hkc _].
  apply mbind_Ok in E as (kvs & p4 & Ekvs & E).
  apply (forM_collect
           (fun i => wrapping_at "read metadata kv" i (Reader.MetadataReader_Read _))
           (fun kv => 0 <= kv_ValueType kv < _GGUFMetadataValueTypeCount
                      /\ MetadataKV.stored (kv_ValueType kv) (kv_Value kv)))
    in Ekvs as (xs & -> & Hlk & HQk).
  2:{ intros i p x q Ex. apply wrapping_at_Ok in Ex. split.
      - eapply MetadataReader_Read_tag; exact Ex.
      - eapply MetadataReader_Read_stored; exact Ex. }
  apply mbind_Ok in E as (tis & p5 & Etis & E).
  apply (forM_collect
           (fun i => wrapping_at "read tensor info" i (Reader.TensorInfoReader_Read _))
           (fun ti => Z.of_nat (length (ti_Dimensions ti)) = ti_NDimensions ti
                      /\ 0 <= ti_Type ti < _GGMLTypeCount))
    in Etis as (ys & -> & Hlt & HQt).
  2:{ intros i p x q Ex. apply wrapping_at_Ok, TensorInfoReader_Read_invariants in Ex.
      tauto. }
  apply mbind_Ok in E as (pds & p6 & _ & E).
  apply mbind_Ok in E as (ag & p7 & _ & E).
  apply mbind_Ok in E as (pad & p8 & _ & E).
  apply mbind_Ok in E as (params & p9 & Ep & E).
  apply lift_Ok in Ep as [Ep _].
  injection E as <- _. cbn. repeat split; try assumption; lia.
Qed.

(** X15.  A file that [parseGGUFFile] decodes is consistent with its
    header: it holds as many metadata entries and tensor infos as the
    header counts say; every entry carries a known tag and a value of the
    dynamic type of that tag; every tensor info has as many dimensions as
    it declares and a known element type; [ModelParameters] is the element
    count of the tensor list, and [ModelSize] the byte count from the
    tensor data start to [s] in [uint64] arithmetic. *)
Theorem parseGGUFFile_decoded_file_consistent `{GGMLDecls}
    (s : Z) (f : ReadSeeker) (o : _GGUFReadOptions) (gf : GGUFFile) :
  Parse.parseGGUFFile s f o = Ok gf ->
  Z.of_nat (length (MetadataKV (Header gf))) = MetadataKVCount (Header gf)
  /\ Z.of_nat (length (TensorInfos gf)) = TensorCount (Header gf)
  /\ Forall (fun kv => 0 <= kv_ValueType kv < _GGUFMetadataValueTypeCount
                       /\ MetadataKV.stored (kv_ValueType kv) (kv_Value kv))
       (MetadataKV (Header gf))
  /\ Forall (fun ti => Z.of_nat (length (ti_Dimensions ti)) = ti_NDimensions ti
                       /\ 0 <= ti_Type ti < _GGMLTypeCount)
       (TensorInfos gf)
  /\ TensorInfos.Elements (TensorInfos gf) = Ok (ModelParameters gf)
  /\ ModelSize gf = uint64 (s - TensorDataStartOffset gf).
Proof.
  unfold Parse.parseGGUFFile. intros E.
  destruct (mbind _ _ 0) as [[gf' p']| | |] eqn:Em; try discriminate E.
  injection E as ->.
  apply mbind_Ok in Em as (magic & p1 & _ & Em).
  apply mbind_Ok in Em as (bo & p2 & _ & Em).
  eapply after_magic_invariants. exact Em.
Qed.

Lemma parseGGUFFile_decoded_file_consistent_witness :
  exists gf,
    Parse.parseGGUFFile (H := example_ggml) 80 (file_of file_infos_end_aligned)
      {| SkipLargeMetadata := false |} = Ok gf
    /\ Z.of_nat (length (MetadataKV (Header gf))) = MetadataKVCount (Header gf)
    /\ Z.of_nat (length (TensorInfos gf)) = TensorCount (Header gf)
    /\ TensorInfos.Elements (TensorInfos gf) = Ok (ModelParameters gf).
Proof.
  eexists. split; [vm_compute; reflexivity |].
  pose proof (parseGGUFFile_decoded_file_consistent (H := example_ggml) 80
                (file_of file_infos_end_aligned) {| SkipLargeMetadata := false |} _
                ltac:(vm_compute; reflexivity)) as (H1 & H2 & _ & _ & H5 & _).
  repeat split; assumption.
Defined.

(** ** Where the decoder can panic *)











Section ReaderPanics.
Variable rd : _GGUFReader.
Variable P : PanicValue -> Prop.




Hypothesis Hskip :
  SkipLargeMetadata (rd_o rd) = true -> forall ty, P (PanicInvalidType ty).




End ReaderPanics.

Lemma kvs_Get_In (kvs : GGUFMetadataKVs) (key : string) (kv : GGUFMetadataKV) :
  MetadataKV.Get kvs key = Some kv -> In kv kvs /\ kv_Key kv = key.
Proof.
  induction kvs as [|x kvs IH]; cbn; [discriminate|].
  destruct (String.eqb_spec (kv_Key x) key) as [He|He].
  - intros [= <-]. auto.
  - intros E. destruct (IH E). auto.
Qed.








(** ** Strings *)

Lemma Read_exact (f : ReadSeeker) (a s b : list byte) :
  content f = a ++ s ++ b ->
  section_reader f = false \/ s <> [] \/ b <> [] ->
  Read f (Z.of_nat (length s)) (Z.of_nat (length a))
  = Ok (s, Z.of_nat (length a) + Z.of_nat (length s)).
Proof.
  intros Hf Hend. pose proof (file_size_middle f _ _ _ Hf) as Hsize.
  pose proof (slice_middle f a s b Hf) as Hsl.
  unfold Read. destruct s as [| c s'].
  - cbn [length Z.of_nat Z.eqb andb]. rewrite Z.add_0_r.
    destruct (section_reader f) eqn:Hsr; cbn [andb negb]; [| reflexivity].
    destruct Hend as [Hsr' | [Hs | Hb]]; [discriminate | contradiction |].
    assert (0 < length b)%nat by (destruct b; [contradiction | cbn; lia]).
    cbn [length app] in Hsize. rewrite (proj2 (Z.leb_gt _ _)) by lia. reflexivity.
  - replace (Z.of_nat (length (c :: s')) =? 0) with false
      by (symmetry; apply Z.eqb_neq; cbn [length]; lia).
    cbn [andb]. rewrite (proj2 (Z.leb_gt _ _)) by (cbn [length] in *; lia).
    rewrite Z.min_l by lia. rewrite Hsl. reflexivity.
Qed.

Lemma length_bytes_of_string (s : string) :
  length (list_byte_of_string s) = String.length s.
Proof.
  unfold list_byte_of_string. rewrite length_map.
  induction s as [|c s IH]; cbn; [reflexivity | now rewrite IH].
Qed.

(** A length-prefixed run of bytes is read back whole. *)
Lemma ReadString_bytes (rd : _GGUFReader) (a bs b : list byte) :
  content (rd_f rd)
  = a ++ (put_length (rd_v rd) (rd_bo rd) (Z.of_nat (length bs)) ++ bs) ++ b ->
  fits_length (rd_v rd) (Z.of_nat (length bs)) ->
  section_reader (rd_f rd) = false \/ bs <> [] \/ b <> [] ->
  Reader.ReadString rd (Z.of_nat (length a))
  = Ok (string_of_list_byte (TrimSpace bs),
        Z.of_nat (length a)
        + Z.of_nat (length (put_length (rd_v rd) (rd_bo rd) (Z.of_nat (length bs)) ++ bs))).
Proof.
  intros Hf Hfit Hend. rewrite <- app_assoc in Hf.
  unfold Reader.ReadString.
  rewrite (mbind_step _ _ _ _ _
             (wrapping_step _ _ _ _ (ReadLength_put rd a _ _ Hf Hfit))).
  rewrite length_GetBytes.
  set (a' := a ++ put_length (rd_v rd) (rd_bo rd) (Z.of_nat (length bs))).
  assert (Hf' : content (rd_f rd) = a' ++ bs ++ b)
    by (unfold a'; now rewrite <- app_assoc).
  pose proof (Read_exact (rd_f rd) a' _ b Hf' Hend) as HR.
  unfold a' in HR. rewrite length_app, Nat2Z.inj_add in HR.
  rewrite (mbind_step _ _ _ _ _ (wrapping_step _ _ _ _ HR)).
  unfold mret, GetBytes. rewrite Nat2Z.id.
  rewrite skipn_all2 by (rewrite repeat_length; lia).
  rewrite app_nil_r, !length_app. f_equal. f_equal. lia.
Qed.

(** A string written by [put_string] is read back trimmed. *)
Lemma ReadString_string (rd : _GGUFReader) (a b : list byte) (s : string) :
  content (rd_f rd) = a ++ put_string (rd_v rd) (rd_bo rd) s ++ b ->
  fits_length (rd_v rd) (Z.of_nat (String.length s)) ->
  section_reader (rd_f rd) = false \/ s <> EmptyString \/ b <> [] ->
  Reader.ReadString rd (Z.of_nat (length a))
  = Ok (string_of_list_byte (TrimSpace (list_byte_of_string s)),
        Z.of_nat (length a) + Z.of_nat (length (put_string (rd_v rd) (rd_bo rd) s))).
Proof.
  intros Hf Hfit Hend. unfold put_string in *.
  rewrite <- (length_bytes_of_string s) in *.
  assert (Hend' : section_reader (rd_f rd) = false
                  \/ list_byte_of_string s <> [] \/ b <> []).
  { destruct Hend as [H | [H | H]]; auto. right. left.
    destruct s; [contradiction | discriminate]. }
  exact (ReadString_bytes rd a _ b Hf Hfit Hend').
Qed.



(** X18.  [ReadString] does not detect a truncated string: when the
    length field announces more bytes than the file still holds, and at
    least one byte is left, the single [Read] returns what is there and the
    call succeeds with the cursor at the end of the file; with no byte
    left it fails with the wrapped end-of-file error. *)
Theorem ReadString_truncated (rd : _GGUFReader) (a rest : list byte) (l : Z) :
  content (rd_f rd) = a ++ put_length (rd_v rd) (rd_bo rd) l ++ rest ->
  fits_length (rd_v rd) l ->
  Z.of_nat (length rest) < l ->
  (rest <> [] ->
   exists str, Reader.ReadString rd (Z.of_nat (length a))
               = Ok (str, file_size (rd_f rd)))
  /\ (rest = [] ->
      Reader.ReadString rd (Z.of_nat (length a)) = Err (Wrapped "read string" EOF)).
Proof.
  intros Hf Hfit Hlt.
  pose proof (file_size_middle (rd_f rd) _ _ _ Hf) as Hsize.
  assert (HL := ReadLength_put rd a rest l Hf Hfit).
  unfold Reader.ReadString.
  rewrite (mbind_step _ _ _ _ _ (wrapping_step _ _ _ _ HL)).
  set (p1 := Z.of_nat (length a) + Z.of_nat (length (put_length _ _ _))) in *.
  assert (Hn : Z.of_nat (length (GetBytes l)) = l).
  { unfold GetBytes. rewrite repeat_length. lia. }
  rewrite Hn. unfold mbind, wrapping, Read.
  replace (l =? 0) with false by (symmetry; apply Z.eqb_neq; lia). cbn [andb].
  split.
  - intros Hne. assert (0 < length rest)%nat by (destruct rest; [contradiction | cbn; lia]).
    rewrite (proj2 (Z.leb_gt _ _)) by lia.
    rewrite Z.min_r by lia. unfold mret. eexists. f_equal. f_equal. lia.
  - intros ->. cbn [length] in Hsize. rewrite (proj2 (Z.leb_le _ _)) by lia. reflexivity.
Qed.

Lemma ReadString_truncated_witness :
  (exists str,
     Reader.ReadString (reader_v3 ([] ++ put_length 3 LittleEndian 12 ++ [x67; x65]) false) 0
     = Ok (str, 10)).
Proof.
  refine (proj1 (ReadString_truncated
                   (reader_v3 ([] ++ put_length 3 LittleEndian 12 ++ [x67; x65]) false)
                   [] [x67; x65] 12 eq_refl _ _) _).
  - cbv. split; [discriminate | reflexivity].
  - cbn. lia.
  - discriminate.
Defined.

(** ** Arrays with [SkipLargeMetadata] *)

Lemma Seek_0_within (f : ReadSeeker) (pos : Z) :
  0 <= pos < 2 ^ 63 -> Seek f 0 pos = Ok (pos, pos).
Proof. intros H. rewrite (Seek_within f 0 pos) by lia. now rewrite Z.add_0_r. Qed.

(** X19.  With [SkipLargeMetadata], an array whose item type is neither
    a fixed-width type nor string (an array of arrays, or an unknown type)
    makes [ReadArray] panic with the invalid-type error as soon as its
    header is read, whatever its length and items. *)
Theorem ReadArray_skip_panics_on_other_item_types (rd : _GGUFReader) (fuel : nat) (pos : Z) :
  SkipLargeMetadata (rd_o rd) = true ->
  0 <= pos ->
  pos + 4 + (if rd_v rd <=? GGUFVersionV1 then 4 else 8) <= file_size (rd_f rd) ->
  file_size (rd_f rd) < 2 ^ 63 ->
  fixed_width (decode (rd_bo rd) (slice (rd_f rd) pos 4)) = None ->
  decode (rd_bo rd) (slice (rd_f rd) pos 4) <> GGUFMetadataValueTypeString ->
  Reader.ReadArray rd fuel pos
  = Panicked (PanicInvalidType (decode (rd_bo rd) (slice (rd_f rd) pos 4))).
Proof.
  intros Hmode Hpos Hhdr Hbig Hfw Hns.
  set (ty := decode (rd_bo rd) (slice (rd_f rd) pos 4)) in *.
  unfold Reader.ReadArray, Reader.ReadArray_with.
  assert (Hw : 4 <= (if rd_v rd <=? GGUFVersionV1 then 4 else 8))
    by (destruct (_ <=? _); lia).
  erewrite mbind_step; [| apply wrapping_step, Seek_0_within; lia].
  erewrite mbind_step; [| apply wrapping_step, binary_Read_available; lia].
  fold ty.
  assert (HL : exists len,
             Reader.ReadLength rd (pos + 4)
             = Ok (len, pos + 4 + (if rd_v rd <=? GGUFVersionV1 then 4 else 8))).
  { unfold Reader.ReadLength, Reader.ReadUint64FromUint32, Reader.ReadUint32,
      Reader.ReadUint64.
    destruct (rd_v rd <=? GGUFVersionV1); eexists; apply wrapping_step,
      binary_Read_available; lia. }
  destruct HL as [len HL].
  erewrite mbind_step; [| apply wrapping_step; exact HL].
  erewrite mbind_step; [| apply wrapping_step, Seek_0_within; lia].
  rewrite Hmode. cbn [negb].
  unfold fixed_width in Hfw.
  repeat match type of Hfw with
         | (if ?c then _ else _) = None =>
             destruct c; [discriminate Hfw |]
         end.
  rewrite (proj2 (Z.eqb_neq ty GGUFMetadataValueTypeString) Hns).
  reflexivity.
Qed.

Lemma ReadArray_skip_panics_on_other_item_types_witness :
  Reader.ReadArray (reader_v3 bytes_array_of_array true) 0 0
  = Panicked (PanicInvalidType GGUFMetadataValueTypeArray).
Proof.
  apply (ReadArray_skip_panics_on_other_item_types
           (reader_v3 bytes_array_of_array true) 0 0).
  - reflexivity.
  - lia.
  - vm_compute. discriminate.
  - vm_compute. reflexivity.
  - vm_compute. reflexivity.
  - vm_compute. discriminate.
Defined.

(** ** Round trip of a tensor info *)

Lemma dimensions_read (rd : _GGUFReader) (dims : list Z) :
  forall (a suf : list byte) (acc : list Z) (lo : Z),
    content (rd_f rd)
    = a ++ concat (map (put_length (rd_v rd) (rd_bo rd)) dims) ++ suf ->
    Forall (fits_length (rd_v rd)) dims ->
    for_range (length dims) lo
      (fun i s =>
         (d <- wrapping_at "read dimension" i (Reader.ReadLength rd);;
          mret (fst s ++ [d])) (snd s))
      (acc, Z.of_nat (length a))
    = Ok (acc ++ dims,
          Z.of_nat (length a)
          + Z.of_nat (length (concat (map (put_length (rd_v rd) (rd_bo rd)) dims)))).
Proof.
  induction dims as [|d dims IH]; intros a suf acc lo Hf Hfit; cbn [for_range length].
  - cbn. now rewrite app_nil_r, Z.add_0_r.
  - cbn [map concat] in Hf |- *. rewrite <- app_assoc in Hf.
    apply List.Forall_cons_iff in Hfit as [Hd Hfit].
    cbn [fst snd].
    rewrite (mbind_step _ _ _ _ _
               (wrapping_at_step _ _ _ _ _ (ReadLength_put rd a _ d Hf Hd))).
    unfold mret at 1. cbn [rbind].
    replace (Z.of_nat (length a)
             + Z.of_nat (length (put_length (rd_v rd) (rd_bo rd) d)))
      with (Z.of_nat (length (a ++ put_length (rd_v rd) (rd_bo rd) d)))
      by (rewrite length_app; lia).
    rewrite (IH (a ++ put_length (rd_v rd) (rd_bo rd) d) suf).
    + rewrite <- app_assoc, !length_app. cbn [app]. f_equal. f_equal. lia.
    + now rewrite <- app_assoc.
    + exact Hfit.
Qed.

(** X20.  Round trip of a tensor info: where the file holds the fields
    of a tensor info whose dimension list has the declared length and
    whose element type is known, [Read] of the tensor-info reader returns
    that tensor info with its name trimmed and its start offset set to
    the offset of its first byte, and leaves the cursor behind its last
    byte. *)
Theorem TensorInfoReader_Read_put_tensor_info `{GGMLDecls}
    (rd : _GGUFReader) (a b : list byte) (ti : GGUFTensorInfo) :
  content (rd_f rd) = a ++ put_tensor_info (rd_v rd) (rd_bo rd) ti ++ b ->
  file_size (rd_f rd) < 2 ^ 63 ->
  fits_length (rd_v rd) (Z.of_nat (String.length (ti_Name ti))) ->
  Z.of_nat (length (ti_Dimensions ti)) = ti_NDimensions ti ->
  ti_NDimensions ti < 2 ^ 32 ->
  Forall (fits_length (rd_v rd)) (ti_Dimensions ti) ->
  0 <= ti_Type ti < _GGMLTypeCount -> ti_Type ti < 2 ^ 32 ->
  0 <= ti_Offset ti < 2 ^ 64 ->
  Reader.TensorInfoReader_Read rd (Z.of_nat (length a))
  = Ok ({| ti_Name := string_of_list_byte (TrimSpace (list_byte_of_string (ti_Name ti)));
           ti_NDimensions := ti_NDimensions ti;
           ti_Dimensions := ti_Dimensions ti;
           ti_Type := ti_Type ti;
           ti_Offset := ti_Offset ti;
           ti_StartOffset := Z.of_nat (length a) |},
        Z.of_nat (length a)
        + Z.of_nat (length (put_tensor_info (rd_v rd) (rd_bo rd) ti))).
Proof.
  intros Hf Hbig Hname Hlen Hnd Hdims Hty Hty32 Hoff.
  pose proof (file_size_middle _ _ _ _ Hf) as Hsize.
  unfold put_tensor_info in *.
  set (v := rd_v rd) in *. set (bo := rd_bo rd) in *. set (f := rd_f rd) in *.
  set (nm := put_string v bo (ti_Name ti)) in *.
  set (nd := put bo 4 (ti_NDimensions ti)) in *.
  set (ds := concat (map (put_length v bo) (ti_Dimensions ti))) in *.
  set (ty := put bo 4 (ti_Type ti)) in *.
  set (off := put bo 8 (ti_Offset ti)) in *.
  assert (Hnd4 : length nd = 4%nat) by apply length_put.
  assert (Hty4 : length ty = 4%nat) by apply length_put.
  assert (Hoff8 : length off = 8%nat) by apply length_put.
  rewrite !length_app in Hsize.
  unfold Reader.TensorInfoReader_Read.
  erewrite mbind_step; [| apply wrapping_step, Seek_0_within; lia].
  (* name *)
  assert (Hf1 : content f = a ++ nm ++ (nd ++ ds ++ ty ++ off) ++ b)
    by (rewrite Hf, <- !app_assoc; reflexivity).
  assert (En := ReadString_string rd a _ (ti_Name ti) Hf1 Hname).
  lapply En; [clear En; intros En |].
  2:{ right. right. intros E. apply (f_equal (@length byte)) in E.
    rewrite !length_app, Hnd4 in E. cbn in E. lia. }
  erewrite mbind_step; [| apply wrapping_step; exact En]. fold v bo nm.
  (* number of dimensions *)
  assert (Hf2 : content f = (a ++ nm) ++ nd ++ (ds ++ ty ++ off) ++ b)
    by (rewrite Hf, <- !app_assoc; reflexivity).
  pose proof (binary_Read_put f (a ++ nm) _ bo 4 (ti_NDimensions ti) Hf2 ltac:(lia)) as E2.
  change (256 ^ Z.of_nat 4) with (2 ^ 32) in E2. rewrite length_app in E2.
  rewrite Nat2Z.inj_add in E2.
  erewrite mbind_step;
    [| apply wrapping_step; unfold Reader.ReadUint32; apply wrapping_step;
       apply E2; lia].
  (* dimensions *)
  assert (Hf3 : content f = (a ++ nm ++ nd) ++ ds ++ (ty ++ off) ++ b)
    by (rewrite Hf, <- !app_assoc; reflexivity).
  pose proof (dimensions_read rd (ti_Dimensions ti) (a ++ nm ++ nd) _ [] 0 Hf3 Hdims) as E3.
  fold v bo ds in E3. rewrite !length_app, !Nat2Z.inj_add in E3.
  unfold forM, for_ at 1.
  rewrite Z.sub_0_r, <- Hlen, Nat2Z.id.
  unfold mbind at 1.
  replace (Z.of_nat (length a) + Z.of_nat (length nm) + Z.of_nat 4)
    with (Z.of_nat (length a) + (Z.of_nat (length nm) + Z.of_nat (length nd)))
    by (rewrite Hnd4; lia).
  rewrite E3. cbn [app].
  (* type *)
  assert (Hf4 : content f = (a ++ nm ++ nd ++ ds) ++ ty ++ off ++ b)
    by (rewrite Hf, <- !app_assoc; reflexivity).
  pose proof (binary_Read_put f (a ++ nm ++ nd ++ ds) _ bo 4 (ti_Type ti) Hf4 ltac:(lia)) as E4.
  change (256 ^ Z.of_nat 4) with (2 ^ 32) in E4. rewrite !length_app in E4.
  rewrite !Nat2Z.inj_add in E4.
  replace (Z.of_nat (length a) + (Z.of_nat (length nm) + Z.of_nat (length nd))
           + Z.of_nat (length ds))
    with (Z.of_nat (length a)
          + (Z.of_nat (length nm) + (Z.of_nat (length nd) + Z.of_nat (length ds))))
    by lia.
  erewrite mbind_step;
    [| apply wrapping_step; unfold Reader.ReadUint32; apply wrapping_step;
       apply E4; lia].
  rewrite (proj2 (Z.leb_gt _ _)) by lia.
  (* offset *)
  assert (Hf5 : content f = (a ++ nm ++ nd ++ ds ++ ty) ++ off ++ b)
    by (rewrite Hf, <- !app_assoc; reflexivity).
  pose proof (binary_Read_put f (a ++ nm ++ nd ++ ds ++ ty) b bo 8 (ti_Offset ti) Hf5
                ltac:(lia)) as E5.
  change (256 ^ Z.of_nat 8) with (2 ^ 64) in E5. rewrite !length_app in E5.
  rewrite !Nat2Z.inj_add in E5.
  replace (Z.of_nat (length a)
           + (Z.of_nat (length nm) + (Z.of_nat (length nd) + Z.of_nat (length ds)))
           + Z.of_nat 4)
    with (Z.of_nat (length a)
          + (Z.of_nat (length nm)
             + (Z.of_nat (length nd) + (Z.of_nat (length ds) + Z.of_nat (length ty)))))
    by (rewrite Hty4; lia).
  erewrite mbind_step;
    [| apply wrapping_step; unfold Reader.ReadUint64; apply wrapping_step;
       apply E5; lia].
  unfold mret. rewrite !length_app, Hoff8. f_equal. f_equal. lia.
Qed.

Lemma TensorInfoReader_Read_put_tensor_info_witness :
  Reader.TensorInfoReader_Read (H := example_ggml)
    (reader_v3 ([x2a] ++ put_tensor_info 3 LittleEndian tensor_output_weight ++ []) false) 1
  = Ok (tensor_output_weight, 54).
Proof.
  apply (TensorInfoReader_Read_put_tensor_info (H := example_ggml)
           (reader_v3 ([x2a] ++ put_tensor_info 3 LittleEndian tensor_output_weight ++ [])
              false)
           [x2a] [] tensor_output_weight).
  - reflexivity.
  - vm_compute. reflexivity.
  - cbv. split; [discriminate | reflexivity].
  - reflexivity.
  - reflexivity.
  - repeat constructor; discriminate.
  - cbv. split; [discriminate | reflexivity].
  - reflexivity.
  - cbv. split; [discriminate | reflexivity].
Defined.

(** ** File-type inference on any tensor list *)

Lemma count_no_blk (tis : GGUFTensorInfos) (cm : gmap Z Z) :
  Forall (fun ti => String.prefix "blk" (ti_Name ti) = false) tis ->
  FileType.count tis cm = cm.
Proof.
  intros HF. revert cm. induction HF as [|ti tis Hti _ IH]; intros cm; cbn.
  - reflexivity.
  - rewrite Hti. apply IH.
Qed.

Lemma count_keeps (tis : GGUFTensorInfos) (cm : gmap Z Z) (t : Z) :
  is_Some (cm !! t) -> is_Some (FileType.count tis cm !! t).
Proof.
  revert cm. induction tis as [|ti tis IH]; intros cm Hs; cbn; [exact Hs|].
  apply IH. destruct (String.prefix "blk" (ti_Name ti)); [|exact Hs].
  destruct (decide (ti_Type ti = t)) as [->|Hne].
  - rewrite lookup_insert_eq. eauto.
  - rewrite lookup_insert_ne by exact Hne. exact Hs.
Qed.

Lemma count_blk (tis : GGUFTensorInfos) (cm : gmap Z Z) (ti : GGUFTensorInfo) :
  In ti tis -> String.prefix "blk" (ti_Name ti) = true ->
  is_Some (FileType.count tis cm !! ti_Type ti).
Proof.
  revert cm. induction tis as [|x tis IH]; intros cm Hin Hblk; [destruct Hin|].
  cbn. destruct Hin as [->|Hin].
  - rewrite Hblk. apply count_keeps. rewrite lookup_insert_eq. eauto.
  - apply IH; assumption.
Qed.

Lemma count_from_blk (tis : GGUFTensorInfos) (cm : gmap Z Z) (t : Z) :
  is_Some (FileType.count tis cm !! t) ->
  is_Some (cm !! t)
  \/ exists ti, In ti tis /\ String.prefix "blk" (ti_Name ti) = true /\ ti_Type ti = t.
Proof.
  revert cm. induction tis as [|x tis IH]; intros cm Hs; cbn in Hs; [now left|].
  apply IH in Hs as [Hs | (ti & Hin & Hb & Ht)].
  - destruct (String.prefix "blk" (ti_Name x)) eqn:Hx; [|now left].
    destruct (decide (ti_Type x = t)) as [He|Hne].
    + right. exists x. cbn. auto.
    + rewrite lookup_insert_ne in Hs by exact Hne. now left.
  - right. exists ti. cbn. auto.
Qed.

Lemma ranked_keys (cm : gmap Z Z) (ts : list Z) :
  FileType.ranked cm ts ->
  List.NoDup ts /\ forall t, In t ts <-> is_Some (cm !! t).
Proof.
  intros [Hp _]. split.
  - eapply Permutation_NoDup; [symmetry; exact Hp|].
    apply NoDup_ListNoDup, NoDup_fst_map_to_list.
  - intros t. split.
    + intros Hin. eapply Permutation_in in Hin; [|exact Hp].
      apply in_map_iff in Hin as ([k v] & <- & Hin). cbn.
      apply list_elem_of_In, elem_of_map_to_list in Hin. eauto.
    + intros [v Hv]. eapply Permutation_in; [symmetry; exact Hp|].
      apply in_map_iff. exists (t, v). split; [reflexivity|].
      apply list_elem_of_In, elem_of_map_to_list. exact Hv.
Qed.

Lemma ranked_only_key (cm : gmap Z Z) (ts : list Z) (q : Z) :
  FileType.ranked cm ts ->
  is_Some (cm !! q) -> (forall t, is_Some (cm !! t) -> t = q) -> ts = [q].
Proof.
  intros Hr Hq Honly. apply ranked_keys in Hr as [Hnd Hk].
  destruct ts as [|a ts].
  - apply Hk in Hq. destruct Hq.
  - assert (a = q) as -> by (apply Honly, Hk; now left).
    destruct ts as [|b ts]; [reflexivity|].
    assert (b = q) as -> by (apply Honly, Hk; right; now left).
    apply List.NoDup_cons_iff in Hnd as [Hn _]. exfalso. apply Hn. now left.
Qed.

(** X21.  The outcomes of [guessFileType] on any tensor list, whatever
    order the sort leaves: without a tensor named [blk...] the result is
    the sentinel [_GGUFFileTypeCount]; when there are such tensors and all
    of them have type Q3_K the call panics with an index out of range; in
    every other case the result is a file-type tag or the sentinel. *)
Theorem guessFileType_outcomes `{GGMLDecls} (tis : GGUFTensorInfos) (r : Result Z) :
  FileType.guessFileType_outcome tis r ->
  (Forall (fun ti => String.prefix "blk" (ti_Name ti) = false) tis ->
     r = Ok _GGUFFileTypeCount)
  /\ ((exists ti, In ti tis /\ String.prefix "blk" (ti_Name ti) = true) ->
      (forall ti, In ti tis -> String.prefix "blk" (ti_Name ti) = true ->
                  ti_Type ti = GGMLTypeQ3_K) ->
      r = Panicked PanicIndexOutOfRange)
  /\ ((exists ti, In ti tis /\ String.prefix "blk" (ti_Name ti) = true
                  /\ ti_Type ti <> GGMLTypeQ3_K) ->
      exists t, r = Ok t /\ 0 <= t <= _GGUFFileTypeCount).
Proof.
  intros (ts & Hts & ->). unfold FileType.guessFileType_ranked.
  split; [| split].
  - intros Hno. destruct (_ =? _); [reflexivity|].
    rewrite (count_no_blk tis ∅ Hno) in Hts. destruct Hts as [Hp _].
    rewrite map_to_list_empty in Hp. cbn in Hp. symmetry in Hp.
    apply Permutation_nil in Hp. subst ts.
    reflexivity.
  - intros (ti & Hin & Hblk) Hall.
    destruct tis as [|x tis']; [destruct Hin|].
    replace (Z.of_nat (length (x :: tis')) =? 0) with false
      by (symmetry; apply Z.eqb_neq; cbn [length]; lia).
    rewrite (ranked_only_key _ ts GGMLTypeQ3_K Hts).
    + apply from_ranking_Q3_K_alone.
    + rewrite <- (Hall ti Hin Hblk). now apply count_blk.
    + intros t Ht. apply count_from_blk in Ht as [Ht | (tj & Hj & Hb & <-)].
      * rewrite lookup_empty in Ht. destruct Ht; discriminate.
      * now apply Hall.
  - intros (ti & Hin & Hblk & Hne).
    destruct (_ =? _); [eexists; split; [reflexivity | cbv; split; discriminate]|].
    apply from_ranking_total.
    apply ranked_keys in Hts as [Hnd Hk].
    assert (Hti : In (ti_Type ti) ts) by (apply Hk; now apply count_blk).
    destruct ts as [|a [|b ts']].
    + destruct Hti.
    + left. destruct Hti as [Ha|[]]. subst a. cbn. congruence.
    + right. cbn. lia.
Qed.

Lemma guessFileType_outcomes_witness :
  exists t, FileType.guessFileType (H := example_ggml) tensors_Q4_K_80_Q6_K_20 = Ok t
            /\ 0 <= t <= _GGUFFileTypeCount.
Proof.
  refine (proj2 (proj2 (guessFileType_outcomes (H := example_ggml)
                          tensors_Q4_K_80_Q6_K_20 _ _)) _).
  - exists (FileType.rank (FileType.count (tensors_Q4_K_80_Q6_K_20 (H := example_ggml)) ∅)).
    split; [apply rank_ranked | reflexivity].
  - eexists. split; [left; reflexivity |]. split; [reflexivity | discriminate].
Defined.

Ltac dominant_case :=
  unfold FileType.from_ranking, FileType.GGMLType;
  rewrite index_0; cbn [rbind];
  match goal with
  | |- context [Z.of_nat (length (?t :: ?rest)) =? 0] =>
      replace (Z.of_nat (length (t :: rest)) =? 0) with false
        by (symmetry; apply Z.eqb_neq; cbn [length]; lia)
  end;
  ggml_compare; eexists; split; [reflexivity | reflexivity].

(** X22.  The inferred tag names the most frequent type: when the first
    ranked type is a [ggml.go] type other than the four K-quants Q3_K,
    Q4_K, Q5_K and Q6_K (whose cases return legacy tags), the [switch] of
    [guessFileType] returns a tag that [GGUFFileType.GGMLType] maps back
    to that type. *)
Theorem guessFileType_tag_maps_back `{GGMLDecls} (t : Z) (rest : list Z) :
  In t ggml_types ->
  ~ In t [GGMLTypeQ3_K; GGMLTypeQ4_K; GGMLTypeQ5_K; GGMLTypeQ6_K] ->
  exists ft, FileType.from_ranking (t :: rest) = Ok ft /\ FileType.GGMLType ft = t.
Proof.
  intros Hin Hk. unfold ggml_types in Hin. cbn [In] in Hin, Hk.
  repeat (destruct Hin as [<- | Hin]; [try (exfalso; tauto); dominant_case |]).
  destruct Hin.
Qed.

Lemma guessFileType_tag_maps_back_witness :
  exists ft, FileType.from_ranking (H := example_ggml) [GGMLTypeF16; GGMLTypeQ6_K] = Ok ft
             /\ FileType.GGMLType (H := example_ggml) ft = GGMLTypeF16.
Proof.
  apply (guessFileType_tag_maps_back (H := example_ggml) GGMLTypeF16 [GGMLTypeQ6_K]).
  - right. left. reflexivity.
  - cbn. intros [E | [E | [E | [E | []]]]]; discriminate E.
Defined.

(** ** What [Layers] leaves out for the ignored names *)

Lemma Split_nonempty (s : string) : Split s "." <> [].
Proof.
  induction s as [|c s IH]; cbn; [discriminate|].
  destruct (Ascii.eqb c "."); [discriminate|].
  destruct (Split s "."); [contradiction | discriminate].
Qed.

Lemma Split_no_dot (s : string) : Forall no_dot (Split s ".").
Proof.
  induction s as [|c s IH]; cbn.
  - repeat constructor.
  - destruct (Ascii.eqb_spec c ".") as [->|Hc].
    + constructor; [exact I | exact IH].
    + destruct (Split s ".") as [|h t]; [repeat constructor; assumption|].
      apply List.Forall_cons_iff in IH as [Hh Ht].
      constructor; [split; assumption | exact Ht].
Qed.

Lemma Split_of_no_dot (s : string) : no_dot s -> Split s "." = [s].
Proof.
  induction s as [|c s IH]; cbn; [reflexivity|].
  intros [Hc Hs]. rewrite (proj2 (Ascii.eqb_neq _ _) Hc), (IH Hs). reflexivity.
Qed.

Lemma Split_app_dot (a b : string) :
  no_dot a -> Split (a ++ String "." b) "." = a :: Split b ".".
Proof.
  induction a as [|c a IH]; [reflexivity|].
  intros [Hc Ha]. change (String c a ++ String "." b)%string
    with (String c (a ++ String "." b)).
  cbn [Split]. rewrite (proj2 (Ascii.eqb_neq _ _) Hc), (IH Ha). reflexivity.
Qed.

Lemma nth_no_dot (ps : list string) (i : nat) :
  Forall no_dot ps -> no_dot (nth i ps EmptyString).
Proof.
  intros HF. revert i. induction HF as [|p ps Hp _ IH]; intros [|i]; cbn; auto.
Qed.

Lemma top_key_blk (b : string) :
  no_dot b -> top_key (Join ["blk"%string; b] ".") = Join ["blk"%string; b] ".".
Proof.
  intros Hb. unfold top_key.
  change (Join ["blk"%string; b] ".") with ("blk" ++ String "." b)%string.
  rewrite (Split_app_dot "blk" b) by (cbn; repeat split; discriminate).
  rewrite (Split_of_no_dot b Hb). reflexivity.
Qed.

Lemma top_key_coder_block (c rest : string) :
  c = "decoder"%string \/ c = "encoder"%string ->
  top_key c = c /\ top_key (Join [c; "block"%string; rest] ".") = c.
Proof.
  intros Hc. split; [destruct Hc as [-> | ->]; reflexivity|].
  unfold top_key.
  change (Join [c; "block"%string; rest] ".")
    with (c ++ String "." ("block" ++ String "." rest))%string.
  assert (Hnd : no_dot c)
    by (destruct Hc as [-> | ->]; cbn; repeat split; discriminate).
  rewrite (Split_app_dot c _ Hnd).
  rewrite (Split_app_dot "block" rest) by (cbn; repeat split; discriminate).
  pose proof (Split_nonempty rest) as Hne.
  destruct (Split rest ".") as [|h t]; [contradiction|].
  cbn [length nth].
  replace (2 <=? Z.of_nat (S (S (S (length t))))) with true
    by (symmetry; apply Z.leb_le; lia).
  replace (3 <=? Z.of_nat (S (S (S (length t))))) with true
    by (symmetry; apply Z.leb_le; lia).
  destruct Hc as [-> | ->]; reflexivity.
Qed.

Section Ignoring.
Import Layers LayerTensorInfos.

Lemma item_name_append_at (l : string) (x v : IGGUFTensorInfos) :
  item_name (append_at l x v) = item_name v.
Proof. destruct v; reflexivity. Qed.

Lemma in_concat_repeat {A} (x : list A) (k : nat) (a : A) :
  In a (concat (repeat x k)) -> In a x /\ (0 < k)%nat.
Proof.
  induction k as [|k IH]; cbn; [tauto|].
  rewrite in_app_iff. intros [H|H]; [split; [exact H | lia]|].
  destruct (IH H). split; [assumption | lia].
Qed.

Lemma grouped_append_leaf (l : string) (ti : GGUFTensorInfo) (v : IGGUFTensorInfos) :
  top_key l = top_key (ti_Name ti) ->
  grouped v -> grouped (append_at l (ITensorInfo ti) v).
Proof.
  intros Hl [G1 G2]. split.
  - intros t Ht. rewrite item_name_append_at.
    eapply Permutation_in in Ht; [| apply leaves_append_at].
    apply in_app_iff in Ht as [Ht | Ht]; [now apply G1|].
    apply in_concat_repeat in Ht as [Ht Hk]. cbn in Ht. destruct Ht as [<- | []].
    rewrite <- Hl. now apply G2.
  - intros q Hq. rewrite item_name_append_at.
    rewrite branches_append_at in Hq. cbn [branches_at] in Hq.
    apply G2. lia.
Qed.

Lemma grouped_append_branch (xl p : string) (v : IGGUFTensorInfos) :
  top_key p = top_key xl ->
  grouped v -> grouped (append_at xl (INamed p []) v).
Proof.
  intros Hp [G1 G2]. split.
  - intros t Ht. rewrite item_name_append_at.
    eapply Permutation_in in Ht; [| apply leaves_append_at].
    apply in_app_iff in Ht as [Ht | Ht]; [now apply G1|].
    apply in_concat_repeat in Ht as [Ht _]. destruct Ht.
  - intros q Hq. rewrite item_name_append_at.
    rewrite branches_append_at, branches_at_fresh in Hq.
    destruct (String.eqb_spec p q) as [E | Hne].
    + destruct (Nat.eq_dec (branches_at xl v) 0%nat) as [Hz | Hz].
      * apply G2. lia.
      * rewrite <- E, Hp. apply G2. lia.
    + apply G2. lia.
Qed.

Lemma grouped_fresh (p : string) : top_key p = p -> grouped (INamed p []).
Proof.
  intros Hp. split.
  - intros t [].
  - intros q Hq. rewrite branches_at_fresh in Hq.
    destruct (String.eqb_spec p q) as [E | Hne]; [now rewrite <- E | lia].
Qed.

Lemma grouped_leaf (ti : GGUFTensorInfo) :
  top_key (ti_Name ti) = ti_Name ti -> grouped (ITensorInfo ti).
Proof.
  intros Hti. split.
  - intros t [<- | []]. exact Hti.
  - intros q Hq. cbn in Hq. lia.
Qed.

Lemma grouped_store_leaf (l : string) (ti : GGUFTensorInfo) (st : State) :
  top_key l = top_key (ti_Name ti) ->
  Forall grouped (ret st) -> Forall grouped (ret (store l (ITensorInfo ti) st)).
Proof.
  intros Hl HG. cbn. apply List.Forall_map.
  eapply List.Forall_impl; [| exact HG]. intros v. now apply grouped_append_leaf.
Qed.

Lemma grouped_ensure_top (st : State) (p : string) :
  top_key p = p -> Forall grouped (ret st) ->
  Forall grouped
    (ret match pm st !! p with
         | None => {| ret := ret st ++ [INamed p []]; pm := <[ p := p ]> (pm st) |}
         | Some _ => st
         end).
Proof.
  intros Hp HG. destruct (pm st !! p); [exact HG|]. cbn.
  apply List.Forall_app. split; [exact HG|]. constructor; [|constructor].
  now apply grouped_fresh.
Qed.

Lemma grouped_ensure_nested (st : State) (xl p : string) :
  top_key p = top_key xl -> Forall grouped (ret st) ->
  Forall grouped
    (ret match pm st !! p with
         | None => {| ret := ret (store xl (INamed p []) st);
                      pm := <[ p := p ]> (pm st) |}
         | Some _ => st
         end).
Proof.
  intros Hp HG. destruct (pm st !! p); [exact HG|]. cbn.
  apply List.Forall_map.
  eapply List.Forall_impl; [| exact HG]. intros v. now apply grouped_append_branch.
Qed.

(** One iteration keeps every top-level entry grouped. *)
Lemma step_grouped (st st' : State) (ti : GGUFTensorInfo) :
  well_formed st -> Forall grouped (ret st) ->
  step st ti = Ok st' -> Forall grouped (ret st').
Proof.
  intros Hwf HG. unfold step.
  assert (Htk := eq_refl (top_key (ti_Name ti))). unfold top_key at 2 in Htk.
  set (ps := Split (ti_Name ti) ".") in *. cbv zeta in Htk |- *.
  assert (Hnd : forall i, no_dot (nth i ps EmptyString))
    by (intros i; apply nth_no_dot, Split_no_dot).
  destruct ((2 <=? Z.of_nat (length ps)) && String.eqb (nth 0 ps EmptyString) "blk")
    eqn:C1.
  - apply andb_true_iff in C1 as [_ C1]. apply String.eqb_eq in C1.
    rewrite C1 in *.
    assert (Hp : top_key (Join ["blk"%string; nth 1 ps EmptyString] ".")
                 = Join ["blk"%string; nth 1 ps EmptyString] ".")
      by apply top_key_blk, Hnd.
    destruct (ensure_top st (Join ["blk"%string; nth 1 ps EmptyString] ".") Hwf)
      as (Hwf1 & Hp1 & _).
    pose proof (grouped_ensure_top st _ Hp HG) as HG1.
    cbv zeta in Hwf1, Hp1. rewrite (load_key _ _ Hp1). cbn [rbind].
    intros [= <-]. apply grouped_store_leaf; [| exact HG1]. rewrite Htk. exact Hp.
  - destruct ((3 <=? Z.of_nat (length ps))
              && (String.eqb (nth 0 ps EmptyString) "decoder"
                  || String.eqb (nth 0 ps EmptyString) "encoder")) eqn:C2.
    + apply andb_true_iff in C2 as [_ C2]. apply orb_true_iff in C2.
      rewrite !String.eqb_eq in C2.
      destruct (top_key_coder_block (nth 0 ps EmptyString) (nth 2 ps EmptyString) C2)
        as [Hc Hb].
      destruct (ensure_top st (nth 0 ps EmptyString) Hwf) as (Hwf1 & Hp1 & _).
      pose proof (grouped_ensure_top st _ Hc HG) as HG1.
      cbv zeta in Hwf1, Hp1. rewrite (load_key _ _ Hp1). cbn [rbind].
      destruct (String.eqb_spec (nth 1 ps EmptyString) "block") as [Hblock | Hblock];
        cbn [negb].
      * rewrite Hblock in *.
        destruct (ensure_nested _ (nth 0 ps EmptyString)
                    (Join [nth 0 ps EmptyString; "block"%string;
                           nth 2 ps EmptyString] ".") Hwf1 Hp1)
          as (Hwf2 & Hp2 & _).
        pose proof (grouped_ensure_nested _ (nth 0 ps EmptyString)
                      (Join [nth 0 ps EmptyString; "block"%string;
                             nth 2 ps EmptyString] ".")
                      ltac:(congruence) HG1) as HG2.
        cbv zeta in Hwf2, Hp2. rewrite (load_key _ _ Hp2). cbn [rbind].
        intros [= <-]. apply grouped_store_leaf; [| exact HG2]. rewrite Htk. exact Hb.
      * intros [= <-]. apply grouped_store_leaf; [| exact HG1]. rewrite Htk. exact Hc.
    + intros [= <-]. cbn. apply List.Forall_app. split; [exact HG|].
      constructor; [|constructor]. apply grouped_leaf. congruence.
Qed.

Lemma run_grouped (tis : GGUFTensorInfos) :
  forall st st', well_formed st -> Forall grouped (ret st) ->
                 run st tis = Ok st' -> Forall grouped (ret st').
Proof.
  induction tis as [|ti tis IH]; intros st st' Hwf HG; cbn.
  - now intros [= <-].
  - destruct (step_spec st ti Hwf) as (st1 & E1 & Hwf1 & _). rewrite E1. cbn [rbind].
    apply IH; [exact Hwf1|]. exact (step_grouped st st1 ti Hwf HG E1).
Qed.

(** The tensors below the entries that [Cut] keeps. *)
Lemma leaves_filter_grouped (ltis : GGUFLayerTensorInfos) (f : string -> bool) :
  Forall grouped ltis ->
  leaves (List.filter (fun v => f (item_name v)) ltis)
  = List.filter (fun ti => f (top_key (ti_Name ti))) (leaves ltis).
Proof.
  unfold leaves. induction 1 as [|v ltis [G1 _] _ IH]; cbn; [reflexivity|].
  rewrite List.filter_app, <- IH.
  assert (Hv : List.filter (fun ti => f (top_key (ti_Name ti))) (leaves_item v)
               = if f (item_name v) then leaves_item v else []).
  { assert (Hall : forall l, (forall ti, In ti l -> top_key (ti_Name ti) = item_name v) ->
               List.filter (fun ti => f (top_key (ti_Name ti))) l
               = if f (item_name v) then l else []).
    { induction l as [|t l IHl]; intros Hl; cbn.
      - now destruct (f _).
      - rewrite (Hl t) by now left. rewrite IHl by (intros; apply Hl; now right).
        now destruct (f _). }
    apply Hall, G1. }
  rewrite Hv. destruct (f (item_name v)); reflexivity.
Qed.
End Ignoring.

Lemma stdpp_filter_bool {A} (P : A -> Prop) `{forall x, Decision (P x)} (l : list A) :
  filter P l = List.filter (fun x => bool_decide (P x)) l.
Proof.
  induction l as [|x l IH]; [reflexivity|].
  rewrite filter_cons. cbn [List.filter]. rewrite <- IH.
  destruct (decide (P x)) as [Hx|Hx].
  - now rewrite bool_decide_eq_true_2.
  - now rewrite bool_decide_eq_false_2.
Qed.

Lemma filter_all {A} (f : A -> bool) (l : list A) :
  (forall x, f x = true) -> List.filter f l = l.
Proof.
  intros Hf. induction l as [|x l IH]; cbn; [reflexivity|]. now rewrite Hf, IH.
Qed.

(** X23.  [Layers] with ignored names drops whole top-level groups and
    nothing else: the tree it returns holds, once each, exactly the
    tensors of the list whose top-level key (the branch [blk.N], the
    branch [decoder] or [encoder], or else the tensor's own name) is not
    among the ignored names, and no entry of the tree carries an ignored
    name. *)
Theorem Layers_ignores_whole_groups (tis : GGUFTensorInfos) (ignores : list string) :
  exists ltis,
    Layers.Layers tis ignores = Ok ltis
    /\ Permutation (LayerTensorInfos.leaves ltis)
         (List.filter (fun ti => bool_decide (top_key (ti_Name ti) ∉ ignores)) tis)
    /\ Forall (fun v => item_name v ∉ ignores) ltis.
Proof.
  destruct (run_spec tis _ well_formed_empty) as (st & Hrun & Hwf & Hl).
  assert (HG : Forall grouped (Layers.ret st)).
  { eapply run_grouped; [apply well_formed_empty | constructor | exact Hrun]. }
  cbn [Layers.ret app] in Hl.
  unfold Layers.Layers, Layers.layers. rewrite Hrun. cbn [rbind].
  destruct ignores as [|i0 ignores'].
  - cbn [length Z.of_nat Z.eqb negb]. exists (Layers.ret st).
    split; [reflexivity|]. split.
    + rewrite filter_all; [exact Hl|]. intros ti. apply bool_decide_eq_true_2.
      apply not_elem_of_nil.
    + apply List.Forall_forall. intros v _. apply not_elem_of_nil.
  - set (ignores := i0 :: ignores') in *.
    replace (Z.of_nat (length ignores) =? 0) with false
      by (symmetry; apply Z.eqb_neq; unfold ignores; cbn [length]; lia).
    cbn [negb]. unfold LayerTensorInfos.Cut. cbv zeta.
    eexists. split; [reflexivity|].
    change (fun v : IGGUFTensorInfos =>
              match v with ITensorInfo ti => ti_Name ti | INamed n _ => n end
              ∉ (list_to_set ignores : gset string))
      with (fun v : IGGUFTensorInfos => item_name v ∉ (list_to_set ignores : gset string)).
    unfold GGUFLayerTensorInfos. rewrite stdpp_filter_bool.
    split.
    + pose proof (leaves_filter_grouped (Layers.ret st)
                    (fun n => bool_decide (n ∉ (list_to_set ignores : gset string))) HG)
        as E.
      cbv beta in E.
      match goal with
      | |- Permutation ?X _ =>
          match type of E with
          | _ = ?Y => replace X with Y by (symmetry; exact E)
          end
      end.
      rewrite (filter_perm _ _ _ Hl).
      erewrite List.filter_ext; [reflexivity|].
      intros ti. cbv beta. apply bool_decide_ext. now rewrite elem_of_list_to_set.
    + apply List.Forall_forall. intros v Hv. apply List.filter_In in Hv as [_ Hv].
      apply bool_decide_eq_true_1 in Hv. now rewrite elem_of_list_to_set in Hv.
Qed.



(** ** The model metadata *)

Lemma kvs_Index_loop_sound (ks : gset string) (kvs : GGUFMetadataKVs) :
  forall (values : gmap string GGUFMetadataKV) (found : Z) (k : string)
         (kv : GGUFMetadataKV),
    fst (MetadataKV.Index_loop ks kvs values found) !! k = Some kv ->
    values !! k = Some kv \/ (In kv kvs /\ kv_Key kv = k /\ k ∈ ks).
Proof.
  induction kvs as [|x kvs IH]; intros values found k kv; cbn; [now left|].
  destruct (decide (kv_Key x ∈ ks)) as [Hin|Hout].
  - destruct (_ =? _); cbn [fst].
    + destruct (decide (k = kv_Key x)) as [->|Hk].
      * rewrite lookup_insert_eq. intros [= <-]. right. auto.
      * rewrite lookup_insert_ne by congruence. now left.
    + intros Hv. apply IH in Hv as [Hv | (Hi & Hk & Hks)]; [| right; auto].
      destruct (decide (k = kv_Key x)) as [->|Hk].
      * rewrite lookup_insert_eq in Hv. injection Hv as <-. right. auto.
      * rewrite lookup_insert_ne in Hv by congruence. now left.
  - destruct (_ =? _); cbn [fst]; [now left|].
    intros Hv. apply IH in Hv as [Hv | (Hi & Hk & Hks)]; [now left | right; auto].
Qed.

Lemma kvs_Index_none (kvs : GGUFMetadataKVs) (keys : list string) :
  Forall (fun kv => kv_Key kv ∉ keys) kvs ->
  fst (MetadataKV.Index kvs keys) = ∅.
Proof.
  intros Hno. apply map_eq. intros k. rewrite lookup_empty.
  destruct (fst (MetadataKV.Index kvs keys) !! k) as [kv|] eqn:E; [|reflexivity].
  apply kvs_Index_loop_sound in E as [E | (Hin & Hk & Hks)].
  - rewrite lookup_empty in E. discriminate.
  - rewrite List.Forall_forall in Hno. specialize (Hno kv Hin).
    rewrite Hk in Hno. apply elem_of_list_to_set in Hks. contradiction.
Qed.

(** X25.  Without any of the nine [general.*] keys in the metadata,
    [Model] returns the defaults: empty strings, quantization version 0,
    alignment 32 and the file type inferred from the tensors; it panics
    only if that inference does. *)
Theorem Model_without_general_keys `{GGMLDecls} (f32 f64 : Z -> Z)
    (gf : GGUFFile) (ts : list Z) :
  Forall (fun kv => kv_Key kv ∉ ModelMetadata.keys) (MetadataKV (Header gf)) ->
  ModelMetadata.Model_ranked f32 f64 gf ts
  = (ft <-! FileType.guessFileType_ranked (TensorInfos gf) ts;
     Ok {| gm_Architecture := ""; gm_QuantizationVersion := 0; gm_Alignment := 32;
           gm_Name := ""; gm_Author := ""; gm_URL := ""; gm_Description := "";
           gm_License := ""; gm_FileType := ft;
           gm_LittleEndian := (Version (Header gf) <? GGUFVersionV3)
                              || (Magic (Header gf) =? GGUFMagicGGUFLe);
           gm_Size := ModelSize gf; gm_Parameters := ModelParameters gf |}).
Proof.
  intros Hno. unfold ModelMetadata.Model_ranked.
  pose proof (kvs_Index_none _ _ Hno) as Hm.
  destruct (MetadataKV.Index _ _) as [m found]. cbn [fst] in Hm. subst m.
  unfold ModelMetadata.Model_with, ModelMetadata.string_field,
    ModelMetadata.uint32_field.
  rewrite !lookup_empty. cbn [rbind].
  rewrite Z.leb_refl. reflexivity.
Qed.

Lemma Model_with_ext `{GGMLDecls} (f32 f64 : Z -> Z)
    (m m' : string -> option GGUFMetadataKV) (gf : GGUFFile) (ts : list Z) :
  (forall k, In k ModelMetadata.keys -> m k = m' k) ->
  ModelMetadata.Model_with f32 f64 m gf ts = ModelMetadata.Model_with f32 f64 m' gf ts.
Proof.
  intros Hm. unfold ModelMetadata.Model_with, ModelMetadata.string_field,
    ModelMetadata.uint32_field.
  rewrite !Hm by (cbn; tauto). reflexivity.
Qed.

Lemma Model_ranked_by_Get `{GGMLDecls} (f32 f64 : Z -> Z) (gf : GGUFFile) (ts : list Z) :
  List.NoDup (map kv_Key (MetadataKV (Header gf))) ->
  ModelMetadata.Model_ranked f32 f64 gf ts
  = ModelMetadata.Model_with f32 f64 (MetadataKV.Get (MetadataKV (Header gf))) gf ts.
Proof.
  intros Hnd. unfold ModelMetadata.Model_ranked.
  pose proof (kvs_Index_loop_unique (list_to_set ModelMetadata.keys)
                (MetadataKV (Header gf)) ∅ 0 Hnd) as Hi.
  unfold MetadataKV.Index.
  destruct (MetadataKV.Index_loop _ _ _ _) as [m found].
  destruct Hi as [_ Hm].
  - intros x Hx. rewrite dom_empty_L in Hx. now apply elem_of_empty in Hx.
  - intros. apply lookup_empty.
  - rewrite map_size_empty. reflexivity.
  - apply Model_with_ext. intros k Hk. rewrite Hm, lookup_empty.
    rewrite decide_True; [reflexivity|].
    apply elem_of_list_to_set, list_elem_of_In. exact Hk.
Qed.

(** X26.  On metadata with pairwise distinct keys, [Model] reads each
    field from the entry of its key.  An entry of the wrong tag makes it
    panic: for [general.architecture], the first field read, with the
    invalid-type error of [ValueString].  A [general.file_type] below
    [_GGUFFileTypeCount], stored as uint32 and the only [general.*] key
    present, is returned as the file type beside the defaults, without the
    tensors being inspected. *)
Theorem Model_reads_entries_by_key `{GGMLDecls} (f32 f64 : Z -> Z)
    (gf : GGUFFile) (ts : list Z) :
  List.NoDup (map kv_Key (MetadataKV (Header gf))) ->
  ModelMetadata.Model_ranked f32 f64 gf ts
  = ModelMetadata.Model_with f32 f64 (MetadataKV.Get (MetadataKV (Header gf))) gf ts
  /\ (forall v, MetadataKV.Get (MetadataKV (Header gf)) "general.architecture" = Some v ->
                kv_ValueType v <> GGUFMetadataValueTypeString ->
                ModelMetadata.Model_ranked f32 f64 gf ts
                = Panicked (PanicInvalidType (kv_ValueType v)))
  /\ (forall v x,
        (forall k, In k ModelMetadata.keys -> k <> "general.file_type"%string ->
                   MetadataKV.Get (MetadataKV (Header gf)) k = None) ->
        MetadataKV.Get (MetadataKV (Header gf)) "general.file_type" = Some v ->
        kv_ValueType v = GGUFMetadataValueTypeUint32 -> kv_Value v = AUint32 x ->
        0 <= x < _GGUFFileTypeCount ->
        ModelMetadata.Model_ranked f32 f64 gf ts
        = Ok {| gm_Architecture := ""; gm_QuantizationVersion := 0; gm_Alignment := 32;
                gm_Name := ""; gm_Author := ""; gm_URL := ""; gm_Description := "";
                gm_License := ""; gm_FileType := x;
                gm_LittleEndian := (Version (Header gf) <? GGUFVersionV3)
                                   || (Magic (Header gf) =? GGUFMagicGGUFLe);
                gm_Size := ModelSize gf; gm_Parameters := ModelParameters gf |}).
Proof.
  intros Hnd. rewrite (Model_ranked_by_Get f32 f64 gf ts Hnd).
  split; [reflexivity|]. split.
  - intros v Hv Hne. unfold ModelMetadata.Model_with, ModelMetadata.string_field at 1.
    rewrite Hv. unfold MetadataKV.ValueString.
    rewrite (proj2 (Z.eqb_neq _ _) Hne). reflexivity.
  - intros v x Hothers Hv Hty Hval Hx.
    unfold ModelMetadata.Model_with, ModelMetadata.string_field,
      ModelMetadata.uint32_field.
    rewrite !Hothers by (cbn; first [tauto | discriminate]).
    rewrite Hv. cbn [rbind]. unfold MetadataKV.ValueNumeric. rewrite Hty, Hval.
    cbn [Z.eqb Pos.eqb GGUFMetadataValueTypeUint32 GGUFMetadataValueTypeUint8
           GGUFMetadataValueTypeInt8 GGUFMetadataValueTypeUint16
           GGUFMetadataValueTypeInt16 rbind cast_int Numeric_uint].
    rewrite (wrap_small 32 x) by (unfold _GGUFFileTypeCount in Hx; lia).
    rewrite (proj2 (Z.leb_gt _ _)) by lia. reflexivity.
Qed.

Lemma Model_without_general_keys_witness :
  ModelMetadata.Model_ranked (H := example_ggml) (fun b => b) (fun b => b)
    (decoded_file metadata_tokenizer_only tensors_two_groups) [0]
  = Ok {| gm_Architecture := ""; gm_QuantizationVersion := 0; gm_Alignment := 32;
          gm_Name := ""; gm_Author := ""; gm_URL := ""; gm_Description := "";
          gm_License := ""; gm_FileType := GGUFFileTypeAllF32;
          gm_LittleEndian := true; gm_Size := 32; gm_Parameters := 8 |}.
Proof.
  rewrite (Model_without_general_keys (H := example_ggml) (fun b => b) (fun b => b)
             (decoded_file metadata_tokenizer_only tensors_two_groups) [0]).
  - reflexivity.
  - repeat constructor. compute_done.
Defined.

Lemma Model_reads_entries_by_key_witness :
  ModelMetadata.Model_ranked (H := example_ggml) (fun b => b) (fun b => b)
    (decoded_file metadata_file_type_only tensors_Q3_K_only) [11]
  = Ok {| gm_Architecture := ""; gm_QuantizationVersion := 0; gm_Alignment := 32;
          gm_Name := ""; gm_Author := ""; gm_URL := ""; gm_Description := "";
          gm_License := ""; gm_FileType := GGUFFileTypeMostlyQ8_0;
          gm_LittleEndian := true; gm_Size := 32; gm_Parameters := 8 |}.
Proof.
  refine (proj2 (proj2 (Model_reads_entries_by_key (H := example_ggml)
                          (fun b => b) (fun b => b)
                          (decoded_file metadata_file_type_only tensors_Q3_K_only) [11] _))
            _ 7 _ eq_refl eq_refl eq_refl _).
  - cbn. repeat constructor; cbn; intuition discriminate.
  - intros k Hk Hne. cbn in Hk.
    repeat (destruct Hk as [<- | Hk]; [first [reflexivity | contradiction] |]).
    destruct Hk.
  - cbv. split; [discriminate | reflexivity].
Defined.

(** ** The tensor data start of a decoded file *)

Lemma within_mret {A} f (a : A) : within f (mret a).
Proof. intros pos x p' [= _ <-]. auto. Qed.

Lemma within_mfail {A} f (e : Error) : within f (mfail (A := A) e).
Proof. intros pos x p'. discriminate. Qed.

Lemma within_mbind {A B} f (m : M A) (k : A -> M B) :
  within f m -> (forall a, within f (k a)) -> within f (mbind m k).
Proof.
  intros Hm Hk pos b p' E Hpos. apply mbind_Ok in E as (a & p1 & E1 & E2).
  eapply Hk; [exact E2|]. eapply Hm; eassumption.
Qed.

Lemma within_wrapping {A} f (ctx : string) (m : M A) :
  within f m -> within f (wrapping ctx m).
Proof. intros Hm pos a p' E. apply wrapping_Ok in E. eapply Hm; eassumption. Qed.

Lemma within_wrapping_at {A} f (ctx : string) (i : Z) (m : M A) :
  within f m -> within f (wrapping_at ctx i m).
Proof. intros Hm pos a p' E. apply wrapping_at_Ok in E. eapply Hm; eassumption. Qed.

Lemma within_forM {A} f (lo hi : Z) (body : Z -> A -> M A) (a : A) :
  (forall i x, within f (body i x)) -> within f (forM lo hi body a).
Proof.
  intros Hbody pos a' p'. unfold forM, for_. generalize (Z.to_nat (hi - lo)) as n.
  intros n. revert lo a pos. induction n as [|n IH]; intros lo a pos; cbn [for_range].
  - intros [= _ <-]. auto.
  - cbn [fst snd]. destruct (body lo a pos) as [[a1 p1] | | |] eqn:Eb; cbn [rbind];
      try discriminate.
    intros E Hpos. eapply IH; [exact E|]. eapply Hbody; eassumption.
Qed.

Lemma within_binary_Read f (bo : ByteOrder) (n : Z) : within f (binary_Read f bo n).
Proof. intros pos a p' E _. apply binary_Read_Ok in E as (_ & -> & H). exact H. Qed.

Lemma within_Seek_0 f : within f (Seek f 0).
Proof. intros pos a p' E Hpos. apply Seek_0_Ok in E as [_ ->]. exact Hpos. Qed.

Lemma within_Read f (n : Z) : within f (Read f n).
Proof.
  intros pos a p'. unfold Read. destruct (_ && _); [intros [= _ <-]; auto|].
  destruct (Z.leb_spec (file_size f) pos); [discriminate|].
  intros [= _ <-] _. lia.
Qed.

Section ReaderWithin.
Variable rd : _GGUFReader.

Lemma within_ReadLength : within (rd_f rd) (Reader.ReadLength rd).
Proof.
  unfold Reader.ReadLength, Reader.ReadUint64FromUint32, Reader.ReadUint32, Reader.ReadUint64.
  destruct (_ <=? _); apply within_wrapping, within_binary_Read.
Qed.

Lemma within_ReadString : within (rd_f rd) (Reader.ReadString rd).
Proof.
  unfold Reader.ReadString.
  apply within_mbind; [apply within_wrapping, within_ReadLength | intros l].
  apply within_mbind; [apply within_wrapping, within_Read | intros; apply within_mret].
Qed.

Hypothesis Hmode : SkipLargeMetadata (rd_o rd) = false.

Lemma within_ReadArray_with (RV : Z -> M any) :
  (forall ty, within (rd_f rd) (RV ty)) ->
  within (rd_f rd) (Reader.ReadArray_with rd RV).
Proof.
  intros HRV. unfold Reader.ReadArray_with. rewrite Hmode. cbn [negb].
  apply within_mbind; [apply within_wrapping, within_Seek_0 | intros ?].
  apply within_mbind; [apply within_wrapping, within_binary_Read | intros ty].
  apply within_mbind; [apply within_wrapping, within_ReadLength | intros ?].
  apply within_mbind; [apply within_wrapping, within_Seek_0 | intros ?].
  apply within_mbind.
  { apply within_forM. intros i x.
    apply within_mbind; [apply within_wrapping_at, HRV | intros; apply within_mret]. }
  intros ?. apply within_mbind; [apply within_wrapping, within_Seek_0 | intros ?].
  apply within_mret.
Qed.

Lemma within_ReadValue (fuel : nat) (vt : Z) :
  within (rd_f rd) (Reader.ReadValue rd fuel vt).
Proof.
  revert vt. induction fuel as [|fuel IH]; intros vt; [intros pos a p'; discriminate|].
  cbn [Reader.ReadValue].
  destruct (_ <=? _); [apply within_mfail|].
  unfold Reader.ReadUint8, Reader.ReadInt8, Reader.ReadUint16, Reader.ReadInt16,
    Reader.ReadUint32, Reader.ReadInt32, Reader.ReadFloat32, Reader.ReadBool,
    Reader.ReadUint64, Reader.ReadInt64, Reader.ReadFloat64, Reader.ReadUint8.
  repeat match goal with
         | |- within _ (if ?c then _ else _) =>
             destruct c;
             [ repeat first [ apply within_mret | apply within_binary_Read
                            | apply within_ReadString | apply within_wrapping
                            | apply within_ReadArray_with; exact IH
                            | apply within_mbind | intros ? ] |]
         end.
  intros pos a p'. discriminate.
Qed.

Lemma within_MetadataReader_Read : within (rd_f rd) (Reader.MetadataReader_Read rd).
Proof.
  unfold Reader.MetadataReader_Read.
  apply within_mbind; [apply within_wrapping, within_ReadString | intros ?].
  apply within_mbind; [apply within_wrapping, within_wrapping, within_binary_Read | intros vt].
  destruct (_ <=? _); [apply within_mfail|].
  apply within_mbind; [apply within_wrapping, within_ReadValue | intros; apply within_mret].
Qed.
End ReaderWithin.

Lemma within_TensorInfoReader_Read `{GGMLDecls} (rd : _GGUFReader) :
  within (rd_f rd) (Reader.TensorInfoReader_Read rd).
Proof.
  unfold Reader.TensorInfoReader_Read.
  apply within_mbind; [apply within_wrapping, within_Seek_0 | intros ?].
  apply within_mbind; [apply within_wrapping, within_ReadString | intros ?].
  apply within_mbind; [apply within_wrapping, within_wrapping, within_binary_Read | intros ?].
  apply within_mbind.
  { apply within_forM. intros i x.
    apply within_mbind; [apply within_wrapping_at, within_ReadLength | intros; apply within_mret]. }
  intros ?. apply within_mbind; [apply within_wrapping, within_wrapping, within_binary_Read | intros v].
  destruct (_ <=? _); [apply within_mfail |].
  apply within_mbind; [apply within_wrapping, within_wrapping, within_binary_Read | intros; apply within_mret].
Qed.

Lemma le_val_bound (bs : list byte) : le_val bs < 256 ^ Z.of_nat (length bs).
Proof.
  induction bs as [|b bs IH]; cbn [le_val length]; [cbn; lia|].
  rewrite Nat2Z.inj_succ, Z.pow_succ_r by lia.
  assert (byte_val b < 256).
  { unfold byte_val. pose proof (Byte.to_N_bounded b). lia. }
  lia.
Qed.

Lemma decode_bound (bo : ByteOrder) (bs : list byte) :
  0 <= decode bo bs < 256 ^ Z.of_nat (length bs).
Proof.
  split; [apply decode_nonneg|]. destruct bo; cbn [decode].
  - apply le_val_bound.
  - rewrite <- length_rev. apply le_val_bound.
Qed.

Lemma slice_length (f : ReadSeeker) (pos n : Z) :
  (length (slice f pos n) <= Z.to_nat n)%nat.
Proof. unfold slice. rewrite length_firstn. lia. Qed.

Lemma binary_Read_range (f : ReadSeeker) (bo : ByteOrder) (n pos v p' : Z) :
  0 <= n -> binary_Read f bo n pos = Ok (v, p') -> 0 <= v < 256 ^ n.
Proof.
  intros Hn E. apply binary_Read_Ok in E as (-> & _ & _).
  pose proof (decode_bound bo (slice f pos n)) as [H1 H2].
  pose proof (slice_length f pos n) as Hl.
  split; [exact H1|]. eapply Z.lt_le_trans; [exact H2|].
  apply Z.pow_le_mono_r; lia.
Qed.

Lemma ReadValue_uint32_range (rd : _GGUFReader) (fuel : nat) (vt pos v p' : Z) :
  Reader.ReadValue rd fuel vt pos = Ok (AUint32 v, p') -> 0 <= v < 2 ^ 32.
Proof.
  destruct fuel as [| fuel]; [discriminate |]. cbn [Reader.ReadValue].
  destruct (_ <=? _); [discriminate |].
  repeat match goal with
         | |- (if ?a =? ?b then _ else _) _ = _ -> _ =>
             destruct (Z.eqb_spec a b) as [-> | _];
             [ let E := fresh in
               intros E; apply mbind_Ok in E as (? & ? & Ev & E);
               first [ discriminate E
                     | injection E as <- _;
                       apply wrapping_Ok, binary_Read_range in Ev; [exact Ev | lia] ] |]
         end.
  discriminate.
Qed.

Lemma Seek_0_range (f : ReadSeeker) (pos v p' : Z) :
  Seek f 0 pos = Ok (v, p') -> 0 <= v < 2 ^ 63.
Proof.
  unfold Seek. rewrite Z.add_0_r.
  destruct (Z.ltb_spec pos 0); [discriminate|].
  destruct (Z.leb_spec (2 ^ 63) pos); [discriminate|].
  intros [= <- _]. lia.
Qed.

Lemma MetadataReader_Read_uint32_range (rd : _GGUFReader) (pos : Z)
    (kv : GGUFMetadataKV) (p' : Z) :
  Reader.MetadataReader_Read rd pos = Ok (kv, p') ->
  forall v, kv_Value kv = AUint32 v -> 0 <= v < 2 ^ 32.
Proof.
  intros E. unfold Reader.MetadataReader_Read in E.
  apply mbind_Ok in E as (key & p1 & _ & E).
  apply mbind_Ok in E as (vt & p2 & _ & E).
  destruct (_ <=? _); [discriminate E |].
  apply mbind_Ok in E as (x & p3 & Ex & E).
  injection E as <- _. cbn. intros v ->.
  apply wrapping_Ok in Ex. eapply ReadValue_uint32_range. exact Ex.
Qed.

Lemma alignment_Ok_range (kvs : GGUFMetadataKVs) (ag : Z) :
  Forall (fun kv => forall v, kv_Value kv = AUint32 v -> 0 <= v < 2 ^ 32) kvs ->
  Parse.alignment kvs = Ok ag -> 0 <= ag < 2 ^ 32.
Proof.
  intros HQ. unfold Parse.alignment.
  destruct (MetadataKV.Get kvs "general.alignment") as [kv|] eqn:HG.
  - apply kvs_Get_In in HG as [Hin _].
    rewrite List.Forall_forall in HQ. specialize (HQ kv Hin).
    unfold MetadataKV.ValueUint32. destruct (negb _); [discriminate|].
    destruct (kv_Value kv); try discriminate. intros [= <-]. now apply HQ.
  - intros [= <-]. lia.
Qed.

(** X27.  In a file smaller than 2^62 bytes that [parseGGUFFile] decodes
    without [SkipLargeMetadata], the tensor data start is a multiple of
    the alignment (32, or the uint32 value of [general.alignment]); the
    padding lies between 1 and the alignment, the offset it is added to
    lies within the file, and the padding is a full alignment block
    exactly when that offset is aligned already. *)
Theorem parseGGUFFile_tensor_data_start_aligned `{GGMLDecls}
    (s : Z) (f : ReadSeeker) (o : _GGUFReadOptions) (gf : GGUFFile) :
  SkipLargeMetadata o = false ->
  file_size f < 2 ^ 62 ->
  Parse.parseGGUFFile s f o = Ok gf ->
  exists ag,
    Parse.alignment (MetadataKV (Header gf)) = Ok ag
    /\ 0 < ag < 2 ^ 32
    /\ 0 < Padding gf <= ag
    /\ TensorDataStartOffset gf mod ag = 0
    /\ 0 <= TensorDataStartOffset gf - Padding gf <= file_size f
    /\ (Padding gf = ag <-> (TensorDataStartOffset gf - Padding gf) mod ag = 0).
Proof.
  intros Hmode Hbig. unfold Parse.parseGGUFFile. intros E.
  destruct (mbind _ _ 0) as [[gf' p']| | |] eqn:Em; try discriminate E.
  injection E as ->.
  apply mbind_Ok in Em as (magic & p1 & E1 & Em).
  assert (H1 : p1 <= file_size f).
  { eapply (within_wrapping f _ _ (within_binary_Read f _ _)); [exact E1|].
    unfold file_size. lia. }
  apply mbind_Ok in Em as (bo & p2 & E2 & Em).
  apply lift_Ok in E2 as [_ ->].
  unfold Parse.after_magic in Em.
  apply mbind_Ok in Em as (version & p3 & E3 & Em).
  assert (H3 : p3 <= file_size f)
    by (eapply (within_wrapping f _ _ (within_binary_Read f _ _)); eassumption).
  set (rd := {| rd_v := version; rd_o := o; rd_f := f; rd_bo := bo |}) in *.
  apply mbind_Ok in Em as (tc & p4 & E4 & Em).
  assert (H4 : p4 <= file_size f)
    by (eapply (within_wrapping f _ _ (within_ReadLength rd)); eassumption).
  apply mbind_Ok in Em as (kc & p5 & E5 & Em).
  assert (H5 : p5 <= file_size f)
    by (eapply (within_wrapping f _ _ (within_ReadLength rd)); eassumption).
  apply mbind_Ok in Em as (kvs & p6 & Ekvs & Em).
  assert (H6 : p6 <= file_size f).
  { eapply (within_forM f); [| exact Ekvs | exact H5]. intros i x.
    apply within_mbind; [| intros; apply within_mret].
    apply within_wrapping_at, (within_MetadataReader_Read rd Hmode). }
  apply (forM_collect
           (fun i => wrapping_at "read metadata kv" i (Reader.MetadataReader_Read rd))
           (fun kv => forall v, kv_Value kv = AUint32 v -> 0 <= v < 2 ^ 32))
    in Ekvs as (xs & -> & _ & HQk).
  2:{ intros i q x q' Ex. apply wrapping_at_Ok in Ex.
      eapply MetadataReader_Read_uint32_range; exact Ex. }
  apply mbind_Ok in Em as (tis & p7 & Etis & Em).
  assert (H7 : p7 <= file_size f).
  { eapply (within_forM f); [| exact Etis | exact H6]. intros i x.
    apply within_mbind; [| intros; apply within_mret].
    apply within_wrapping_at, (within_TensorInfoReader_Read rd). }
  apply mbind_Ok in Em as (pds & p8 & E8 & Em).
  apply wrapping_Ok in E8. pose proof (Seek_0_range _ _ _ _ E8) as Hpds.
  apply Seek_0_Ok in E8 as [-> ->].
  apply mbind_Ok in Em as (ag & p9 & E9 & Em). apply lift_Ok in E9 as [Hag _].
  apply mbind_Ok in Em as (pad & p10 & E10 & Em). apply lift_Ok in E10 as [Hpad _].
  apply mbind_Ok in Em as (params & p11 & _ & Em).
  injection Em as <- _.
  cbn [Header MetadataKV Padding TensorDataStartOffset app].
  pose proof (alignment_Ok_range _ _ HQk Hag) as Hr.
  assert (Hnz : ag <> 0).
  { intros ->. unfold Parse.padding in Hpad. discriminate Hpad. }
  destruct (padding_range ag p7 ltac:(lia) ltac:(lia))
    as (pad' & Hpad' & -> & Hrange & Hmod & Hfull).
  rewrite Hpad in Hpad'. injection Hpad' as ->.
  exists ag. split; [exact Hag|]. split; [lia|]. split; [exact Hrange|].
  rewrite swrap_small by (cbn; lia).
  split; [exact Hmod|].
  replace (p7 + (ag - p7 mod ag) - (ag - p7 mod ag)) with p7 by lia.
  split; [lia|]. split; intros Hx.
  - lia.
  - destruct Hfull as [Hf1 Hf2]. destruct (Z.eq_dec (p7 mod ag) 0); lia.
Qed.

Lemma parseGGUFFile_tensor_data_start_aligned_witness :
  exists gf ag,
    Parse.parseGGUFFile (H := example_ggml) 80 (file_of file_infos_end_aligned)
      {| SkipLargeMetadata := false |} = Ok gf
    /\ Parse.alignment (MetadataKV (Header gf)) = Ok ag
    /\ 0 < Padding gf <= ag
    /\ TensorDataStartOffset gf mod ag = 0.
Proof.
  destruct (parseGGUFFile_tensor_data_start_aligned (H := example_ggml) 80
              (file_of file_infos_end_aligned) {| SkipLargeMetadata := false |} _
              eq_refl ltac:(vm_compute; reflexivity) ltac:(vm_compute; reflexivity))
    as (ag & H1 & _ & H3 & H4 & _).
  eexists _, ag. split; [vm_compute; reflexivity |]. auto.
Defined.
